(* ===== verification/_CoqProject ===== *)
-Q . S2P
Prelude.v
JsString.v
Crypto.v
Jwt.v
UserModel.v
Deployment.v
AuthController.v
Validators.v
AccountSpec.v
Concurrency.v
Routes.v
Frontend.v
Pages.v
PageViews.v
Effects.v
Diagnostics.v
Scenarios.v
Witnesses.v
