(* ===== verification/Prelude.v ===== *)
(** * NextApp authentication service: a verification development

    This library models the username/password authentication service of
    the NextApp repository (an Express + Sequelize backend under
    [src/Backend], a Next.js client under [src/FrontEnd]) and proves the
    properties that make its credential and token lifecycle correct.

    ** The program and how its parts interact

    - [src/Backend/models/User.js]: the Sequelize model [User] (one table
      [users]), its field validators, the [beforeCreate]/[beforeUpdate]
      hooks that bcrypt-hash the password, and the instance methods
      [getSignedJwtToken], [matchPassword], [getResetPasswordToken].
    - [src/Backend/controllers/authController.js]: the six handlers
      [register], [login], [getMe], [forgotPassword], [resetPassword],
      [logout] and the helper [sendTokenResponse].  Each one reads the
      table, mutates a loaded instance and saves it, and answers with a
      status code and a JSON body.
    - [src/Backend/middleware/validators.js]: request-body validators
      that run before the handlers and answer 400 with itemised errors.
    - [src/Backend/middleware/auth.js]: [protect], which parses the
      [Authorization: Bearer <jwt>] header, verifies the JWT and loads
      the user.
    - [src/Backend/routes/authRoutes.js], [server.js]: the routing of
      each path to validator/middleware and handler, the JSON body
      parser, the error middleware and [startServer].
    - [src/Backend/config/db.js]: the connection settings; the dialect
      fixes the collation under which [WHERE] compares strings.
    - [src/FrontEnd]: proxy handlers that forward each call to the
      backend, the React [AuthContext] that drives them, the two
      pages whose forms call [AuthContext], and the diagnostics of
      [utils/diagnostico.js], which call the backend directly.

    ** Files of the development (in dependency order)

    - [Prelude] (this file): the state-and-exception monad [St] that the
      handlers are written in ([x <- m ;; k] in [st_scope]), its laws, a
      unary Hoare logic [hoare P m Q] over it, the hint databases [auth]
      and [auth_rw], the judgements [no_throw] and [returns] built on
      it, the tactics shared by the other files, and generic lemmas on
      [find].
    - [JsString] (Module [Js]): the JavaScript string operations the code
      relies on ([trim], [toLowerCase], [startsWith], [split(sep)],
      truthiness of an optional string) and the hexadecimal encoding of
      bytes ([Buffer.toString('hex')]) with its decoding round trip.
    - [Crypto]: interfaces (type classes) for the primitives the code only
      calls: bcrypt ([PasswordHasher], with its 72-byte truncation law),
      SHA-256 ([Digest]), HMAC ([Mac]) and [validator.isEmail]
      ([EmailCheck]), and computable instances in Module [Toy] used by
      the witnesses.
    - [Jwt] (Module [Jwt]): the [jsonwebtoken] library as the code uses
      it: the [ms] timespan parser, [jwt.sign] and [jwt.verify] over the
      [Mac] interface (modelled from the library's documented behaviour;
      the library is not part of src/).
    - [UserModel] (Modules [Collations], [UserModel]): the [User] row,
      the table with its auto-increment counter, the [Collation] class
      under which the database compares strings, the model's validators,
      [create] with [beforeCreate], [save] with [beforeUpdate] (UPDATE of
      the changed fields only), the [findOne]/[findByPk] queries, the
      three instance methods and the table invariant [table_wf].
    - [AuthController] (Module [AuthController]): the six handlers and
      [sendTokenResponse] of [authController.js], [sendEmail] of
      [emailService.js], as computations in [St World Exn] over the world
      (table and outbox), with the request's environment ([Env]: clock,
      random bytes, salt, mail outcome) and the configuration ([Config]:
      [JWT_SECRET], [JWT_EXPIRE]) as parameters; [run_action] is one
      handler call.  Section [Preservation] proves once, for any
      predicate on tables, that the handlers preserve it when the three
      kinds of write do.
    - [Deployment] (Module [Deployment]): [db.js] (settings with their
      defaults, [testConnection]) and [startServer] of [server.js]; the
      collation of the default dialect.
    - [Validators] (Module [Validators]): the four body validators of
      [validators.js] and the router's use of them ([guard]).
    - [AccountSpec] (Module [AccountSpec]): the abstract specification
      of accounts: a labelled transition system [astep] whose states map
      account ids to username, email, password and pending reset, with
      the labels open, issue, cancel, consume; the abstraction [abs] of a
      table and the refinement invariant [refines].
    - [Concurrency] (Module [Concurrency]): [register] and
      [resetPassword] split at the [await] of their [User.findOne] into
      a lookup phase and a commit phase under the handler's [catch],
      [forgotPassword] into lookup, save and mail phases; a
      request in flight is a [Thread], and [run_schedule] lets Node's
      event loop resume the threads in the order of a schedule.
    - [Routes] (Module [Routes]): [protect] of [auth.js], the router of
      [authRoutes.js] and the request handling of [server.js] ([server]:
      [/api/auth/...], [/test], [/], Express's 404; [app]: [cors()],
      which ends every OPTIONS preflight with 204 and an empty body
      before any other middleware, then [express.json()] and the error
      middleware).
    - [Frontend] (Module [Frontend]): the Next.js API proxies of
      [Pages/api/auth/] (forwarding to [Routes.server]), the Next.js route
      table [next_api], and the operations of [AuthContext.js] over the
      client state (user, error, loading, stored token, router target),
      with [AuthProvider]'s first render and its mount effect.
    - [Pages] (Module [Pages]): the component state and [handleSubmit]
      of [Pages/index.js] (sign-up, forgot and login modes, the toggles,
      the effect that shows the context's error) and of
      [Pages/reset-password/[token].js]; each submission runs the whole
      stack: page, context, proxy, router, handler, table.
    - [PageViews] (Module [PageViews]): what the two pages render (the
      JSX conditionals: title, status message, the inputs of the mode,
      the submit button, the footer links; the invalid-token view of the
      reset page) and the login page as an event machine: typing into a
      rendered input, clicking a rendered link, and submitting when the
      browser allows it ([disabled] button, [required] inputs);
      [login_reachable] is the set of states reachable from the first
      render; the reset page likewise ([reset_reachable]), with its
      links and the pending [setTimeout] callbacks.
    - [Effects] (Module [Effects]): the [useEffect] hooks of both pages
      and React's render-and-commit loop ([settle], with fuel).
    - [Diagnostics] (Module [Diagnostics]): the five functions of
      [utils/diagnostico.js] as client code over [Routes.app], in
      [St World JsError]: [fetch] failures and the 5 s abort are
      JavaScript errors caught by the code's own [catch] blocks, and
      identifiers are resolved in the lexical scope of their block.
    - [Scenarios]: concrete runs evaluated by [vm_compute], among them
      the end-to-end scenario and the runs that exhibit the findings.
    - [Witnesses]: each property with hypotheses applied at a concrete
      input where the hypotheses hold.

    ** What the theorems show

    - Lifecycle ([AuthController]): registration then login succeeds
      with tokens for the new row; the reset token is mailed, resets the
      password once within ten minutes and is then refused; a refused
      reset changes nothing; login failures are indistinguishable;
      uniqueness conflicts and mail failures answer as the code says;
      under a case-insensitive collation an email taken up to case is
      reported as a taken username.  [jwt.sign] throws when
      [JWT_SECRET] is missing or [JWT_EXPIRE] is unset or not a
      timespan, as [jsonwebtoken]'s option check does, so the theorems
      that issue a token assume both are set.
    - Invariant: every handler, on every path including errors,
      preserves [table_wf] (distinct ids below the counter, unique
      usernames and emails under the collation, reset digest and expiry
      set together, bcrypt-hashed passwords), proved in the Hoare logic.
    - Tokens ([UserModel], [Routes]): a token from [getSignedJwtToken]
      verifies to the signed claims until expiry; [protect] admits only
      tokens carrying the HMAC under the server's secret whose claims
      are current and name a row; a token of another secret is refused;
      [GET /api/auth/me] answers the row's profile; the reset token is a
      40-character hex string whose digest alone is stored.
    - Refinement ([AccountSpec]): every sequence of handler calls from a
      well-formed table is matched by a run of the abstract machine whose
      labels the calls permit; hence no call removes an account or
      changes its keys, only a [resetPassword] answered 200 for the
      token of an unexpired pending reset changes a password (storing
      the new hash and clearing the reset), and usernames and emails keep the validators' bounds.
    - Concurrency ([Concurrency]): the split at the [await] is
      faithful (a schedule running each request to its end gives
      exactly [run_actions]); two resets with one token whose lookups
      run before either save both succeed, so the token is single-use
      only for requests that do not overlap; two registrations of one
      username in that order answer 201 and 500 where the sequential
      run answers 201 and 400; a [forgotPassword] whose mail fails,
      overlapping another for the same email, erases the token the
      other has mailed, so its link is refused; and when both run in
      the same millisecond the row can end with a token and no expiry:
      [table_wf], which every sequential run keeps, fails under
      concurrency, because [save] writes only the changed fields.
      Without [forgotPassword] it holds under every interleaving of
      [register] and [resetPassword] (a thread invariant [thread_ok]
      and [save_wf_stale], a preservation lemma for instances loaded
      before their row changed).
    - HTTP path ([Routes], [Validators]): [validateRegister] and
      [validateResetPassword] are equivalent to declarative conditions on
      the body; a fresh, valid, confirmed registration body goes through
      the router to [register] and is answered 201; the app answers every
      request (no handler throws), a body that is not JSON with the error
      middleware's 500; every answer has one of the codes 200, 201,
      400, 401, 404, 500 and a JSON body, except the text of [/] and
      Express's 404 page, and a preflight gets [cors()]'s empty 204 (the Hoare-style judgement
      [returns] of this file carries the proof through the handlers).
    - Client ([Frontend]): the web client's password reset always gets
      400 and its forgot-password request always fails (two defects);
      logout always clears the session; when [AuthProvider] mounts, a
      stored token issued for a row restores that user until it
      expires, and is dropped after.
    - Pages ([Pages]): the sign-up form creates the account and signs
      in; the reset page never succeeds and shows no error of its own;
      the forgot mode always shows the not-JSON error; on every state
      the reset page reaches from a mailed link it has not succeeded,
      is not loading, has armed no redirect and has written nothing;
      on every reachable
      state of the login page the modes are exclusive and the form shows
      and requires exactly the fields [handleSubmit] reads (so its
      empty-field branches are dead); the back link of the forgot mode
      leaves the forgot error on the login form; the pages' effects
      settle after at most two renders.
    - Diagnostics ([Diagnostics]): the fallback request of
      [checkCORSConfiguration] never runs, because its [catch] block
      reads [API_URL] out of scope; a full diagnostic leaves a test
      account with the password of the source in the table, and its
      CORS check reports [isConfigured] false from any page at another
      origin than the API, since the script cannot read
      [Access-Control-Allow-Origin] there; every suffix gives a username
      within the validator's bounds.
    - Findings about the code (see PROJECT.json): the username/email
      conflict report depends on row order and on the collation, [getMe]
      returns timestamps, an over-long reset password answers 500,
      bcrypt truncates at 72 bytes, a failed [jwt.sign] leaves the new
      row behind, a reset to the stored hash text is not rehashed, any
      header beginning with [Bearer] is accepted, the server's own
      OPTIONS branch is dead code behind [cors()], the diagnostics'
      CORS check fails cross-origin, and the check-then-
      write handlers race under concurrent requests, up to breaking
      the table invariant.

    ** Bounds and fuel

    Every recursion but one is structural on a string, a list or a
    schedule.  The random suffix of the diagnostics' test user is below
    10000, as [Math.floor(Math.random() * 10000)]; its decimal form has
    one to four digits ([Diagnostics.pretty_N_length]).  [Effects.settle]
    is the one definition with fuel, because React's loop need not
    terminate for arbitrary effects; [Effects.page_effects_settle] shows
    fuel 2 (or more) always gives the settled state of both pages, and
    [settle] returns [None] only when the fuel runs out.  Time is unbounded [N]; the ten-minute reset window is the
    constant [reset_window = 600000] ms of the code, and JWT expiry is
    compared in whole seconds as [jsonwebtoken] does.  Strings and
    lengths are unbounded, as in JavaScript.

    ** Modelling choices

    - Strings are Rocq byte strings ([String.string]).  For ASCII input
      this coincides with JavaScript's UTF-16 strings ([length],
      comparison); bcrypt's 72-byte truncation is on bytes.
    - JSON request bodies are records of optional strings ([None] is a
      missing field, JavaScript [undefined]).
    - Time is [N]: milliseconds for [Date.now()] and the
      [resetPasswordExpire] column, seconds for JWT claims, as in the code.
    - Randomness ([crypto.randomBytes], [bcrypt.genSalt]) and the outcome
      of [sendEmail] are inputs of a request (record [Env]), so every
      handler is a deterministic, executable function.
    - [findOne] without [ORDER BY] returns the first matching row in
      primary-key order (the clustered-index scan order of the database).
    - Exceptions thrown by awaited calls are values of the exception
      type; state written before a throw persists (there are no
      transactions in the code).
    - [run_actions] handles requests one at a time.  [Concurrency]
      interleaves [register], [resetPassword] and [forgotPassword] at
      their [await]s.  A phase may await more than one promise (the
      bcrypt hooks of [create] and [save], then the INSERT or UPDATE)
      but touches the table in one statement at most, which the
      database applies atomically, so running the phase in one step
      loses no outcome.  [login] and [getMe] only read and are not
      interleaved.  [save] compares dates to the millisecond, which
      holds for date columns that keep milliseconds (SQLite,
      PostgreSQL, MySQL [DATETIME(3)]); MySQL's default [DATETIME]
      drops them, which narrows the same-millisecond race of
      [forgotPassword] to a millisecond that is a whole second.
    - React state updates of one [handleSubmit] are applied in program
      order, and the effect on [error] is applied once after the call
      returns; the [useEffect] hooks run in [Effects]; the timer is not
      modelled.
    - [express.json()] failing is a request whose body is [None];
      the parser's message is a parameter.

    ** Not modelled

    - CORS headers other than what the diagnostics read of
      [Access-Control-Allow-Origin], the [HEAD] requests Express routes
      as [GET] (no client sends them), logging, the connection pool options of
      [config/db.js] and the route listing of [startServer]: they do not
      change the state of the service.
    - The styles ([<style jsx>]) and class names of the two pages:
      presentation.  The timer's 2000 ms delay is not modelled, only
      the order in which pending callbacks run.
    - The browser's format check of [type="email"] inputs: submissions
      are allowed whenever the [required] inputs are filled, which
      over-approximates what the browser lets through.
    - The console output of [utils/diagnostico.js] and the [statusText]
      (reason phrase) of its answers.
    - The transport of mail ([nodemailer]) beyond success or failure.
    - The cryptographic strength of bcrypt, SHA-256 and HMAC: they are
      interfaces with functional laws (see [Crypto]).
*)

From stdpp Require Export base list strings decidable.
From Stdlib Require Export ZArith NArith Lia.
From Stdlib Require Import Ascii.

Declare Scope st_scope.
Delimit Scope st_scope with st.

(** ** The state-and-exception monad

    A computation reads and writes a state [S] and may throw an [E].
    The state reached when an exception is thrown is kept, as in
    JavaScript: a write that happened before the throw is not rolled back. *)

Definition St (S E A : Type) : Type := S -> (E + A) * S.

Section Monad.
Context {S E : Type}.

Definition ret {A} (a : A) : St S E A := fun s => (inr a, s).

Definition bind {A B} (m : St S E A) (k : A -> St S E B) : St S E B :=
  fun s => match m s with
           | (inr a, s') => k a s'
           | (inl e, s') => (inl e, s')
           end.

Definition throw {A} (e : E) : St S E A := fun s => (inl e, s).

(** [try { m } catch (e) { h(e) }] *)
Definition try_catch {A} (m : St S E A) (h : E -> St S E A) : St S E A :=
  fun s => match m s with
           | (inl e, s') => h e s'
           | (inr a, s') => (inr a, s')
           end.

Definition get : St S E S := fun s => (inr s, s).
Definition put (s : S) : St S E unit := fun _ => (inr tt, s).
Definition modify (f : S -> S) : St S E unit := fun s => (inr tt, f s).

(** Lift a fallible pure result. *)
Definition lift {A} (r : E + A) : St S E A := fun s => (r, s).
End Monad.

Notation "x <- m ;; k" := (bind m (fun x => k))
  (at level 100, m at next level, right associativity) : st_scope.
Notation "m ;; k" := (bind m (fun _ => k))
  (at level 100, right associativity) : st_scope.

Open Scope st_scope.

Create HintDb auth discriminated.
Create Rewrite HintDb auth_rw.

Section MonadLaws.
Context {S E : Type}.

Lemma bind_ret_l {A B} (a : A) (k : A -> St S E B) s :
  bind (ret a) k s = k a s.
Proof. reflexivity. Qed.

Lemma bind_throw {A B} (e : E) (k : A -> St S E B) s :
  bind (throw e) k s = (inl e, s).
Proof. reflexivity. Qed.

Lemma bind_assoc {A B C} (m : St S E A) (k : A -> St S E B) (k' : B -> St S E C) s :
  bind (bind m k) k' s = bind m (fun a => bind (k a) k') s.
Proof. unfold bind. destruct (m s) as [[e|a] s']; reflexivity. Qed.

Lemma bind_ok {A B} (m : St S E A) (k : A -> St S E B) s a s' :
  m s = (inr a, s') -> bind m k s = k a s'.
Proof. unfold bind. by intros ->. Qed.

Lemma bind_err {A B} (m : St S E A) (k : A -> St S E B) s e s' :
  m s = (inl e, s') -> bind m k s = (inl e, s').
Proof. unfold bind. by intros ->. Qed.

Lemma try_catch_ok {A} (m : St S E A) h s a s' :
  m s = (inr a, s') -> try_catch m h s = (inr a, s').
Proof. unfold try_catch. by intros ->. Qed.

Lemma try_catch_err {A} (m : St S E A) h s e s' :
  m s = (inl e, s') -> try_catch m h s = h e s'.
Proof. unfold try_catch. by intros ->. Qed.
End MonadLaws.

#[export] Hint Rewrite @bind_ret_l @bind_throw @bind_assoc : auth_rw.

(** ** A unary program logic for [St]

    [hoare P m Q]: run from a state satisfying [P], the computation [m]
    ends with a result and a state satisfying [Q].  The rules below let
    a handler's invariant proof follow the handler's code. *)

Definition hoare {S E A} (P : S -> Prop) (m : St S E A) (Q : E + A -> S -> Prop) : Prop :=
  forall s r s', P s -> m s = (r, s') -> Q r s'.

Section Hoare.
Context {S E : Type}.

Lemma hoare_ret {A} (P : S -> Prop) (a : A) (Q : E + A -> S -> Prop) :
  (forall s, P s -> Q (inr a) s) -> hoare P (ret a) Q.
Proof. intros HQ s r s' HP [= <- <-]. auto. Qed.

Lemma hoare_throw {A} (P : S -> Prop) (e : E) (Q : E + A -> S -> Prop) :
  (forall s, P s -> Q (inl e) s) -> hoare P (throw e) Q.
Proof. intros HQ s r s' HP [= <- <-]. auto. Qed.

Lemma hoare_bind {A B} P (m : St S E A) (k : A -> St S E B) R Q :
  hoare P m R ->
  (forall a, hoare (R (inr a)) (k a) Q) ->
  (forall e s, R (inl e) s -> Q (inl e) s) ->
  hoare P (bind m k) Q.
Proof.
  intros Hm Hk He s r s' HP. unfold bind.
  destruct (m s) as [[e|a] s1] eqn:Em.
  - intros [= <- <-]. eapply He, Hm; eauto.
  - intros Hr. eapply Hk; [eapply Hm; eauto|exact Hr].
Qed.

Lemma hoare_try {A} P (m : St S E A) (h : E -> St S E A) R Q :
  hoare P m R ->
  (forall e, hoare (R (inl e)) (h e) Q) ->
  (forall a s, R (inr a) s -> Q (inr a) s) ->
  hoare P (try_catch m h) Q.
Proof.
  intros Hm Hh Ha s r s' HP. unfold try_catch.
  destruct (m s) as [[e|a] s1] eqn:Em.
  - intros Hr. eapply Hh; [eapply Hm; eauto|exact Hr].
  - intros [= <- <-]. eapply Ha, Hm; eauto.
Qed.

Lemma hoare_weaken {A} (P P' : S -> Prop) (m : St S E A) (Q Q' : E + A -> S -> Prop) :
  hoare P' m Q' -> (forall s, P s -> P' s) -> (forall r s, Q' r s -> Q r s) ->
  hoare P m Q.
Proof. intros Hm HP HQ s r s' Hs Hr. eauto. Qed.

Lemma hoare_strengthen_pre {A} (P P' : S -> Prop) (m : St S E A) Q :
  hoare P' m Q -> (forall s, P s -> P' s) -> hoare P m Q.
Proof. intros Hm HP s r s' Hs. eauto. Qed.

(** A fact of the precondition that does not depend on the state. *)
Lemma hoare_pure {A} (P : S -> Prop) (X : Prop) (m : St S E A) Q :
  (X -> hoare P m Q) -> hoare (fun s => P s /\ X) m Q.
Proof. intros H s r s' [HP HX] Hm. eapply H; eauto. Qed.

(** Case analysis on a value the computation branches on. *)
Lemma hoare_pre {A} (P : S -> Prop) (m : St S E A) Q :
  (forall s, P s -> hoare (fun s' => s' = s) m Q) -> hoare P m Q.
Proof. intros H s r s' HP Hm. eapply H; eauto. Qed.
End Hoare.

(** ** Generic lemmas on [find] and lists *)

(** ** Computations that never throw

    [no_throw m]: from every state, [m] ends with a value; an exception
    never escapes it.  A handler wrapped in [try/catch] whose [catch]
    answers is such a computation. *)
Definition no_throw {S E A} (m : St S E A) : Prop :=
  hoare (fun _ => True) m (fun r _ => exists a, r = inr a).

Section NoThrow.
Context {S E : Type}.

Lemma no_throw_ret {A} (a : A) : @no_throw S E A (ret a).
Proof. apply hoare_ret. eauto. Qed.

Lemma no_throw_try {A} (m : St S E A) (h : E -> St S E A) :
  (forall e, no_throw (h e)) -> no_throw (try_catch m h).
Proof.
  intros Hh. eapply hoare_try with (R := fun _ _ => True); [by intros ???|apply Hh|eauto].
Qed.

Lemma no_throw_bind {A B} (m : St S E A) (k : A -> St S E B) :
  no_throw m -> (forall a, no_throw (k a)) -> no_throw (bind m k).
Proof.
  intros Hm Hk. eapply hoare_bind with (R := fun r _ => exists a, r = inr a); [exact Hm| |].
  - intros a. eapply hoare_strengthen_pre; [apply Hk|done].
  - by intros e s [a ?].
Qed.

(** The value a computation that never throws ends with. *)
Lemma no_throw_run {A} (m : St S E A) s : no_throw m -> exists a s', m s = (inr a, s').
Proof.
  intros Hm. destruct (m s) as [r s'] eqn:Em.
  destruct (Hm s r s' I Em) as [a ->]. eauto.
Qed.
End NoThrow.

#[export] Hint Resolve no_throw_ret no_throw_try no_throw_bind : auth.

(** ** What a computation returns

    [returns P m]: every value [m] ends with satisfies [P]; exceptions
    are not constrained.  The type of the answers of a handler is such
    a property. *)
Definition returns {S E A} (P : A -> Prop) (m : St S E A) : Prop :=
  hoare (fun _ => True) m (fun r _ => forall a, r = inr a -> P a).

Section Returns.
Context {S E : Type}.

Lemma returns_ret {A} (P : A -> Prop) a : P a -> @returns S E A P (ret a).
Proof. intros Ha. apply hoare_ret. by intros ??? [= <-]. Qed.

Lemma returns_throw {A} (P : A -> Prop) e : @returns S E A P (throw e).
Proof. apply hoare_throw. by intros ??? [=]. Qed.

Lemma returns_bind {A B} (P : B -> Prop) (m : St S E A) (k : A -> St S E B) :
  (forall a, returns P (k a)) -> returns P (bind m k).
Proof.
  intros Hk. eapply hoare_bind with (R := fun _ _ => True); [by intros ????| |by intros ???? [=]].
  intros a. eapply hoare_strengthen_pre; [apply Hk|done].
Qed.

(** [bind] where the continuation uses what [m] returns. *)
Lemma returns_bind_with {A B} (Q : A -> Prop) (P : B -> Prop) (m : St S E A) (k : A -> St S E B) :
  returns Q m -> (forall a, Q a -> returns P (k a)) -> returns P (bind m k).
Proof.
  intros Hm Hk. eapply hoare_bind; [exact Hm| |by intros ???? [=]].
  intros a s r s' HQ. exact (Hk a (HQ a eq_refl) s r s' I).
Qed.

Lemma returns_try {A} (P : A -> Prop) (m : St S E A) (h : E -> St S E A) :
  returns P m -> (forall e, returns P (h e)) -> returns P (try_catch m h).
Proof.
  intros Hm Hh. eapply hoare_try; [exact Hm| |done].
  intros e. eapply hoare_strengthen_pre; [apply Hh|done].
Qed.

Lemma returns_run {A} (P : A -> Prop) (m : St S E A) s a s' :
  returns P m -> m s = (inr a, s') -> P a.
Proof. intros Hm Hs. exact (Hm s _ s' I Hs a eq_refl). Qed.
End Returns.

(** Split a computation into its [try], [bind], [match] and [if]
    steps down to the values it returns. *)
Ltac returns_steps :=
  repeat first
    [ apply returns_ret
    | apply returns_throw
    | apply returns_try; [|intros ?]
    | apply returns_bind; intros ?
    | case_match ].

Section FindLemmas.
Context {A : Type}.

Lemma find_app_l (f : A -> bool) (l1 l2 : list A) x :
  find f l1 = Some x -> find f (l1 ++ l2) = Some x.
Proof.
  induction l1 as [|y l1 IH]; simpl; [discriminate|].
  destruct (f y); auto.
Qed.

Lemma find_app_r (f : A -> bool) (l1 l2 : list A) :
  find f l1 = None -> find f (l1 ++ l2) = find f l2.
Proof.
  induction l1 as [|y l1 IH]; simpl; [done|].
  destruct (f y); [discriminate|auto].
Qed.

Lemma find_none_forall (f : A -> bool) (l : list A) :
  find f l = None <-> Forall (fun x => f x = false) l.
Proof.
  induction l as [|y l IH]; simpl.
  - split; auto.
  - rewrite Forall_cons_iff. destruct (f y) eqn:E; split.
    + discriminate.
    + intros [? _]; discriminate.
    + intros H; split; [done|]. by apply IH.
    + intros [_ H]. by apply IH.
Qed.

Lemma find_some_in (f : A -> bool) (l : list A) x :
  find f l = Some x -> x ∈ l /\ f x = true.
Proof.
  intros H. apply find_some in H as [H1 H2].
  split; [by apply list_elem_of_In|done].
Qed.

(** The only element satisfying [f] is the one [find] returns. *)
Lemma find_unique (f : A -> bool) (l : list A) y :
  y ∈ l -> f y = true -> (forall z, z ∈ l -> f z = true -> z = y) -> find f l = Some y.
Proof.
  induction l as [|x l IH]; simpl; [by intros ?%not_elem_of_nil|].
  intros Hy Hfy Hu. destruct (f x) eqn:Ex.
  - f_equal. apply Hu; [left|done].
  - apply elem_of_cons in Hy as [->|Hy]; [congruence|].
    apply IH; [done|done|]. intros z Hz Hfz. apply Hu; [by right|done].
Qed.

Lemma find_map_id (f : A -> bool) (g : A -> A) (l : list A) :
  (forall x, f (g x) = f x) ->
  find f (map g l) = option_map g (find f l).
Proof.
  intros Hg. induction l as [|y l IH]; simpl; [done|].
  rewrite Hg. destruct (f y); auto.
Qed.
End FindLemmas.

#[export] Hint Resolve find_app_l find_app_r : auth.

(** Case analysis on a [decide], on boolean string equality, and on
    the results of the monad's steps. *)
Ltac case_if :=
  match goal with
  | |- context [if decide ?P then _ else _] => destruct (decide P)
  | |- context [if String.eqb ?a ?b then _ else _] =>
      destruct (String.eqb_spec a b)
  | |- context [if ?b then _ else _] => destruct b eqn:?
  end.

(** Case analysis on the first boolean string comparison of the goal. *)
Ltac destr_streq :=
  match goal with
  | |- context [String.eqb ?a ?b] => destruct (String.eqb_spec a b)
  end.

Ltac destr_streq_as H :=
  match goal with
  | |- context [String.eqb ?a ?b] => destruct (String.eqb_spec a b) as [H|H]
  end.

Ltac st_unfold := unfold bind, ret, throw, try_catch, get, put, modify, lift in *.
