(* ===== verification/JsString.v ===== *)
(** * JavaScript string operations used by the backend

    [trim] (validators.js), [startsWith] and [split(' ')[1]]
    (middleware/auth.js), the truthiness test [!x] on an optional string
    field of a request body, and [Buffer.toString('hex')] on the bytes of
    [crypto.randomBytes] (models/User.js).  Strings are byte strings;
    JavaScript's [trim] removes the ASCII white space modelled here (and
    some Unicode spaces, which ASCII input never contains). *)

From S2P Require Import Prelude.
From Stdlib Require Import Ascii Strings.String Strings.Byte.
Import ListNotations.
Open Scope string_scope.

Module Js.

(** ** Truthiness and [trim] *)

(** [!x] for a body field that is a string or [undefined]. *)
Definition falsy (o : option string) : bool :=
  match o with
  | None => true
  | Some s => String.eqb s ""
  end.

(** The characters [String.prototype.trim] removes (ASCII part of the
    WhiteSpace and LineTerminator productions). *)
Definition is_ws (c : ascii) : bool :=
  match Ascii.nat_of_ascii c with
  | 32 | 9 | 10 | 11 | 12 | 13 => true
  | _ => false
  end.

Fixpoint drop_ws (l : list ascii) : list ascii :=
  match l with
  | [] => []
  | c :: l' => if is_ws c then drop_ws l' else l
  end.

Definition trim (s : string) : string :=
  string_of_list_ascii (rev (drop_ws (rev (drop_ws (list_ascii_of_string s))))).

(** [s.toLowerCase()] on ASCII letters. *)
Definition lower (c : ascii) : ascii :=
  let n := Ascii.nat_of_ascii c in
  if ((65 <=? n) && (n <=? 90))%nat then Ascii.ascii_of_nat (n + 32) else c.

Fixpoint to_lower_case (s : string) : string :=
  match s with
  | EmptyString => EmptyString
  | String c s' => String (lower c) (to_lower_case s')
  end.

(** [s.startsWith(p)] *)
Definition starts_with (s p : string) : bool := String.prefix p s.

(** ** [s.split(' ')] and array indexing *)

Definition space : ascii := " "%char.

(** [s.split(sep)] for a one-character separator. *)
Fixpoint split_on (sep : ascii) (s : string) : list string :=
  match s with
  | EmptyString => [""]
  | String c s' =>
      let rest := split_on sep s' in
      if Ascii.eqb c sep then "" :: rest
      else match rest with
           | [] => [String c ""]
           | h :: t => String c h :: t
           end
  end.

Definition split_sp (s : string) : list string := split_on space s.

(** [l.join(sep)] *)
Fixpoint join (sep : ascii) (l : list string) : string :=
  match l with
  | [] => ""
  | [x] => x
  | x :: l' => x ++ String sep (join sep l')
  end.

(** [a[i]]: [undefined] out of range. *)
Definition at_index (l : list string) (i : nat) : option string := l !! i.

(** A string without the separator. *)
Fixpoint no_char (sep : ascii) (s : string) : bool :=
  match s with
  | EmptyString => true
  | String c s' => negb (Ascii.eqb c sep) && no_char sep s'
  end.

Definition no_space (s : string) : bool := no_char space s.

(** ** [Buffer.toString('hex')] *)

(** The lowercase digit of a nibble ([n < 16]). *)
Definition hex_digit (n : N) : ascii :=
  ascii_of_N (if (n <? 10)%N then 48 + n else 87 + n)%N.

(** The value of a hexadecimal digit, in either case, as
    [Buffer.from(s, 'hex')] reads it. *)
Definition hex_value (c : ascii) : option N :=
  let n := N_of_ascii c in
  if (48 <=? n)%N && (n <=? 57)%N then Some (n - 48)%N
  else if (97 <=? n)%N && (n <=? 102)%N then Some (n - 87)%N
  else if (65 <=? n)%N && (n <=? 70)%N then Some (n - 55)%N
  else None.

Fixpoint hex (bs : list byte) : string :=
  match bs with
  | [] => ""
  | b :: bs' =>
      let n := Byte.to_N b in
      String (hex_digit (n / 16)) (String (hex_digit (n mod 16)) (hex bs'))
  end.

Definition unhex_byte (hi lo : ascii) : option byte :=
  match hex_value hi, hex_value lo with
  | Some h, Some l => Byte.of_N (h * 16 + l)
  | _, _ => None
  end.

Fixpoint unhex (s : string) : option (list byte) :=
  match s with
  | EmptyString => Some []
  | String hi (String lo s') =>
      match unhex_byte hi lo, unhex s' with
      | Some b, Some bs => Some (b :: bs)
      | _, _ => None
      end
  | String _ EmptyString => None
  end.

(** Characters that may appear in hexadecimal output. *)
Definition is_hex_char (c : ascii) : bool :=
  match hex_value c with Some _ => true | None => false end.

Fixpoint all_chars (p : ascii -> bool) (s : string) : bool :=
  match s with
  | EmptyString => true
  | String c s' => p c && all_chars p s'
  end.

End Js.

Import Js.

(** ** Lemmas *)

Lemma unhex_byte_hex (b : byte) :
  unhex_byte (hex_digit (Byte.to_N b / 16)) (hex_digit (Byte.to_N b mod 16)) = Some b.
Proof. destruct b; reflexivity. Qed.

Lemma hex_chars_of_byte (b : byte) :
  is_hex_char (hex_digit (Byte.to_N b / 16)) = true /\
  is_hex_char (hex_digit (Byte.to_N b mod 16)) = true.
Proof. destruct b; split; reflexivity. Qed.

(** Decoding the hexadecimal rendering of a byte string gives the bytes
    back: [Buffer.from(buf.toString('hex'), 'hex')] is [buf]. *)
Lemma unhex_hex (bs : list byte) : unhex (hex bs) = Some bs.
Proof.
  induction bs as [|b bs IH]; [done|].
  simpl. rewrite unhex_byte_hex, IH. done.
Qed.

Lemma hex_inj (bs1 bs2 : list byte) : hex bs1 = hex bs2 -> bs1 = bs2.
Proof.
  intros H. apply (f_equal unhex) in H. rewrite !unhex_hex in H. congruence.
Qed.

Lemma hex_length (bs : list byte) : String.length (hex bs) = 2 * List.length bs.
Proof. induction bs as [|b bs IH]; simpl; [done|]. rewrite IH. lia. Qed.

Lemma hex_all_hex_chars (bs : list byte) : all_chars is_hex_char (hex bs) = true.
Proof.
  induction bs as [|b bs IH]; simpl; [done|].
  destruct (hex_chars_of_byte b) as [-> ->]. exact IH.
Qed.

Lemma all_chars_app p (s1 s2 : string) :
  all_chars p (s1 ++ s2) = all_chars p s1 && all_chars p s2.
Proof. induction s1 as [|c s1 IH]; simpl; [done|]. rewrite IH. by destruct (p c). Qed.

(** A string made of characters of a class has no character outside it. *)
Lemma all_chars_no_char p (sep : ascii) (s : string) :
  p sep = false -> all_chars p s = true -> no_char sep s = true.
Proof.
  intros Hsep. induction s as [|c s IH]; simpl; [done|].
  intros [Hc Hs]%andb_prop. rewrite IH by done.
  destruct (Ascii.eqb_spec c sep) as [->|]; [congruence|done].
Qed.

Lemma all_hex_no_char (sep : ascii) (s : string) :
  is_hex_char sep = false -> all_chars is_hex_char s = true -> no_char sep s = true.
Proof. apply all_chars_no_char. Qed.

Lemma string_app_cons c (s1 s2 : string) : String c s1 ++ s2 = String c (s1 ++ s2).
Proof. reflexivity. Qed.

Lemma string_app_assoc (s1 s2 s3 : string) : (s1 ++ s2) ++ s3 = s1 ++ (s2 ++ s3).
Proof. induction s1 as [|c s1 IH]; [done|]. by rewrite !string_app_cons, IH. Qed.

Lemma split_on_nonempty sep (s : string) : split_on sep s <> [].
Proof.
  induction s as [|c s IH]; simpl; [done|].
  destruct (Ascii.eqb c sep); [done|]. by destruct (split_on sep s).
Qed.

Lemma join_cons2 sep (x y : string) l : join sep (x :: y :: l) = x ++ String sep (join sep (y :: l)).
Proof. reflexivity. Qed.

(** Splitting then joining with the same separator gives the string back. *)
Lemma join_split_on sep (s : string) : join sep (split_on sep s) = s.
Proof.
  induction s as [|c s IH]; [done|].
  pose proof (split_on_nonempty sep s) as Hne. cbn [split_on].
  revert IH Hne. destruct (Ascii.eqb_spec c sep) as [->|Hc];
    destruct (split_on sep s) as [|x [|y l]]; intros IH Hne; try done.
  - by rewrite join_cons2, <- IH.
  - by rewrite join_cons2, <- IH.
  - simpl in *. by subst.
  - rewrite join_cons2 in IH |- *. by rewrite <- IH.
Qed.

Lemma all_hex_no_space (s : string) :
  all_chars is_hex_char s = true -> no_space s = true.
Proof. by apply all_hex_no_char. Qed.

Lemma no_char_app sep (s1 s2 : string) :
  no_char sep (s1 ++ s2) = no_char sep s1 && no_char sep s2.
Proof. induction s1 as [|c s1 IH]; simpl; [done|]. rewrite IH. by destruct (Ascii.eqb c sep). Qed.

Lemma split_on_no_char sep (s : string) :
  no_char sep s = true -> split_on sep s = [s].
Proof.
  induction s as [|c s IH]; simpl; [done|].
  intros [Hc Hs]%andb_prop. rewrite IH by done.
  destruct (Ascii.eqb c sep); [discriminate|done].
Qed.

(** [(a + sep + b).split(sep)] is [a] followed by the pieces of [b]. *)
Lemma split_on_app sep (a b : string) :
  no_char sep a = true -> split_on sep (a ++ String sep b) = a :: split_on sep b.
Proof.
  induction a as [|c a IH]; simpl; intros H.
  - by rewrite Ascii.eqb_refl.
  - apply andb_prop in H as [Hc Ha]. rewrite IH by done.
    destruct (Ascii.eqb c sep); [discriminate|done].
Qed.

Lemma split_sp_app (a b : string) :
  no_space a = true -> split_sp (a ++ String space b) = a :: split_sp b.
Proof. apply split_on_app. Qed.

Lemma split_sp_no_space (s : string) :
  no_space s = true -> split_sp s = [s].
Proof. apply split_on_no_char. Qed.

(** [(p + x).startsWith(p)] *)
Lemma starts_with_app (p x : string) : starts_with (p ++ x) p = true.
Proof.
  unfold starts_with. induction p as [|c p IH]; [by destruct x|].
  rewrite string_app_cons. cbn [String.prefix]. destruct (ascii_dec c c); [|congruence].
  rewrite <- IH. destruct p; reflexivity.
Qed.

Lemma drop_ws_nil l c : c ∈ l -> Js.is_ws c = false -> Js.drop_ws l <> [].
Proof.
  induction l as [|x l IH]; [by intros ?%elem_of_nil|].
  intros [->|Hin]%elem_of_cons Hc; simpl; [by rewrite Hc|].
  destruct (Js.is_ws x); [by apply IH|done].
Qed.

(** A string whose first character is not white space is not blank. *)
Lemma trim_cons_nonblank c (s : string) : Js.is_ws c = false -> Js.trim (String c s) <> "".
Proof.
  intros Hc. unfold Js.trim. cbn [list_ascii_of_string Js.drop_ws]. rewrite Hc.
  intros Ht. apply (f_equal list_ascii_of_string) in Ht.
  rewrite list_ascii_of_string_of_list_ascii in Ht. apply (f_equal (@rev _)) in Ht.
  rewrite rev_involutive in Ht. revert Ht. apply (drop_ws_nil _ c); [|done].
  simpl. apply elem_of_app. right. by apply list_elem_of_singleton.
Qed.

#[export] Hint Resolve unhex_hex hex_all_hex_chars all_hex_no_space : auth.
#[export] Hint Rewrite unhex_hex hex_length all_chars_app no_char_app join_split_on : auth_rw.
