(* ===== verification/Crypto.v ===== *)
(** * Interfaces of the primitives the code calls

    The backend calls four library primitives whose internals are not
    part of the repository: [bcrypt.hash]/[bcrypt.compare] (bcryptjs),
    [crypto.createHash('sha256')...digest('hex')], the HMAC-SHA256 of
    [jsonwebtoken], and [validator.isEmail].  Each is a type class whose
    laws are what the proofs use; a computable instance of each, at the
    end of the file, lets the witnesses evaluate concrete runs. *)

From S2P Require Import Prelude JsString.
From Stdlib Require Import Ascii Strings.String Strings.Byte.
Import ListNotations.
Open Scope string_scope.

(** bcrypt only reads the first 72 bytes of the password. *)
Definition bcrypt_trunc (p : string) : string := String.substring 0 72 p.

(** [bcrypt.hash(p, salt)] and [bcrypt.compare(q, h)].  [compare] accepts
    exactly the passwords that agree with the hashed one on their first
    72 bytes: the hash is collision free up to bcrypt's truncation. *)
Class PasswordHasher := {
  bcrypt_hash : string -> string -> string;
  bcrypt_compare : string -> string -> bool;
  bcrypt_compare_spec : forall salt p q,
    bcrypt_compare q (bcrypt_hash salt p) = true <-> bcrypt_trunc q = bcrypt_trunc p
}.

(** [crypto.createHash('sha256').update(s).digest('hex')]: a function
    without collisions. *)
Class Digest := {
  sha256_hex : string -> string;
  sha256_inj : forall a b, sha256_hex a = sha256_hex b -> a = b
}.

(** The HMAC that signs a JWT: an unforgeable tag, i.e. one message and
    one key determine it and it determines both. *)
Class Mac := {
  hmac : string -> string -> list byte;
  hmac_msg_inj : forall k m1 m2, hmac k m1 = hmac k m2 -> m1 = m2;
  hmac_key_inj : forall k1 k2 m, hmac k1 m = hmac k2 m -> k1 = k2
}.

(** [validator.isEmail]: an arbitrary decidable predicate. *)
Class EmailCheck := { isEmail : string -> bool }.

(** ** Lemmas *)

Section HasherLemmas.
Context `{PasswordHasher}.

Lemma bcrypt_compare_hash salt p : bcrypt_compare p (bcrypt_hash salt p) = true.
Proof. by apply bcrypt_compare_spec. Qed.

Lemma bcrypt_compare_other salt p q :
  bcrypt_trunc q <> bcrypt_trunc p -> bcrypt_compare q (bcrypt_hash salt p) = false.
Proof.
  intros Hne. destruct (bcrypt_compare q _) eqn:E; [|done].
  exfalso. apply Hne. by apply bcrypt_compare_spec in E.
Qed.
End HasherLemmas.

#[export] Hint Resolve bcrypt_compare_hash bcrypt_compare_other : auth.

Lemma list_ascii_of_string_app (s1 s2 : string) :
  list_ascii_of_string (s1 ++ s2) = (list_ascii_of_string s1 ++ list_ascii_of_string s2)%list.
Proof. induction s1 as [|c s1 IH]; simpl; [done|]. by rewrite IH. Qed.

Lemma string_app_inv_l (s s1 s2 : string) : s ++ s1 = s ++ s2 -> s1 = s2.
Proof. induction s as [|c s IH]; simpl; [done|]. intros [= H]. auto. Qed.

Lemma string_app_inv_r (s s1 s2 : string) : s1 ++ s = s2 ++ s -> s1 = s2.
Proof.
  intros H. apply (f_equal list_ascii_of_string) in H.
  rewrite !list_ascii_of_string_app in H. apply app_inv_tail in H.
  rewrite <- (string_of_list_ascii_of_string s1), <- (string_of_list_ascii_of_string s2).
  by rewrite H.
Qed.

Lemma bcrypt_trunc_short (p : string) :
  String.length p <= 72 -> bcrypt_trunc p = p.
Proof.
  unfold bcrypt_trunc. generalize 72. induction p as [|c p IH]; intros n Hn.
  - by destruct n.
  - destruct n as [|n]; simpl in *; [lia|]. rewrite IH; [done|lia].
Qed.

(** ** Computable instances (used by the witnesses)

    The instances stand for the libraries in concrete runs: they satisfy
    the laws, not the cryptographic strength. *)

Module Toy.
Definition toy_hash (salt p : string) : string := "$2a$10$" ++ bcrypt_trunc p.
Definition toy_compare (q h : string) : bool := String.eqb h ("$2a$10$" ++ bcrypt_trunc q).

Lemma toy_compare_spec salt p q :
  toy_compare q (toy_hash salt p) = true <-> bcrypt_trunc q = bcrypt_trunc p.
Proof.
  unfold toy_compare, toy_hash. rewrite String.eqb_eq. split.
  - intros Hq. symmetry. by apply string_app_inv_l in Hq.
  - by intros ->.
Qed.

#[export] Instance toy_hasher : PasswordHasher :=
  {| bcrypt_hash := toy_hash; bcrypt_compare := toy_compare;
     bcrypt_compare_spec := toy_compare_spec |}.

Definition toy_sha (s : string) : string := "sha256:" ++ s.

Lemma toy_sha_inj a b : toy_sha a = toy_sha b -> a = b.
Proof. apply string_app_inv_l. Qed.

#[export] Instance toy_digest : Digest :=
  {| sha256_hex := toy_sha; sha256_inj := toy_sha_inj |}.

Definition toy_hmac (k m : string) : list byte := list_byte_of_string (k ++ "|" ++ m).

Lemma toy_hmac_string k m : string_of_list_byte (toy_hmac k m) = k ++ "|" ++ m.
Proof. apply string_of_list_byte_of_string. Qed.

Lemma toy_hmac_msg_inj k m1 m2 : toy_hmac k m1 = toy_hmac k m2 -> m1 = m2.
Proof.
  intros Hm. apply (f_equal string_of_list_byte) in Hm.
  rewrite !toy_hmac_string in Hm. apply string_app_inv_l in Hm. by injection Hm.
Qed.

Lemma toy_hmac_key_inj k1 k2 m : toy_hmac k1 m = toy_hmac k2 m -> k1 = k2.
Proof.
  intros Hk. apply (f_equal string_of_list_byte) in Hk.
  rewrite !toy_hmac_string in Hk. by apply string_app_inv_r in Hk.
Qed.

#[export] Instance toy_mac : Mac :=
  {| hmac := toy_hmac; hmac_msg_inj := toy_hmac_msg_inj; hmac_key_inj := toy_hmac_key_inj |}.

Fixpoint has_at (s : string) : bool :=
  match s with
  | EmptyString => false
  | String c s' => Ascii.eqb c "@"%char || has_at s'
  end.

#[export] Instance toy_email : EmailCheck := {| isEmail := has_at |}.
End Toy.
