(* ===== verification/Jwt.v ===== *)
(** * JSON Web Tokens as the backend uses them

    [User.prototype.getSignedJwtToken] (models/User.js) calls
    [jwt.sign({id, username}, JWT_SECRET, {expiresIn: JWT_EXPIRE})] and
    [protect] (middleware/auth.js) calls [jwt.verify(token, JWT_SECRET)].
    The [jsonwebtoken] and [ms] libraries are not part of the repository:
    this file models their documented behaviour on the inputs the code
    gives them.  [ms] is modelled on integer timespans ("30d", "15m",
    "3600"); fractional or negative timespans are outside the model.
    [jwt.sign] checks its options first: the code always passes the key
    [expiresIn], so an unset [JWT_EXPIRE] makes it throw, like a
    timespan [ms] cannot read.

    A token is [header.payload.signature]: a fixed HS256 header segment,
    the claims [{id, username, iat, exp}] in an encoding of their own (the
    library uses base64url JSON), and the hexadecimal HMAC of the first
    two segments. *)

From S2P Require Import Prelude JsString Crypto.
From Stdlib Require Import Ascii Strings.String Strings.Byte DecimalString DecimalN.
Import ListNotations.
Open Scope string_scope.

Module Jwt.

(** ** [ms]: timespan strings to milliseconds *)

Definition is_digit (c : ascii) : bool :=
  let n := Ascii.nat_of_ascii c in ((48 <=? n) && (n <=? 57))%nat.

(** Leading digits of a string and the rest. *)
Fixpoint span_digits (s : string) : string * string :=
  match s with
  | String c s' =>
      if is_digit c then let '(d, r) := span_digits s' in (String c d, r)
      else ("", s)
  | EmptyString => ("", "")
  end.

Fixpoint drop_spaces (s : string) : string :=
  match s with
  | String c s' => if Ascii.eqb c Js.space then drop_spaces s' else s
  | EmptyString => s
  end.

(** Milliseconds per unit, as in [ms]'s [parse] (after [toLowerCase]). *)
Definition unit_ms (u : string) : option N :=
  if decide (u ∈ ["years"; "year"; "yrs"; "yr"; "y"]) then Some 31557600000%N
  else if decide (u ∈ ["weeks"; "week"; "w"]) then Some 604800000%N
  else if decide (u ∈ ["days"; "day"; "d"]) then Some 86400000%N
  else if decide (u ∈ ["hours"; "hour"; "hrs"; "hr"; "h"]) then Some 3600000%N
  else if decide (u ∈ ["minutes"; "minute"; "mins"; "min"; "m"]) then Some 60000%N
  else if decide (u ∈ ["seconds"; "second"; "secs"; "sec"; "s"]) then Some 1000%N
  else if decide (u ∈ ["milliseconds"; "millisecond"; "msecs"; "msec"; "ms"; ""]) then Some 1%N
  else None.

Definition parse_N (s : string) : option N :=
  match NilEmpty.uint_of_string s with
  | Some d => Some (N.of_uint d)
  | None => None
  end.

Definition show_N (n : N) : string := NilEmpty.string_of_uint (N.to_uint n).

(** [ms(str)]: [undefined] ([None]) when the string does not match. *)
Definition ms (s : string) : option N :=
  if (100 <? String.length s)%nat then None else
  let '(d, rest) := span_digits s in
  if String.eqb d "" then None else
  match parse_N d, unit_ms (Js.to_lower_case (drop_spaces rest)) with
  | Some n, Some u => Some (n * u)%N
  | _, _ => None
  end.

(** ** Claims and their encoding *)

Record Claims := mkClaims {
  cl_id : N;
  cl_username : string;
  cl_iat : N;
  cl_exp : option N
}.

#[export] Instance claims_eq_dec : EqDecision Claims.
Proof. solve_decision. Defined.

Definition comma : ascii := ","%char.
Definition dot : ascii := "."%char.

Definition show_exp (e : option N) : string :=
  match e with Some n => show_N n | None => "-" end.

Definition parse_exp (s : string) : option (option N) :=
  if String.eqb s "-" then Some None else option_map Some (parse_N s).

Definition claims_text (c : Claims) : string :=
  show_N (cl_id c) ++ String comma (show_N (cl_iat c) ++ String comma
    (show_exp (cl_exp c) ++ String comma (cl_username c))).

Definition encode_claims (c : Claims) : string :=
  Js.hex (list_byte_of_string (claims_text c)).

(** The first piece before [sep] and the rest. *)
Fixpoint break_at (sep : ascii) (s : string) : option (string * string) :=
  match s with
  | EmptyString => None
  | String c s' =>
      if Ascii.eqb c sep then Some ("", s')
      else match break_at sep s' with
           | Some (a, b) => Some (String c a, b)
           | None => None
           end
  end.

Definition decode_claims (seg : string) : option Claims :=
  match Js.unhex seg with
  | None => None
  | Some bytes =>
    let t := string_of_list_byte bytes in
    match break_at comma t with
    | None => None
    | Some (sid, r1) =>
      match break_at comma r1 with
      | None => None
      | Some (siat, r2) =>
        match break_at comma r2 with
        | None => None
        | Some (sexp, uname) =>
          match parse_N sid, parse_N siat, parse_exp sexp with
          | Some i, Some ia, Some e => Some (mkClaims i uname ia e)
          | _, _, _ => None
          end
        end
      end
    end
  end.

(** ** [jwt.sign] and [jwt.verify] *)

(** base64url of [{"alg":"HS256","typ":"JWT"}]. *)
Definition jwt_header : string := "eyJhbGciOiJIUzI1NiIsInR5cCI6IkpXVCJ9".

Inductive JwtError :=
| NoSecret            (* secretOrPrivateKey must have a value *)
| BadExpiresIn        (* "expiresIn" should be a number of seconds or ... *)
| Malformed           (* jwt malformed *)
| InvalidToken        (* invalid token *)
| InvalidSignature    (* invalid signature *)
| TokenExpired.       (* TokenExpiredError: jwt expired *)

#[export] Instance jwt_error_eq_dec : EqDecision JwtError.
Proof. solve_decision. Defined.

Section Signing.
Context `{Mac}.

Definition signature (secret input : string) : string := Js.hex (hmac secret input).

(** [process.env.JWT_SECRET]: unset or empty is refused by the library. *)
Definition usable_secret (secret : option string) : option string :=
  match secret with
  | Some k => if String.eqb k "" then None else Some k
  | None => None
  end.

(** [exp] from [expiresIn] at issue time [iat] (seconds):
    [Math.floor(iat + ms(expiresIn) / 1000)].  The code always passes
    the key: [{expiresIn: process.env.JWT_EXPIRE}].  The library's
    options schema checks every key present, and
    [isInteger(value) || (isString(value) && value)] is false for
    [undefined], so an unset [JWT_EXPIRE] throws the same error as a
    timespan [ms] cannot read. *)
Definition timespan (expiresIn : option string) (iat : N) : JwtError + option N :=
  match expiresIn with
  | None => inl BadExpiresIn
  | Some s =>
      match ms s with
      | Some m => inr (Some (iat + m / 1000)%N)
      | None => inl BadExpiresIn
      end
  end.

Definition sign (id : N) (username : string) (secret expiresIn : option string)
    (now_ms : N) : JwtError + string :=
  match usable_secret secret with
  | None => inl NoSecret
  | Some k =>
      let iat := (now_ms / 1000)%N in
      match timespan expiresIn iat with
      | inl e => inl e
      | inr exp =>
          let input := jwt_header ++ String dot (encode_claims (mkClaims id username iat exp)) in
          inr (input ++ String dot (signature k input))
      end
  end.

(** [JWT_EXPIRE] is set to a timespan [ms] understands. *)
Definition expires_ok (expiresIn : option string) : bool :=
  match expiresIn with
  | None => false
  | Some s => match ms s with Some _ => true | None => false end
  end.

(** The claims a signed token carries. *)
Definition sign_claims (id : N) (username : string) (expiresIn : option string)
    (now_ms : N) : JwtError + Claims :=
  let iat := (now_ms / 1000)%N in
  match timespan expiresIn iat with
  | inl e => inl e
  | inr exp => inr (mkClaims id username iat exp)
  end.

(** [clockTimestamp >= exp]: the token has expired. *)
Definition expired (c : Claims) (now_ms : N) : bool :=
  match cl_exp c with
  | Some e => (e <=? now_ms / 1000)%N
  | None => false
  end.

Definition verify (token : string) (secret : option string) (now_ms : N)
    : JwtError + Claims :=
  match usable_secret secret with
  | None => inl NoSecret
  | Some k =>
    match Js.split_on dot token with
    | [h; p; sg] =>
        if negb (String.eqb h jwt_header) then inl InvalidToken else
        match decode_claims p with
        | None => inl InvalidToken
        | Some c =>
            if negb (String.eqb sg (signature k (h ++ String dot p))) then inl InvalidSignature
            else if expired c now_ms then inl TokenExpired else inr c
        end
    | _ => inl Malformed
    end
  end.
End Signing.

(** ** Lemmas on the encoding *)

Lemma show_N_digits n : Js.all_chars is_digit (show_N n) = true.
Proof.
  unfold show_N. generalize (N.to_uint n) as d.
  induction d as [|d IH|d IH|d IH|d IH|d IH|d IH|d IH|d IH|d IH|d IH]; simpl; auto.
Qed.

Lemma show_N_no_char c n : is_digit c = false -> Js.no_char c (show_N n) = true.
Proof. intros Hc. eapply all_chars_no_char; [exact Hc|apply show_N_digits]. Qed.

Lemma parse_N_show_N n : parse_N (show_N n) = Some n.
Proof. unfold parse_N, show_N. by rewrite NilEmpty.usu, Unsigned.of_to. Qed.

Lemma parse_exp_show_exp e : parse_exp (show_exp e) = Some e.
Proof.
  destruct e as [n|]; [|done]. unfold parse_exp; simpl.
  destruct (String.eqb_spec (show_N n) "-") as [E|_].
  - pose proof (show_N_digits n) as Hd. rewrite E in Hd. discriminate.
  - by rewrite parse_N_show_N.
Qed.

Lemma break_at_app sep (a b : string) :
  Js.no_char sep a = true -> break_at sep (a ++ String sep b) = Some (a, b).
Proof.
  induction a as [|c a IH]; intros Ha.
  - simpl. by rewrite Ascii.eqb_refl.
  - simpl in Ha. apply andb_prop in Ha as [Hc Ha].
    rewrite string_app_cons. simpl. rewrite IH by done.
    by destruct (Ascii.eqb c sep).
Qed.

Lemma decode_encode_claims c : decode_claims (encode_claims c) = Some c.
Proof.
  destruct c as [i u ia e]. unfold decode_claims, encode_claims, claims_text; simpl.
  rewrite unhex_hex, string_of_list_byte_of_string.
  rewrite break_at_app by (apply show_N_no_char; reflexivity).
  rewrite break_at_app by (apply show_N_no_char; reflexivity).
  rewrite break_at_app.
  - by rewrite !parse_N_show_N, parse_exp_show_exp.
  - destruct e; [apply show_N_no_char|]; reflexivity.
Qed.

Lemma encode_claims_no_dot c : Js.no_char dot (encode_claims c) = true.
Proof. apply all_hex_no_char; [reflexivity|apply hex_all_hex_chars]. Qed.

Lemma signature_no_dot `{Mac} k m : Js.no_char dot (signature k m) = true.
Proof. apply all_hex_no_char; [reflexivity|apply hex_all_hex_chars]. Qed.

Lemma split_token (p sg : string) :
  Js.no_char dot p = true -> Js.no_char dot sg = true ->
  Js.split_on dot ((jwt_header ++ String dot p) ++ String dot sg) = [jwt_header; p; sg].
Proof.
  intros Hp Hs. rewrite string_app_assoc, string_app_cons.
  rewrite split_on_app by reflexivity.
  rewrite split_on_app by done. by rewrite split_on_no_char.
Qed.

Lemma signature_inj `{Mac} k1 k2 m : signature k1 m = signature k2 m -> k1 = k2.
Proof. unfold signature. intros Hs. apply hex_inj in Hs. by eapply hmac_key_inj. Qed.

(** ** Properties of [jwt.sign] / [jwt.verify] *)

Section Properties.
Context `{Mac}.

Lemma sign_shape id u secret ex now t :
  sign id u secret ex now = inr t ->
  exists k c, usable_secret secret = Some k /\ sign_claims id u ex now = inr c /\
    t = (jwt_header ++ String dot (encode_claims c)) ++
          String dot (signature k (jwt_header ++ String dot (encode_claims c))).
Proof.
  unfold sign, sign_claims. destruct (usable_secret secret) as [k|]; [|discriminate].
  destruct (timespan ex _) as [e|exp]; [discriminate|]. intros [= <-]. eauto.
Qed.

Lemma sign_succeeds id u secret ex now :
  usable_secret secret <> None -> expires_ok ex = true ->
  exists t, sign id u secret ex now = inr t.
Proof.
  unfold sign, timespan, expires_ok. intros Hk He.
  destruct (usable_secret secret) as [k|]; [|done].
  destruct ex as [s|]; [destruct (ms s); [|discriminate]|discriminate]; eauto.
Qed.

Lemma sign_claims_succeeds id u ex now :
  expires_ok ex = true -> exists c, sign_claims id u ex now = inr c.
Proof.
  unfold sign_claims, timespan, expires_ok. intros He.
  destruct ex as [s|]; [destruct (ms s); [|discriminate]|discriminate]; eauto.
Qed.

Lemma verify_token k c now :
  verify ((jwt_header ++ String dot (encode_claims c)) ++
            String dot (signature k (jwt_header ++ String dot (encode_claims c))))
         (Some k) now =
  if String.eqb k "" then inl NoSecret
  else if expired c now then inl TokenExpired else inr c.
Proof.
  unfold verify, usable_secret. destruct (String.eqb k "") eqn:Ek; [done|].
  rewrite split_token by auto using encode_claims_no_dot, signature_no_dot.
  rewrite String.eqb_refl, decode_encode_claims, String.eqb_refl. done.
Qed.

(** What [jwt.verify] answers on a token [jwt.sign] issued. *)
Lemma sign_verify id u secret ex now now' t :
  sign id u secret ex now = inr t ->
  exists c, sign_claims id u ex now = inr c /\ cl_id c = id /\ cl_username c = u /\
    verify t secret now' = (if expired c now' then inl TokenExpired else inr c).
Proof.
  intros Hs. destruct (sign_shape _ _ _ _ _ _ Hs) as (k & c & Hk & Hc & ->).
  exists c. split; [done|].
  unfold sign_claims in Hc. destruct (timespan ex _); [discriminate|].
  injection Hc as <-. split_and!; [done|done|].
  destruct secret as [k'|]; [|discriminate]. unfold usable_secret in Hk.
  destruct (String.eqb_spec k' "") as [|Hne]; [discriminate|]. injection Hk as ->.
  rewrite verify_token. by destruct (String.eqb_spec k "").
Qed.

(** An issued token is a non-empty string without spaces, so it
    survives the [Bearer <token>] header and [split(' ')]. *)
Lemma sign_bearer_safe id u secret ex now t :
  sign id u secret ex now = inr t -> t <> "" /\ Js.no_space t = true.
Proof.
  intros Hs. destruct (sign_shape _ _ _ _ _ _ Hs) as (k & c & _ & _ & ->). split; [done|].
  unfold Js.no_space. rewrite !no_char_app. cbn.
  by rewrite !all_hex_no_space by apply hex_all_hex_chars.
Qed.

(** A token signed under one secret is refused with
    [InvalidSignature] by a server whose secret differs. *)
Lemma verify_other_secret id u k k' ex now now' t :
  sign id u (Some k) ex now = inr t ->
  k' <> "" -> k' <> k ->
  verify t (Some k') now' = inl InvalidSignature.
Proof.
  intros Hs Hk' Hne. destruct (sign_shape _ _ _ _ _ _ Hs) as (k0 & c & Hk & _ & ->).
  unfold usable_secret in Hk. destruct (String.eqb_spec k "") as [|_]; [discriminate|].
  injection Hk as <-.
  unfold verify, usable_secret. destruct (String.eqb_spec k' "") as [|_]; [done|].
  rewrite split_token by auto using encode_claims_no_dot, signature_no_dot.
  rewrite String.eqb_refl, decode_encode_claims. simpl.
  destr_streq_as E; [|done].
  apply signature_inj in E. congruence.
Qed.

(** [jwt.verify] accepts only tokens whose signature segment is the
    HMAC, under the server's secret, of their first two segments, and
    whose claims have not expired. *)
Lemma verify_sound t k now c :
  verify t (Some k) now = inr c ->
  exists p, t = (jwt_header ++ String dot p) ++ String dot (signature k (jwt_header ++ String dot p)) /\
    decode_claims p = Some c /\ expired c now = false.
Proof.
  unfold verify, usable_secret. destruct (String.eqb k ""); [discriminate|].
  destruct (Js.split_on dot t) as [|h [|p [|sg [|]]]] eqn:Hsplit; try discriminate.
  destruct (String.eqb_spec h jwt_header) as [->|]; [|discriminate]. simpl.
  destruct (decode_claims p) as [c'|] eqn:Hd; [|discriminate].
  destruct (String.eqb_spec sg (signature k (jwt_header ++ String dot p))) as [->|]; [|discriminate].
  simpl. destruct (expired c' now) eqn:He; [discriminate|]. intros [= <-].
  exists p. split_and!; [|done|done].
  rewrite <- (join_split_on dot t), Hsplit. simpl.
  by rewrite string_app_assoc, string_app_cons.
Qed.
End Properties.

End Jwt.
