(* ===== verification/UserModel.v ===== *)
(** * The Sequelize [User] model and the [users] table

    Models [src/Backend/models/User.js]: the row ([User]), the table with
    its auto-increment counter, the field validators run by [create] and
    [save], the [beforeCreate]/[beforeUpdate] hooks that bcrypt-hash the
    password, the unique indexes on [username] and [email], the queries
    the controllers issue ([findOne] with a [where] clause, [findByPk]),
    and the instance methods [getSignedJwtToken], [matchPassword] and
    [getResetPasswordToken].

    The database compares strings under a collation ([Collation]): the
    binary one (SQLite's default) and MySQL's case-insensitive one are
    both instances.  The invariant [table_wf] is what every operation
    preserves: ids are distinct and below the counter, usernames and
    emails are unique under the collation, the two reset fields are set
    together, and every stored password is a bcrypt hash. *)

From S2P Require Import Prelude JsString Crypto Jwt.
From Stdlib Require Import Ascii Strings.String Strings.Byte.
Import ListNotations.
Open Scope string_scope.

(** How the database compares two strings. *)
Class Collation := {
  coll_eq : string -> string -> bool;
  coll_refl : forall s, coll_eq s s = true;
  coll_sym : forall s t, coll_eq s t = coll_eq t s;
  coll_trans : forall s t v, coll_eq s t = true -> coll_eq t v = true -> coll_eq s v = true
}.

Module Collations.
Lemma eqb_trans s t v : String.eqb s t = true -> String.eqb t v = true -> String.eqb s v = true.
Proof. rewrite !String.eqb_eq. congruence. Qed.

(** [utf8mb4_bin] / SQLite: byte equality. *)
#[export] Instance binary : Collation :=
  {| coll_eq := String.eqb; coll_refl := String.eqb_refl; coll_sym := String.eqb_sym;
     coll_trans := eqb_trans |}.

Definition ci_eq (s t : string) : bool := String.eqb (Js.to_lower_case s) (Js.to_lower_case t).

Lemma ci_refl s : ci_eq s s = true.
Proof. apply String.eqb_refl. Qed.

Lemma ci_sym s t : ci_eq s t = ci_eq t s.
Proof. apply String.eqb_sym. Qed.

Lemma ci_trans s t v : ci_eq s t = true -> ci_eq t v = true -> ci_eq s v = true.
Proof. apply eqb_trans. Qed.

(** MySQL's default [_ci] collations: ASCII letters compare without case. *)
Definition case_insensitive : Collation :=
  {| coll_eq := ci_eq; coll_refl := ci_refl; coll_sym := ci_sym; coll_trans := ci_trans |}.
End Collations.

#[local] Existing Instance Jwt.jwt_error_eq_dec.

Module UserModel.

(** ** The row and the table *)

Record User := mkUser {
  id : N;
  username : string;
  email : string;
  password : string;
  resetPasswordToken : option string;
  resetPasswordExpire : option N;
  createdAt : N;
  updatedAt : N
}.

#[export] Instance user_eq_dec : EqDecision User.
Proof. solve_decision. Defined.

Record Table := mkTable {
  users : list User;   (* in primary-key order *)
  next_id : N          (* AUTO_INCREMENT counter *)
}.

Definition empty_table : Table := mkTable [] 1.

(** The errors thrown by the calls the controllers await. *)
Inductive Exn :=
| SequelizeValidationError (messages : list string)
| SequelizeUniqueConstraintError (field : string)
| WhereUndefined (field : string)   (* WHERE parameter "f" has invalid "undefined" value *)
| JwtFailure (e : Jwt.JwtError)
| MailFailure.

#[export] Instance exn_eq_dec : EqDecision Exn.
Proof. solve_decision. Defined.

Definition with_reset (u : User) (tok : option string) (exp : option N) : User :=
  mkUser (id u) (username u) (email u) (password u) tok exp (createdAt u) (updatedAt u).

Definition with_password (u : User) (p : string) : User :=
  mkUser (id u) (username u) (email u) p (resetPasswordToken u) (resetPasswordExpire u)
    (createdAt u) (updatedAt u).

Definition with_updated (u : User) (t : N) : User :=
  mkUser (id u) (username u) (email u) (password u) (resetPasswordToken u)
    (resetPasswordExpire u) (createdAt u) t.

Section Model.
Context `{PasswordHasher} `{EmailCheck} `{Collation}.

(** ** Validators of the model definition (User.js lines 8-38) *)

Definition msg_username_len := "El nombre de usuario debe tener entre 3 y 30 caracteres".
Definition msg_email := "Por favor, proporciona un email válido".
Definition msg_password_len := "La contraseña debe tener al menos 6 caracteres".

Definition len_ok (lo hi : nat) (s : string) : bool :=
  (lo <=? String.length s)%nat && (String.length s <=? hi)%nat.

Definition validate_username (u : string) : list string :=
  if len_ok 3 30 u then [] else [msg_username_len].
Definition validate_email (e : string) : list string :=
  if isEmail e then [] else [msg_email].
Definition validate_password (p : string) : list string :=
  if len_ok 6 100 p then [] else [msg_password_len].

(** ** Queries: [findOne] returns the first row in key order *)

Definition find_where (p : User -> bool) (t : Table) : option User := find p (users t).

(** [where: {[Op.or]: [{email}, {username}]}] *)
Definition by_email_or_username (e u : string) (r : User) : bool :=
  coll_eq (email r) e || coll_eq (username r) u.
Definition by_username (u : string) (r : User) : bool := coll_eq (username r) u.
Definition by_email (e : string) (r : User) : bool := coll_eq (email r) e.
(** [where: {resetPasswordToken, resetPasswordExpire: {[Op.gt]: Date.now()}}];
    [NULL] compares false. *)
Definition by_reset_token (d : string) (now : N) (r : User) : bool :=
  match resetPasswordToken r, resetPasswordExpire r with
  | Some tok, Some exp => coll_eq tok d && (now <? exp)%N
  | _, _ => false
  end.
Definition by_pk (i : N) (r : User) : bool := (id r =? i)%N.

(** A [where] value that is [undefined] makes Sequelize throw. *)
Definition where_value (field : string) (v : option string) : St Table Exn string :=
  match v with
  | Some s => ret s
  | None => throw (WhereUndefined field)
  end.

Definition findOne (p : User -> bool) : St Table Exn (option User) :=
  fun t => (inr (find_where p t), t).

(** ** [User.create] (build, validate, [beforeCreate], INSERT) *)

Definition insert_row (t : Table) (r : User) : Table :=
  mkTable (users t ++ [r])%list (next_id t + 1).

(** A [null]/[undefined] attribute with [allowNull: false]. *)
Definition msg_not_null (field : string) : string := "User." ++ field ++ " cannot be null".

Definition validate_password_opt (p : option string) : list string :=
  match p with
  | Some s => validate_password s
  | None => [msg_not_null "password"]
  end.

(** [User.create({username, email, password})]: [username] and [email]
    reach it as strings (the preceding [where] refuses [undefined]);
    [password] may be [undefined]. *)
Definition create (u e : string) (po : option string) (salt : string) (now : N)
    : St Table Exn User :=
  fun t =>
    let errs := (validate_username u ++ validate_email e ++ validate_password_opt po)%list in
    if decide (errs <> []) then (inl (SequelizeValidationError errs), t) else
    let hashed := bcrypt_hash salt (default "" po) in
    if existsb (fun r => coll_eq (username r) u) (users t)
    then (inl (SequelizeUniqueConstraintError "username"), t) else
    if existsb (fun r => coll_eq (email r) e) (users t)
    then (inl (SequelizeUniqueConstraintError "email"), t) else
    let r := mkUser (next_id t) u e hashed None None now now in
    (inr r, insert_row t r).

(** ** [instance.save()] (validate changed fields, [beforeUpdate], UPDATE)

    [orig] holds the values loaded from the database, [cur] the values
    after the controller's assignments.  Only changed fields are
    validated and written, with [updatedAt]. *)

Definition changed_password (orig cur : User) : bool :=
  negb (String.eqb (password cur) (password orig)).

Definition pick {A} `{EqDecision A} (o c row : A) : A :=
  if decide (c = o) then row else c.

(** The UPDATE statement: changed columns and [updatedAt]. *)
Definition apply_changes (orig cur : User) (now : N) (row : User) : User :=
  mkUser (id row) (pick (username orig) (username cur) (username row))
    (pick (email orig) (email cur) (email row))
    (pick (password orig) (password cur) (password row))
    (pick (resetPasswordToken orig) (resetPasswordToken cur) (resetPasswordToken row))
    (pick (resetPasswordExpire orig) (resetPasswordExpire cur) (resetPasswordExpire row))
    (createdAt row) now.

Definition update_row (i : N) (f : User -> User) (t : Table) : Table :=
  mkTable (map (fun r => if (id r =? i)%N then f r else r) (users t)) (next_id t).

Definition save (orig cur : User) (salt : string) (now : N) : St Table Exn User :=
  fun t =>
    let chg := changed_password orig cur in
    let errs := if chg then validate_password (password cur) else [] in
    if decide (errs <> []) then (inl (SequelizeValidationError errs), t) else
    let cur' := if chg then with_password cur (bcrypt_hash salt (password cur)) else cur in
    if decide (cur = orig) then (inr cur, t) else
    (inr (with_updated cur' now), update_row (id orig) (apply_changes orig cur' now) t).

(** ** Instance methods *)

Definition getSignedJwtToken `{Mac} (u : User) (secret expire : option string) (now : N)
    : St Table Exn string :=
  match Jwt.sign (id u) (username u) secret expire now with
  | inr tok => ret tok
  | inl e => throw (JwtFailure e)
  end.

Definition matchPassword (u : User) (entered : string) : bool :=
  bcrypt_compare entered (password u).

(** Ten minutes, in milliseconds. *)
Definition reset_window : N := 10 * 60 * 1000.

(** [getResetPasswordToken]: [rand] is [crypto.randomBytes(20)]; the
    plaintext token goes back to the caller, its digest into the row. *)
Definition getResetPasswordToken `{Digest} (u : User) (rand : list byte) (now : N)
    : string * User :=
  let resetToken := Js.hex rand in
  (resetToken, with_reset u (Some (sha256_hex resetToken)) (Some (now + reset_window)%N)).

(** ** The table invariant *)

Definition reset_fields_ok (r : User) : Prop :=
  (resetPasswordToken r = None <-> resetPasswordExpire r = None).

Definition is_bcrypt_hash (pw : string) : Prop := exists salt p, pw = bcrypt_hash salt p.

Definition row_wf (t : Table) (r : User) : Prop :=
  (id r < next_id t)%N /\ reset_fields_ok r /\ is_bcrypt_hash (password r).

(** No two rows agree on [f] under the collation. *)
Definition unique_on (f : User -> string) (l : list User) : Prop :=
  forall i j r1 r2, l !! i = Some r1 -> l !! j = Some r2 ->
    coll_eq (f r1) (f r2) = true -> i = j.

(** No row holds a reset digest equal (under the collation) to [d]:
    what the 160 random bits of a fresh reset token guarantee. *)
Definition digest_unused (d : string) (t : Table) : Prop :=
  forall r tok, r ∈ users t -> resetPasswordToken r = Some tok -> coll_eq tok d = false.

Definition table_wf (t : Table) : Prop :=
  Forall (row_wf t) (users t) /\ NoDup (map id (users t)) /\
  unique_on username (users t) /\ unique_on email (users t).

(** ** Lemmas *)

Lemma find_where_some p t r : find_where p t = Some r -> r ∈ users t /\ p r = true.
Proof. apply find_some_in. Qed.

Lemma row_wf_mono t t' r : (next_id t <= next_id t')%N -> row_wf t r -> row_wf t' r.
Proof. intros Hle (Hid & Hr & Hp). split_and!; [lia|done|done]. Qed.

Lemma unique_on_snoc f (l : list User) r :
  unique_on f l -> Forall (fun x => coll_eq (f x) (f r) = false) l ->
  unique_on f (l ++ [r])%list.
Proof.
  intros Hu Hnew i j r1 r2 Hi Hj Hc.
  apply lookup_app_Some in Hi as [Hi|[Hli Hi]];
  apply lookup_app_Some in Hj as [Hj|[Hlj Hj]].
  - eauto.
  - apply list_lookup_singleton_Some in Hj as [_ <-].
    rewrite (proj1 (Forall_lookup _ _) Hnew _ _ Hi) in Hc. discriminate.
  - apply list_lookup_singleton_Some in Hi as [_ <-].
    rewrite coll_sym, (proj1 (Forall_lookup _ _) Hnew _ _ Hj) in Hc. discriminate.
  - apply list_lookup_singleton_Some in Hi as [Hi _].
    apply list_lookup_singleton_Some in Hj as [Hj _]. lia.
Qed.

Lemma unique_on_map f g (l : list User) :
  (forall x, f (g x) = f x) -> unique_on f l -> unique_on f (map g l).
Proof.
  intros Hg Hu i j r1 r2 Hi Hj Hc.
  rewrite list_lookup_fmap in Hi, Hj.
  destruct (l !! i) as [x1|] eqn:E1, (l !! j) as [x2|] eqn:E2; try discriminate.
  injection Hi as <-. injection Hj as <-. rewrite !Hg in Hc. eauto.
Qed.

Lemma existsb_false_forall (q : User -> bool) l :
  existsb q l = false -> Forall (fun x => q x = false) l.
Proof.
  intros Hq. apply Forall_forall. intros x Hx.
  destruct (q x) eqn:E; [|done].
  assert (existsb q l = true) by (apply existsb_exists; eauto). congruence.
Qed.

Lemma forall_false_existsb (q : User -> bool) l :
  Forall (fun x => q x = false) l -> existsb q l = false.
Proof. induction 1 as [|x l Hx _ IH]; simpl; [done|]. by rewrite Hx, IH. Qed.

Lemma create_ok u e p salt now t :
  validate_username u = [] -> validate_email e = [] -> validate_password p = [] ->
  Forall (fun r => coll_eq (username r) u = false) (users t) ->
  Forall (fun r => coll_eq (email r) e = false) (users t) ->
  create u e (Some p) salt now t =
    (inr (mkUser (next_id t) u e (bcrypt_hash salt p) None None now now),
     insert_row t (mkUser (next_id t) u e (bcrypt_hash salt p) None None now now)).
Proof.
  intros Hu He Hp Hfu Hfe. unfold create. simpl. rewrite Hu, He, Hp. simpl.
  rewrite !forall_false_existsb by done. done.
Qed.

Lemma unique_on_elem f l x y :
  unique_on f l -> x ∈ l -> y ∈ l -> coll_eq (f x) (f y) = true -> x = y.
Proof.
  intros Hu Hx Hy Hc.
  apply list_elem_of_lookup in Hx as [i Hi], Hy as [j Hj].
  assert (i = j) as -> by eauto. congruence.
Qed.

(** Under the invariant, a row matching a key under the collation is
    the one [findOne] returns. *)
Lemma find_where_key f t r k :
  unique_on f (users t) -> r ∈ users t -> coll_eq (f r) k = true ->
  find_where (fun x => coll_eq (f x) k) t = Some r.
Proof.
  intros Hu Hr Hk. apply find_unique; [done|done|].
  intros z Hz Hzk. eapply unique_on_elem; [exact Hu|done|done|].
  eapply coll_trans; [exact Hzk|]. by rewrite coll_sym.
Qed.

(** [create] either throws with the table unchanged or appends one
    row whose id is the counter. *)
Lemma create_cases u e po salt now t :
  (exists ex, create u e po salt now t = (inl ex, t)) \/
  (exists p, po = Some p /\
   validate_username u = [] /\ validate_email e = [] /\ validate_password p = [] /\
   Forall (fun r => coll_eq (username r) u = false) (users t) /\
   Forall (fun r => coll_eq (email r) e = false) (users t) /\
   create u e po salt now t =
     (inr (mkUser (next_id t) u e (bcrypt_hash salt p) None None now now),
      insert_row t (mkUser (next_id t) u e (bcrypt_hash salt p) None None now now))).
Proof.
  unfold create.
  destruct (decide _) as [Hne|Hne]; [left; eauto|].
  apply dec_stable in Hne. apply app_eq_nil in Hne as [Hu Hne].
  apply app_eq_nil in Hne as [He Hp].
  destruct po as [p|]; [|discriminate].
  destruct (existsb _ (users t)) eqn:Eu; [left; eauto|].
  destruct (existsb (fun r => coll_eq (email r) e) (users t)) eqn:Ee; [left; eauto|].
  right. exists p. split_and!; auto using existsb_false_forall.
Qed.

(** [User.create] preserves the table invariant. *)
Lemma create_wf u e po salt now t r t' :
  table_wf t -> create u e po salt now t = (inr r, t') -> table_wf t'.
Proof.
  intros (Hrows & Hids & Hun & Hem) Hc.
  destruct (create_cases u e po salt now t) as [[ex Hex]|(p & _ & _ & _ & _ & Hfu & Hfe & Hok)];
    rewrite Hc in *; [discriminate|].
  injection Hok as -> ->. unfold table_wf, insert_row; simpl.
  split_and!.
  - apply Forall_app. split.
    + eapply Forall_impl; [|exact Hrows]. intros x. apply row_wf_mono. simpl. lia.
    + constructor; [|done]. split_and!; simpl; [lia|done|by eexists _, _].
  - rewrite map_app. apply list.NoDup_app. split_and!; [done| |apply NoDup_singleton].
    intros x Hx Hx'. apply list_elem_of_singleton in Hx'. subst x.
    apply list_elem_of_In, in_map_iff in Hx as (y & Hy & Hyin).
    rewrite Forall_forall in Hrows. destruct (Hrows y Hyin) as (Hlt & _). simpl in Hy. lia.
  - by apply unique_on_snoc.
  - by apply unique_on_snoc.
Qed.

Lemma pick_same {A} `{EqDecision A} (o c : A) : pick o c o = c.
Proof. unfold pick. by destruct (decide (c = o)) as [->|]. Qed.

Lemma pick_unchanged {A} `{EqDecision A} (o row : A) : pick o o row = row.
Proof. unfold pick. by rewrite decide_True. Qed.

Lemma apply_changes_same orig cur now :
  id cur = id orig -> createdAt cur = createdAt orig ->
  apply_changes orig cur now orig = with_updated cur now.
Proof.
  intros Hid Hc. unfold apply_changes, with_updated. rewrite !pick_same.
  by rewrite <- Hid, <- Hc.
Qed.

Lemma NoDup_map_id_eq (l : list User) x y :
  NoDup (map id l) -> x ∈ l -> y ∈ l -> id x = id y -> x = y.
Proof.
  intros Hnd Hx Hy Hxy.
  apply list_elem_of_lookup in Hx as [i Hi], Hy as [j Hj].
  assert (i = j) as ->.
  { eapply NoDup_lookup; [exact Hnd| |]; rewrite list_lookup_fmap.
    - by rewrite Hi. - by rewrite Hj, Hxy. }
  congruence.
Qed.

(** [findByPk] finds a row of a well-formed table by its id. *)
Lemma find_by_pk t x : table_wf t -> x ∈ users t -> find_where (by_pk (id x)) t = Some x.
Proof.
  intros (_ & Hids & _) Hx. apply find_unique; [done|apply N.eqb_refl|].
  intros z Hz Hzx%N.eqb_eq. by apply (NoDup_map_id_eq (users t)).
Qed.

Lemma row_wf_same_counter t t' r : next_id t = next_id t' -> row_wf t r -> row_wf t' r.
Proof. intros E. apply row_wf_mono. lia. Qed.

(** Rewriting the rows of one id with a function that keeps the id,
    username and email keeps the invariant, when each rewritten row
    is well formed. *)
Lemma update_row_wf t i g :
  table_wf t ->
  (forall r, id (g r) = id r /\ username (g r) = username r /\ email (g r) = email r) ->
  (forall r, r ∈ users t -> id r = i -> row_wf t (g r)) ->
  table_wf (update_row i g t).
Proof.
  intros (Hrows & Hids & Hun & Hem) Hg Hok.
  set (G := fun r => if (id r =? i)%N then g r else r).
  assert (HG : forall r, id (G r) = id r /\ username (G r) = username r /\ email (G r) = email r).
  { intros r. unfold G. destruct (id r =? i)%N; auto. }
  unfold table_wf, update_row; simpl. fold G. split_and!.
  - apply Forall_map, Forall_forall. intros r Hr. unfold G.
    destruct (N.eqb_spec (id r) i) as [E|_].
    + apply (row_wf_same_counter t); [done|]. apply Hok; [by apply list_elem_of_In|done].
    + rewrite Forall_forall in Hrows. by apply (row_wf_same_counter t), Hrows.
  - rewrite map_map. erewrite map_ext; [exact Hids|]. intros r. apply HG.
  - apply unique_on_map; [intros r; apply HG|done].
  - apply unique_on_map; [intros r; apply HG|done].
Qed.

(** [instance.save()] preserves the table invariant, for an
    instance loaded from the table whose key fields the controller
    leaves alone and whose reset fields it sets together. *)
Lemma save_wf orig cur salt now t r t' :
  table_wf t -> orig ∈ users t ->
  id cur = id orig -> username cur = username orig -> email cur = email orig ->
  createdAt cur = createdAt orig -> reset_fields_ok cur ->
  save orig cur salt now t = (inr r, t') -> table_wf t'.
Proof.
  intros Hwf Hin Hid Hu He Hc Hreset. unfold save.
  destruct (decide _) as [|_]; [discriminate|].
  destruct (decide (cur = orig)) as [_|Hne]; [congruence|]. intros [= _ <-].
  assert (Horig : row_wf t orig) by (destruct Hwf as [Hrows _]; by eapply Forall_forall, list_elem_of_In).
  destruct Horig as (Hlt & _ & Hhash).
  set (cur' := if changed_password orig cur then _ else cur).
  assert (Hcur : id cur' = id orig /\ username cur' = username orig /\ email cur' = email orig /\
    createdAt cur' = createdAt orig /\ reset_fields_ok cur' /\ is_bcrypt_hash (password cur')).
  { unfold cur', changed_password.
    destruct (String.eqb_spec (password cur) (password orig)) as [Hpw|Hpw]; simpl;
      split_and!; try done; [by rewrite Hpw|by eexists _, _]. }
  clearbody cur'. destruct Hcur as (Hid' & Hu' & He' & Hc' & Hr' & Hp').
  apply update_row_wf; [done| |].
  - intros row. unfold apply_changes; simpl.
    by rewrite Hu', He', !pick_unchanged.
  - intros row Hrow Hrid.
    assert (row = orig) as -> by (destruct Hwf as (_ & Hids & _); eapply NoDup_map_id_eq; eauto).
    rewrite apply_changes_same by done.
    split_and!; simpl; [rewrite Hid'; lia|done|done].
Qed.

(** The table the server starts with satisfies the invariant. *)
Lemma empty_table_wf : table_wf empty_table.
Proof.
  split_and!; simpl; [constructor|constructor|..];
    intros i j r1 r2 Hi; by rewrite lookup_nil in Hi.
Qed.

(** ** Specifications of the table operations in the program logic *)

Lemma findOne_spec (P : Table -> Prop) p :
  hoare P (findOne p) (fun r t => P t /\ r = inr (find_where p t)).
Proof. intros t r t' HP [= <- <-]. auto. Qed.

Lemma where_value_spec (P : Table -> Prop) f v :
  hoare P (where_value f v) (fun r t => P t /\ forall s, r = inr s -> v = Some s).
Proof.
  destruct v as [s|]; [apply hoare_ret|apply hoare_throw]; intros t HP; split; congruence.
Qed.

Lemma create_spec u e po salt now :
  hoare table_wf (create u e po salt now) (fun _ t => table_wf t).
Proof.
  intros t r t' Hwf Hc. destruct r as [ex|x]; [|eapply create_wf; eauto].
  destruct (create_cases u e po salt now t) as [[ex' Hex]|(p & _ & _ & _ & _ & _ & _ & Hok)];
    rewrite Hc in *; congruence.
Qed.

(** The fields of a row that [save] never rewrites. *)
Definition same_key (x y : User) : Prop :=
  id x = id y /\ username x = username y /\ email x = email y /\ createdAt x = createdAt y.

Lemma same_key_refl x : same_key x x.
Proof. done. Qed.

Lemma same_key_trans x y z : same_key x y -> same_key y z -> same_key x z.
Proof. unfold same_key. intros (?&?&?&?) (?&?&?&?). split_and!; congruence. Qed.

Lemma with_reset_same_key x tok exp : same_key (with_reset x tok exp) x.
Proof. done. Qed.

Lemma with_password_same_key x p : same_key (with_password x p) x.
Proof. done. Qed.

Lemma with_reset_ok x tok exp :
  (tok = None <-> exp = None) -> reset_fields_ok (with_reset x tok exp).
Proof. done. Qed.

Lemma getResetPasswordToken_row `{Digest} x rand now :
  snd (getResetPasswordToken x rand now) =
    with_reset x (Some (sha256_hex (Js.hex rand))) (Some (now + reset_window)%N).
Proof. reflexivity. Qed.

Lemma update_row_in t i g x :
  x ∈ users t -> id x = i -> g x ∈ users (update_row i g t).
Proof.
  intros Hx Hi. unfold update_row; simpl. apply list_elem_of_In, in_map_iff.
  exists x. split; [by rewrite Hi, N.eqb_refl|by apply list_elem_of_In].
Qed.

Lemma update_row_others t x g r :
  table_wf t -> x ∈ users t -> r ∈ users (update_row (id x) g t) ->
  r = g x \/ (r ∈ users t /\ r <> x).
Proof.
  intros (_ & Hids & _) Hx Hr. unfold update_row in Hr; simpl in Hr.
  apply list_elem_of_In, in_map_iff in Hr as (r0 & <- & Hr0).
  apply list_elem_of_In in Hr0.
  destruct (N.eqb_spec (id r0) (id x)) as [E|E].
  - left. f_equal. by eapply NoDup_map_id_eq.
  - right. split; [done|congruence].
Qed.

(** After rewriting the row [x], [findOne p] finds its new value if
    that value matches and no other row does. *)
Lemma find_where_update t x g p :
  table_wf t -> x ∈ users t ->
  (forall r, r ∈ users t -> r <> x -> p r = false) ->
  find_where p (update_row (id x) g t) = if p (g x) then Some (g x) else None.
Proof.
  intros Hwf Hx Hoth. destruct (p (g x)) eqn:Hg.
  - apply find_unique; [by apply update_row_in|done|].
    intros z Hz Hpz. destruct (update_row_others t x g z Hwf Hx Hz) as [->|[Hz' Hne]]; [done|].
    rewrite Hoth in Hpz; [discriminate|done|done].
  - apply find_none_forall, Forall_forall. intros z Hz%list_elem_of_In.
    destruct (update_row_others t x g z Hwf Hx Hz) as [->|[Hz' Hne]]; [done|]. auto.
Qed.

(** [save] of a changed instance whose password is unchanged. *)
Lemma save_same_password orig cur salt now t :
  password cur = password orig -> cur <> orig ->
  save orig cur salt now t =
    (inr (with_updated cur now), update_row (id orig) (apply_changes orig cur now) t).
Proof.
  intros Hp Hne. unfold save, changed_password. rewrite Hp, String.eqb_refl. simpl.
  by rewrite decide_False.
Qed.

(** [save] of an instance with a new, valid plaintext password: the
    [beforeUpdate] hook stores its bcrypt hash. *)
Lemma save_new_password orig cur salt now t :
  password cur <> password orig -> validate_password (password cur) = [] ->
  let cur' := with_password cur (bcrypt_hash salt (password cur)) in
  save orig cur salt now t =
    (inr (with_updated cur' now), update_row (id orig) (apply_changes orig cur' now) t).
Proof.
  intros Hp Hv. unfold save, changed_password.
  destruct (String.eqb_spec (password cur) (password orig)) as [|_]; [done|]. simpl.
  rewrite Hv. simpl. rewrite decide_False; [done|]. intros ->. done.
Qed.

Lemma save_spec orig cur salt now :
  same_key cur orig -> reset_fields_ok cur ->
  hoare (fun t => table_wf t /\ orig ∈ users t) (save orig cur salt now)
    (fun r t => table_wf t /\ forall x, r = inr x -> x ∈ users t /\ same_key x orig).
Proof.
  intros Hk Hreset t r t' [Hwf Hin] Hs. split.
  - destruct r as [ex|x].
    + revert Hs. unfold save. destruct (decide _); [congruence|].
      by destruct (decide (cur = orig)).
    + destruct Hk as (? & ? & ? & ?). eapply save_wf; eauto.
  - intros x ->. revert Hs. unfold save.
    destruct (decide _) as [|_]; [discriminate|].
    destruct (decide (cur = orig)) as [->|Hne]; [intros [= <- <-]; done|].
    intros [= <- <-].
    set (cur' := if changed_password orig cur then _ else cur).
    assert (Hk' : same_key cur' orig).
    { unfold cur'. by destruct (changed_password orig cur). }
    destruct Hk' as (Hid & Hu & He & Hc).
    rewrite <- (apply_changes_same orig cur' now) by done.
    split; [by apply update_row_in|].
    unfold same_key, apply_changes; simpl. by rewrite !pick_same.
Qed.

(** [save] keeps the invariant even when the instance was loaded before
    other requests rewrote its row, provided the controller keeps its
    key fields and changes both reset fields or neither: the UPDATE
    then writes both reset fields or leaves both as the row has them,
    and a password it writes is a bcrypt hash. *)
Lemma save_wf_stale orig cur salt now t r t' :
  table_wf t -> same_key cur orig -> reset_fields_ok cur ->
  (resetPasswordToken cur = resetPasswordToken orig <-> resetPasswordExpire cur = resetPasswordExpire orig) ->
  save orig cur salt now t = (r, t') -> table_wf t'.
Proof.
  intros Hwf (Hid & Hu & He & Hc) Hreset Hiff. unfold save.
  destruct (decide _) as [|_]; [by intros [= _ <-]|].
  destruct (decide (cur = orig)) as [_|Hne]; [by intros [= _ <-]|]. intros [= _ <-].
  set (cur' := if changed_password orig cur then _ else cur).
  assert (Hcur : username cur' = username orig /\ email cur' = email orig /\
    resetPasswordToken cur' = resetPasswordToken cur /\
    resetPasswordExpire cur' = resetPasswordExpire cur /\
    (password cur' = password orig \/ is_bcrypt_hash (password cur'))).
  { unfold cur', changed_password.
    destruct (String.eqb_spec (password cur) (password orig)) as [Hpw|Hpw]; simpl;
      split_and!; try done; [by left|right; by eexists _, _]. }
  clearbody cur'. destruct Hcur as (Hu' & He' & Ht' & Hx' & Hp').
  apply update_row_wf; [done| |].
  - intros row. unfold apply_changes; simpl. by rewrite Hu', He', !pick_unchanged.
  - intros row Hrow _. destruct Hwf as [Hrows _]. rewrite Forall_forall in Hrows.
    apply list_elem_of_In in Hrow. destruct (Hrows row Hrow) as (Hlt & Hrok & Hhash).
    unfold row_wf, apply_changes, pick; cbn.
    rewrite Ht', Hx'. split_and!; [done| |].
    + destruct (decide (resetPasswordToken cur = _)) as [Et|Et],
        (decide (resetPasswordExpire cur = _)) as [Ex|Ex].
      * exact Hrok.
      * by apply Hiff in Et.
      * by apply Hiff in Ex.
      * exact Hreset.
    + destruct (decide (password cur' = _)) as [Ep|Ep]; [done|]. by destruct Hp'.
Qed.


(** C13: [getResetPasswordToken] on the 20 bytes of
    [crypto.randomBytes(20)] returns a 40-character hex token that
    decodes back to those bytes; the row keeps only the token's SHA-256
    digest, with an expiry 600000 ms (10 minutes) ahead, and keeps its
    key fields and password; different random bytes store different
    digests. *)
Theorem getResetPasswordToken_spec `{Digest} x rand rand' now :
  List.length rand = 20 ->
  let '(tok, x') := getResetPasswordToken x rand now in
  String.length tok = 40 /\ Js.unhex tok = Some rand /\
  resetPasswordToken x' = Some (sha256_hex tok) /\
  resetPasswordExpire x' = Some (now + 600000)%N /\
  password x' = password x /\ same_key x' x /\ reset_fields_ok x' /\
  (rand' <> rand ->
   resetPasswordToken (snd (getResetPasswordToken x rand' now)) <> resetPasswordToken x').
Proof.
  intros Hl. cbn. split_and!; try done.
  - by rewrite hex_length, Hl.
  - apply unhex_hex.
  - intros Hne [= E%sha256_inj%hex_inj]. congruence.
Qed.

(** C11: [getSignedJwtToken] changes nothing; a token it returns
    carries the row's [id] and [username], and [jwt.verify] under the
    same secret gives back exactly those claims until their expiry and
    [TokenExpired] after it. *)
Theorem getSignedJwtToken_verify `{Mac} u secret ex now now' t r t' :
  getSignedJwtToken u secret ex now t = (r, t') ->
  t' = t /\ forall tok, r = inr tok ->
    exists c, Jwt.sign_claims (id u) (username u) ex now = inr c /\
      Jwt.cl_id c = id u /\ Jwt.cl_username c = username u /\
      Jwt.verify tok secret now' = (if Jwt.expired c now' then inl Jwt.TokenExpired else inr c).
Proof.
  unfold getSignedJwtToken. destruct (Jwt.sign _ _ _ _ _) as [e|tok] eqn:Hs;
    intros [= <- <-]; split; [done|done|done|].
  intros ? [= <-]. by apply Jwt.sign_verify.
Qed.

End Model.
End UserModel.
