(* ===== verification/Deployment.v ===== *)
(** * Deployment: the database configuration and the server's start-up

    Models [src/Backend/config/db.js] (the connection settings read from
    the environment with their defaults, and [testConnection]) and
    [startServer] of [src/Backend/server.js] (connection test, schema
    synchronisation, [listen] on [PORT]).  The dialect chosen here fixes
    the collation under which the database compares the strings of the
    [WHERE] clauses: the [Collation] instance of [UserModel]. *)

From S2P Require Import Prelude JsString UserModel.
From Stdlib Require Import Strings.String.
Open Scope string_scope.

Module Deployment.

(** [process.env.X || d] *)
Definition env_or (v : option string) (d : string) : string :=
  match v with
  | Some s => if String.eqb s "" then d else s
  | None => d
  end.

(** The variables of [process.env] that [db.js] reads. *)
Record DbEnv := mkDbEnv {
  DB_NAME : option string;
  DB_USER : option string;
  DB_PASSWORD : option string;
  DB_HOST : option string;
  DB_DIALECT : option string
}.

Record DbConfig := mkDbConfig {
  dbName : string;
  dbUser : string;
  dbPassword : string;
  dbHost : string;
  dbDialect : string
}.

(** The connection options of [db.js]. *)
Definition db_config (e : DbEnv) : DbConfig :=
  mkDbConfig (env_or (DB_NAME e) "auth_app") (env_or (DB_USER e) "root")
    (env_or (DB_PASSWORD e) "") (env_or (DB_HOST e) "localhost")
    (env_or (DB_DIALECT e) "mysql").

(** No database variable set. *)
Definition no_db_env : DbEnv := mkDbEnv None None None None None.

(** The collation of string equality in a [WHERE] clause: MySQL and
    MariaDB tables default to a case-insensitive collation, the other
    dialects compare bytes. *)
Definition dialect_collation (dialect : string) : Collation :=
  if String.eqb dialect "mysql" || String.eqb dialect "mariadb"
  then Collations.case_insensitive else Collations.binary.

(** How the process ends up. *)
Inductive Startup :=
| Listening (port : string)
| Exited (code : N).

(** [testConnection]: [sequelize.authenticate()], or [process.exit(1)]. *)
Definition testConnection (authenticate_ok : bool) : option Startup :=
  if authenticate_ok then None else Some (Exited 1).

(** [startServer]: the connection test, [sequelize.sync({alter: true})]
    (whose failure is caught and exits with 1), then [app.listen(PORT)]
    with [PORT = process.env.PORT || 5000]. *)
Definition startServer (PORT : option string) (authenticate_ok sync_ok : bool) : Startup :=
  match testConnection authenticate_ok with
  | Some exit => exit
  | None => if sync_ok then Listening (env_or PORT "5000") else Exited 1
  end.

End Deployment.
