(* ===== verification/AuthController.v ===== *)
(** * The authentication handlers

    Models [src/Backend/controllers/authController.js] and the mail
    helper [src/Backend/utils/emailService.js].  A handler is a
    computation in [St World Exn Response]: it reads and writes the
    [users] table, appends to the mails sent, and answers with a status
    and a JSON body; its [try]/[catch] blocks are [try_catch].  The
    request's environment [Env] supplies [Date.now()], the salt of
    [bcrypt.genSalt], the bytes of [crypto.randomBytes(20)], the outcome
    of [transporter.sendMail], and [req.protocol]/[req.get('host')]. *)

From S2P Require Import Prelude JsString Crypto Jwt UserModel.
From Stdlib Require Import Ascii Strings.String Strings.Byte.
Import ListNotations.
Open Scope string_scope.

Module AuthController.
Import UserModel.

(** ** Requests, responses, world *)

(** [req.body]: each field is a string or [undefined]. *)
Record Body := mkBody {
  b_username : option string;
  b_email : option string;
  b_password : option string;
  b_confirmPassword : option string
}.

(** [{id, username, email, createdAt, updatedAt}] returned by [getMe]. *)
Record Profile := mkProfile {
  p_id : N; p_username : string; p_email : string; p_createdAt : N; p_updatedAt : N
}.

Inductive ResBody :=
| RMessage (success : bool) (message : string)          (* {success, message} *)
| RErrors (errors : list (string * string))              (* {success:false, errors:[{field,message}]} *)
| RToken (token : string) (uid : N) (uname uemail : string) (* {success:true, token, user} *)
| RData (data : option Profile)                          (* {success:true, data} *)
| RText (text : string)                                  (* res.send(text) *)
| RTest (time : N)                                       (* GET /test *)
| REmpty                                                 (* an empty body: res.end() *)
| RMessageErr (message error : string).                  (* {success:false, message, error} *)

Record Response := mkResponse { status : N; body : ResBody }.

Record Mail := mkMail { mail_to : string; mail_subject : string; mail_html : string }.

Record World := mkWorld { table : Table; outbox : list Mail }.

(** [process.env.JWT_SECRET], [process.env.JWT_EXPIRE]. *)
Record Config := mkConfig { JWT_SECRET : option string; JWT_EXPIRE : option string }.

Record Env := mkEnv {
  now : N; salt : string; rand : list byte; mail_ok : bool;
  protocol : string; host : string
}.

#[export] Instance profile_eq_dec : EqDecision Profile.
Proof. solve_decision. Defined.
#[export] Instance resbody_eq_dec : EqDecision ResBody.
Proof. solve_decision. Defined.
#[export] Instance response_eq_dec : EqDecision Response.
Proof. solve_decision. Defined.
#[export] Instance mail_eq_dec : EqDecision Mail.
Proof. solve_decision. Defined.

(** Status and message of an answer; ["<token>"] for a token answer. *)
Definition summary (r : Exn + Response) : N * string :=
  match r with
  | inr (mkResponse st (RMessage _ m)) => (st, m)
  | inr (mkResponse st (RToken _ _ _ _)) => (st, "<token>")
  | inr (mkResponse st (RErrors _)) => (st, "<errors>")
  | inr (mkResponse st (RData _)) => (st, "<data>")
  | inr (mkResponse st (RText m)) => (st, m)
  | inr (mkResponse st (RTest _)) => (st, "<test>")
  | inr (mkResponse st REmpty) => (st, "")
  | inr (mkResponse st (RMessageErr m _)) => (st, m)
  | inl _ => (0%N, "<uncaught>")
  end.

Definition fail_msg (st : N) (m : string) : Response := mkResponse st (RMessage false m).
Definition ok_msg (st : N) (m : string) : Response := mkResponse st (RMessage true m).

(** [messages.join(', ')] *)
Fixpoint join_msgs (l : list string) : string :=
  match l with
  | [] => ""
  | [m] => m
  | m :: l' => m ++ ", " ++ join_msgs l'
  end.

Definition msg_server_error := "Error en el servidor".
Definition msg_email_taken := "El email ya está registrado".
Definition msg_username_taken := "El nombre de usuario ya está en uso".
Definition msg_login_missing := "Por favor, proporciona un nombre de usuario y contraseña".
Definition msg_bad_credentials := "Credenciales inválidas".
Definition msg_no_user := "No hay usuario con ese email".
Definition msg_email_sent := "Email enviado".
Definition msg_email_failed := "No se pudo enviar el email".
Definition msg_bad_token := "Token inválido o expirado".
Definition msg_logout := "Sesión cerrada correctamente".

Definition quote : string := String (Ascii.ascii_of_nat 34) EmptyString.
Definition nl : string := String (Ascii.ascii_of_nat 10) EmptyString.

(** The mail body of [forgotPassword] (lines 160-165). *)
Definition reset_message (resetUrl : string) : string :=
  nl ++ "      <h1>Has solicitado un reseteo de contraseña</h1>" ++ nl ++
  "      <p>Por favor, haz clic en el siguiente enlace para restablecer tu contraseña:</p>" ++ nl ++
  "      <a href=" ++ quote ++ resetUrl ++ quote ++ " target=" ++ quote ++ "_blank" ++ quote ++
  ">Restablecer Contraseña</a>" ++ nl ++
  "      <p>Si no has solicitado este cambio, puedes ignorar este mensaje.</p>" ++ nl ++ "    ".

Definition reset_subject := "Solicitud de recuperación de contraseña".

Section Handlers.
Context `{PasswordHasher} `{EmailCheck} `{Collation} `{Digest} `{Mac}.
Context (cfg : Config) (env : Env).

(** Run a table operation on the world. *)
Definition on_table {A} (m : St Table Exn A) : St World Exn A :=
  fun w => let '(r, t') := m (table w) in (r, mkWorld t' (outbox w)).

(** [sendEmail(options)]: the mail is sent or [sendMail] rejects. *)
Definition sendEmail (m : Mail) : St World Exn unit :=
  fun w => if mail_ok env then (inr tt, mkWorld (table w) (outbox w ++ [m])%list)
           else (inl MailFailure, w).

(** [sendTokenResponse(user, statusCode, res)] *)
Definition sendTokenResponse (u : User) (code : N) : St World Exn Response :=
  tok <- on_table (getSignedJwtToken u (JWT_SECRET cfg) (JWT_EXPIRE cfg) (now env)) ;;
  ret (mkResponse code (RToken tok (id u) (username u) (email u))).

(** [exports.register] *)
Definition register (b : Body) : St World Exn Response :=
  try_catch (
    e <- on_table (where_value "email" (b_email b)) ;;
    u <- on_table (where_value "username" (b_username b)) ;;
    userExists <- on_table (findOne (by_email_or_username e u)) ;;
    match userExists with
    | Some x =>
        if String.eqb (email x) e then ret (fail_msg 400 msg_email_taken)
        else ret (fail_msg 400 msg_username_taken)
    | None =>
        user <- on_table (create u e (b_password b) (salt env) (now env)) ;;
        sendTokenResponse user 201
    end)
  (fun ex => match ex with
             | SequelizeValidationError msgs => ret (fail_msg 400 (join_msgs msgs))
             | _ => ret (fail_msg 500 msg_server_error)
             end).

(** [exports.login] *)
Definition login (b : Body) : St World Exn Response :=
  try_catch (
    if Js.falsy (b_username b) || Js.falsy (b_password b)
    then ret (fail_msg 400 msg_login_missing) else
    u <- on_table (where_value "username" (b_username b)) ;;
    user <- on_table (findOne (by_username u)) ;;
    match user with
    | None => ret (fail_msg 401 msg_bad_credentials)
    | Some x =>
        if matchPassword x (default "" (b_password b)) then sendTokenResponse x 200
        else ret (fail_msg 401 msg_bad_credentials)
    end)
  (fun _ => ret (fail_msg 500 msg_server_error)).

Definition profile_of (u : User) : Profile :=
  mkProfile (id u) (username u) (email u) (createdAt u) (updatedAt u).

(** [exports.getMe], with [req.user.id] set by [protect]. *)
Definition getMe (uid : N) : St World Exn Response :=
  try_catch (
    user <- on_table (findOne (by_pk uid)) ;;
    ret (mkResponse 200 (RData (option_map profile_of user))))
  (fun _ => ret (fail_msg 500 msg_server_error)).

(** [`${req.protocol}://${req.get('host')}/reset-password/${resetToken}`] *)
Definition reset_url (resetToken : string) : string :=
  protocol env ++ "://" ++ host env ++ "/reset-password/" ++ resetToken.

(** [exports.forgotPassword] *)
Definition forgotPassword (b : Body) : St World Exn Response :=
  try_catch (
    e <- on_table (where_value "email" (b_email b)) ;;
    user <- on_table (findOne (by_email e)) ;;
    match user with
    | None => ret (fail_msg 404 msg_no_user)
    | Some x =>
        let '(resetToken, x1) := getResetPasswordToken x (rand env) (now env) in
        x2 <- on_table (save x x1 (salt env) (now env)) ;;
        let resetUrl := reset_url resetToken in
        try_catch (
          sendEmail (mkMail (email x2) reset_subject (reset_message resetUrl)) ;;
          ret (ok_msg 200 msg_email_sent))
        (fun _ =>
          on_table (save x2 (with_reset x2 None None) (salt env) (now env)) ;;
          ret (fail_msg 500 msg_email_failed))
    end)
  (fun _ => ret (fail_msg 500 msg_server_error)).

(** [exports.resetPassword] with [req.params.resettoken]. *)
Definition resetPassword (resettoken : string) (b : Body) : St World Exn Response :=
  try_catch (
    let digest := sha256_hex resettoken in
    user <- on_table (findOne (by_reset_token digest (now env))) ;;
    match user with
    | None => ret (fail_msg 400 msg_bad_token)
    | Some x =>
        match b_password b with
        | Some p =>
            x2 <- on_table (save x (with_reset (with_password x p) None None) (salt env) (now env)) ;;
            sendTokenResponse x2 200
        | None =>
            (* [user.password = undefined]: [save] refuses the null attribute *)
            throw (SequelizeValidationError [msg_not_null "password"])
        end
    end)
  (fun _ => ret (fail_msg 500 msg_server_error)).

(** [exports.logout] *)
Definition logout : St World Exn Response := ret (ok_msg 200 msg_logout).

End Handlers.

(** Every handler answers: its [try/catch] turns each exception into a
    response, so none reaches Express's error middleware. *)
Lemma handlers_no_throw `{PasswordHasher} `{Collation} `{Digest} `{Mac} `{EmailCheck} cfg env :
  (forall b, no_throw (register cfg env b)) /\ (forall b, no_throw (login cfg env b)) /\
  (forall uid, no_throw (getMe uid)) /\ (forall b, no_throw (forgotPassword env b)) /\
  (forall tok b, no_throw (resetPassword cfg env tok b)) /\ no_throw logout.
Proof.
  split_and!; intros; try apply no_throw_ret;
    apply no_throw_try; intros []; apply no_throw_ret.
Qed.

(** The answers of the API: [res.json] bodies, against [res.send] text
    and [res.end()], and the status codes the code writes. *)
Definition json_body (b : ResBody) : bool :=
  match b with
  | RText _ | REmpty => false
  | _ => true
  end.

Definition api_status (st : N) : bool := bool_decide (st ∈ [200; 201; 400; 401; 404; 500]%N).

Definition typed_answer (r : Response) : Prop :=
  api_status (status r) = true /\ json_body (body r) = true.

(** Every answer of a handler is JSON with one of the API's codes. *)
Lemma handlers_typed `{PasswordHasher} `{Collation} `{Digest} `{Mac} `{EmailCheck} cfg env :
  (forall b, returns typed_answer (register cfg env b)) /\
  (forall b, returns typed_answer (login cfg env b)) /\
  (forall uid, returns typed_answer (getMe uid)) /\
  (forall b, returns typed_answer (forgotPassword env b)) /\
  (forall tok b, returns typed_answer (resetPassword cfg env tok b)) /\
  returns typed_answer logout.
Proof.
  split_and!; intros;
    unfold register, login, getMe, forgotPassword, resetPassword, logout, sendTokenResponse;
    returns_steps; done.
Qed.

(** A call of one handler, as the router makes it. *)
Inductive Action :=
| ARegister (b : Body)
| ALogin (b : Body)
| AGetMe (uid : N)
| AForgotPassword (b : Body)
| AResetPassword (resettoken : string) (b : Body)
| ALogout.

Section Run.
Context `{PasswordHasher} `{EmailCheck} `{Collation} `{Digest} `{Mac}.

Definition run_action (cfg : Config) (env : Env) (a : Action) : St World Exn Response :=
  match a with
  | ARegister b => register cfg env b
  | ALogin b => login cfg env b
  | AGetMe uid => getMe uid
  | AForgotPassword b => forgotPassword env b
  | AResetPassword tok b => resetPassword cfg env tok b
  | ALogout => logout
  end.

(** Requests handled one after the other, each with its environment. *)
Fixpoint run_actions (cfg : Config) (reqs : list (Env * Action)) (w : World)
    : list (Exn + Response) * World :=
  match reqs with
  | [] => ([], w)
  | (env, a) :: reqs' =>
      let '(r, w1) := run_action cfg env a w in
      let '(rs, w2) := run_actions cfg reqs' w1 in
      (r :: rs, w2)
  end.

(** ** Lifting the table specifications to the world *)

Lemma on_table_spec {A} (P : Table -> Prop) (m : St Table Exn A) Q :
  hoare P m Q -> hoare (fun w => P (table w)) (on_table m) (fun r w => Q r (table w)).
Proof.
  intros Hm w r w' HP. unfold on_table.
  destruct (m (table w)) as [r1 t1] eqn:E. intros [= <- <-]. simpl. eapply Hm; eauto.
Qed.

Lemma sendEmail_spec env (P : Table -> Prop) m :
  hoare (fun w => P (table w)) (sendEmail env m) (fun _ w => P (table w)).
Proof. intros w r w' HP. unfold sendEmail. destruct (mail_ok env); intros [= <- <-]; done. Qed.

Lemma getSignedJwtToken_spec (P : Table -> Prop) u sec exp t :
  hoare P (getSignedJwtToken u sec exp t) (fun _ t => P t).
Proof.
  unfold getSignedJwtToken. destruct (Jwt.sign _ _ _ _ _);
    [apply hoare_throw|apply hoare_ret]; done.
Qed.

Lemma sendTokenResponse_spec cfg env (P : Table -> Prop) u c :
  hoare (fun w => P (table w)) (sendTokenResponse cfg env u c) (fun _ w => P (table w)).
Proof.
  eapply hoare_bind; [apply on_table_spec, getSignedJwtToken_spec| |done].
  intros tok. by apply hoare_ret.
Qed.

(** Weaken a postcondition that carries the invariant to the invariant. *)
Lemma hoare_keep {A} (m : St World Exn A) (I : World -> Prop) Q :
  hoare I m Q -> (forall r w, Q r w -> I w) -> hoare I m (fun _ w => I w).
Proof. intros Hm HQ. eapply hoare_weaken; eauto. Qed.

(** Step over [x <- on_table m ;; k] with the specification [Hm] of
    [m]; the fact [Hm] gives about the result is left as a hypothesis. *)
Ltac lift_pre :=
  let w := fresh "w" in let Hw := fresh "Hw" in
  intros w Hw; cbv beta;
  first [exact Hw | pattern (table w) in Hw; exact Hw | tauto].

Ltac hbind Hm :=
  eapply hoare_bind;
    [eapply hoare_strengthen_pre; [apply on_table_spec; apply Hm|lift_pre]
    |intros ?; cbv beta; try (apply hoare_pure; intros ?)
    |intros ? ?; simpl; tauto].

(** *** Every handler preserves an invariant of the table

    The handlers write the table only through [create] and three
    [save]s: the issue of a reset token, its cancellation when the mail
    fails, and the consumption of a found token.  A table invariant [J]
    that these four writes preserve is preserved by every handler, on
    every path. *)
Section Preservation.
Variable J : Table -> Prop.
Hypothesis Hcreate : forall u e po salt now, hoare J (create u e po salt now) (fun _ t => J t).
Hypothesis Hissue : forall x d exp salt now,
  hoare (fun t => J t /\ x ∈ users t) (save x (with_reset x (Some d) (Some exp)) salt now)
    (fun r t => J t /\ forall x2, r = inr x2 -> x2 ∈ users t).
Hypothesis Hcancel : forall x salt now,
  hoare (fun t => J t /\ x ∈ users t) (save x (with_reset x None None) salt now) (fun _ t => J t).
Hypothesis Hconsume : forall x p d n salt now,
  hoare (fun t => J t /\ x ∈ users t /\ by_reset_token d n x = true)
    (save x (with_reset (with_password x p) None None) salt now) (fun _ t => J t).

Lemma register_pres cfg env b :
  hoare (fun w => J (table w)) (register cfg env b) (fun _ w => J (table w)).
Proof.
  unfold register. eapply hoare_try with (R := fun _ w => J (table w));
    [|intros []; apply hoare_ret; done|done].
  hbind where_value_spec. hbind where_value_spec. hbind findOne_spec.
  match goal with a : option User |- _ => destruct a as [x|] end.
  - destruct (String.eqb _ _); apply hoare_ret; tauto.
  - eapply hoare_bind;
      [eapply hoare_strengthen_pre; [apply on_table_spec, Hcreate|simpl; tauto]
      |intros user; apply sendTokenResponse_spec|done].
Qed.

Lemma login_pres cfg env b :
  hoare (fun w => J (table w)) (login cfg env b) (fun _ w => J (table w)).
Proof.
  unfold login. eapply hoare_try with (R := fun _ w => J (table w));
    [|intros; apply hoare_ret; done|done].
  destruct (_ || _); [apply hoare_ret; done|].
  hbind where_value_spec. hbind findOne_spec.
  match goal with a : option User |- _ => destruct a as [x|] end; [|apply hoare_ret; tauto].
  case_if; [|apply hoare_ret; tauto].
  eapply hoare_strengthen_pre; [apply (sendTokenResponse_spec _ _ J)|simpl; tauto].
Qed.

Lemma getMe_pres uid :
  hoare (fun w => J (table w)) (getMe uid) (fun _ w => J (table w)).
Proof.
  unfold getMe. eapply hoare_try with (R := fun _ w => J (table w));
    [|intros; apply hoare_ret; done|done].
  hbind findOne_spec. apply hoare_ret. tauto.
Qed.

Lemma found_in p t x : @inr Exn _ (Some x) = inr (find_where p t) -> x ∈ users t.
Proof. intros [= Hx]. symmetry in Hx. by apply find_where_some in Hx as [? _]. Qed.

Lemma forgotPassword_pres env b :
  hoare (fun w => J (table w)) (forgotPassword env b) (fun _ w => J (table w)).
Proof.
  unfold forgotPassword. eapply hoare_try with (R := fun _ w => J (table w));
    [|intros; apply hoare_ret; done|done].
  hbind where_value_spec. hbind findOne_spec.
  match goal with a : option User |- _ => destruct a as [x|] end; [|apply hoare_ret; tauto].
  destruct (getResetPasswordToken x _ _) as [tok x1] eqn:Eg.
  assert (Hx1 : x1 = with_reset x (Some (sha256_hex (Js.hex (rand env))))
                         (Some (now env + reset_window)%N))
    by (rewrite <- getResetPasswordToken_row, Eg; done).
  subst x1.
  eapply hoare_bind;
    [eapply hoare_strengthen_pre;
       [apply on_table_spec, Hissue|intros w [Hw Hf]; split; [done|eapply found_in; eauto]]
    | |simpl; tauto].
  intros x2. cbv beta.
  eapply hoare_strengthen_pre with (P' := fun w => J (table w) /\ x2 ∈ users (table w));
    [|intros w [Hw Hx2]; split; [done|by apply Hx2]].
  eapply hoare_try with (R := fun _ w => J (table w) /\ x2 ∈ users (table w)).
  - eapply hoare_bind; [apply (sendEmail_spec env (fun t => J t /\ x2 ∈ users t))| |done].
    intros []. apply hoare_ret. tauto.
  - intros ex. eapply hoare_bind;
      [eapply hoare_strengthen_pre; [apply on_table_spec, Hcancel|lift_pre]| |].
    + intros ?. apply hoare_ret. simpl. tauto.
    + simpl. tauto.
  - tauto.
Qed.

Lemma resetPassword_pres cfg env tok b :
  hoare (fun w => J (table w)) (resetPassword cfg env tok b) (fun _ w => J (table w)).
Proof.
  unfold resetPassword. eapply hoare_try with (R := fun _ w => J (table w));
    [|intros; apply hoare_ret; done|done].
  hbind findOne_spec.
  match goal with a : option User |- _ => destruct a as [x|] end; [|apply hoare_ret; tauto].
  destruct (b_password b) as [p|]; [|apply hoare_throw; tauto].
  eapply hoare_bind;
    [eapply hoare_strengthen_pre;
       [apply on_table_spec, Hconsume
       |intros w [Hw Hf]; injection Hf as Hf; symmetry in Hf;
        apply find_where_some in Hf as [? ?]; eauto]
    | |simpl; tauto].
  intros x2. eapply hoare_strengthen_pre; [apply (sendTokenResponse_spec _ _ J)|simpl; tauto].
Qed.

Lemma run_action_pres cfg env a :
  hoare (fun w => J (table w)) (run_action cfg env a) (fun _ w => J (table w)).
Proof.
  destruct a; simpl.
  - apply register_pres.
  - apply login_pres.
  - apply getMe_pres.
  - apply forgotPassword_pres.
  - apply resetPassword_pres.
  - by apply hoare_ret.
Qed.

(** Over a sequence of requests. *)
Lemma run_actions_pres cfg reqs w :
  J (table w) -> J (table (snd (run_actions cfg reqs w))).
Proof.
  revert w. induction reqs as [|[env a] reqs IH]; intros w Hw; [done|]. simpl.
  destruct (run_action cfg env a w) as [r w1] eqn:E1.
  destruct (run_actions cfg reqs w1) as [rs w2] eqn:E2. simpl.
  change w2 with (snd (rs, w2)). rewrite <- E2. apply IH.
  eapply run_action_pres; eauto.
Qed.
End Preservation.

(** The four writes keep the table invariant. *)
Lemma table_wf_writes :
  (forall x d exp salt now,
     hoare (fun t => table_wf t /\ x ∈ users t) (save x (with_reset x (Some d) (Some exp)) salt now)
       (fun r t => table_wf t /\ forall x2, r = inr x2 -> x2 ∈ users t)) /\
  (forall x salt now,
     hoare (fun t => table_wf t /\ x ∈ users t) (save x (with_reset x None None) salt now)
       (fun _ t => table_wf t)) /\
  (forall x p d n salt now,
     hoare (fun t => table_wf t /\ x ∈ users t /\ by_reset_token d n x = true)
       (save x (with_reset (with_password x p) None None) salt now) (fun _ t => table_wf t)).
Proof.
  split_and!; intros.
  - eapply hoare_weaken; [apply save_spec; [apply with_reset_same_key|by apply with_reset_ok]|done|].
    intros r t [Ht Hr]. split; [done|]. intros x2 ->. by apply Hr.
  - eapply hoare_weaken; [apply save_spec; [apply with_reset_same_key|by apply with_reset_ok]|done|].
    by intros r t [? _].
  - eapply hoare_weaken; [apply save_spec; [by repeat split|by apply with_reset_ok]|tauto|].
    by intros r t [? _].
Qed.

Lemma run_action_hoare_aux cfg env a :
  hoare (fun w => table_wf (table w)) (run_action cfg env a) (fun _ w => table_wf (table w)).
Proof.
  destruct table_wf_writes as (Hi & Hc & Hk).
  apply run_action_pres; [apply create_spec|exact Hi|exact Hc|exact Hk].
Qed.

(** C3: Every handler preserves the table invariant: distinct ids below
    the auto-increment counter, usernames and emails unique under the
    database collation, reset digest and expiry set together, stored
    passwords bcrypt hashes; on every path, errors included. *)
Theorem run_action_wf cfg env a w r w' :
  table_wf (table w) -> run_action cfg env a w = (r, w') -> table_wf (table w').
Proof. intros Hwf Hrun. eapply run_action_hoare_aux; eauto. Qed.

End Run.

(** ** Functional behaviour of the handlers *)

Section Behaviour.
Context `{PasswordHasher} `{EmailCheck} `{Collation} `{Digest} `{Mac}.

Lemma on_table_run {A} (m : St Table Exn A) t ob :
  on_table m (mkWorld t ob) = let '(r, t') := m t in (r, mkWorld t' ob).
Proof. reflexivity. Qed.

Lemma findOne_run p t : findOne p t = (inr (find_where p t), t).
Proof. reflexivity. Qed.

Lemma sendTokenResponse_run cfg env u code t ob tok :
  Jwt.sign (id u) (username u) (JWT_SECRET cfg) (JWT_EXPIRE cfg) (now env) = inr tok ->
  sendTokenResponse cfg env u code (mkWorld t ob) =
    (inr (mkResponse code (RToken tok (id u) (username u) (email u))), mkWorld t ob).
Proof. intros Hs. unfold sendTokenResponse, getSignedJwtToken. rewrite Hs. reflexivity. Qed.

(** Registering a fresh, valid username/email/password creates the
    row with the next id and the bcrypt hash of the password, and
    answers 201 with a signed token and the public user fields. *)
Lemma register_success cfg env u e p c t ob tok :
  validate_username u = [] -> validate_email e = [] -> validate_password p = [] ->
  Forall (fun r => coll_eq (username r) u = false /\ coll_eq (email r) e = false) (users t) ->
  Jwt.sign (next_id t) u (JWT_SECRET cfg) (JWT_EXPIRE cfg) (now env) = inr tok ->
  register cfg env (mkBody (Some u) (Some e) (Some p) c) (mkWorld t ob) =
    (inr (mkResponse 201 (RToken tok (next_id t) u e)),
     mkWorld (insert_row t (mkUser (next_id t) u e (bcrypt_hash (salt env) p) None None
                              (now env) (now env))) ob).
Proof.
  intros Hu He Hp Hf Hs.
  assert (Hnone : find_where (by_email_or_username e u) t = None).
  { apply find_none_forall. eapply Forall_impl; [|exact Hf].
    intros r [Hr1 Hr2]. unfold by_email_or_username. by rewrite Hr1, Hr2. }
  unfold register, try_catch, bind. simpl. rewrite Hnone, on_table_run.
  rewrite create_ok; [|done..|by eapply Forall_impl; [|exact Hf]; intros ? []
                              |by eapply Forall_impl; [|exact Hf]; intros ? []].
  rewrite (sendTokenResponse_run _ _ _ _ _ _ tok); [done|exact Hs].
Qed.

Lemma validate_username_nonempty u : validate_username u = [] -> u <> "".
Proof. unfold validate_username. intros Hu ->. discriminate. Qed.

Lemma validate_password_nonempty p : validate_password p = [] -> p <> "".
Proof. unfold validate_password. intros Hp ->. discriminate. Qed.

Lemma falsy_some s : s <> "" -> Js.falsy (Some s) = false.
Proof. intros Hs. simpl. by destruct (String.eqb_spec s ""). Qed.

(** Login with a username that names a row (under the database
    collation) and a password bcrypt accepts for that row answers 200
    with a token for that row and leaves the world unchanged. *)
Lemma login_success cfg env u p e c t ob r tok :
  table_wf t -> r ∈ users t -> coll_eq (username r) u = true ->
  u <> "" -> p <> "" -> matchPassword r p = true ->
  Jwt.sign (id r) (username r) (JWT_SECRET cfg) (JWT_EXPIRE cfg) (now env) = inr tok ->
  login cfg env (mkBody (Some u) e (Some p) c) (mkWorld t ob) =
    (inr (mkResponse 200 (RToken tok (id r) (username r) (email r))), mkWorld t ob).
Proof.
  intros (_ & _ & Hun & _) Hr Hk Hu Hp Hm Hs.
  unfold login, try_catch, bind. cbn [b_username b_password]. rewrite !falsy_some by done. simpl.
  rewrite (find_where_key username t r u Hun Hr Hk : find_where (by_username u) t = Some r).
  simpl. rewrite Hm.
  by rewrite (sendTokenResponse_run _ _ _ _ _ _ tok).
Qed.

(** Login right after a registration: the row [register] inserts is
    found by its username and accepts the registered password. *)
Lemma login_registered cfg env u e p salt t0 e' c' t ob tok :
  table_wf t ->
  validate_username u = [] -> validate_email e = [] -> validate_password p = [] ->
  Forall (fun r => coll_eq (username r) u = false /\ coll_eq (email r) e = false) (users t) ->
  Jwt.sign (next_id t) u (JWT_SECRET cfg) (JWT_EXPIRE cfg) (now env) = inr tok ->
  let w := mkWorld (insert_row t (mkUser (next_id t) u e (bcrypt_hash salt p) None None t0 t0)) ob in
  login cfg env (mkBody (Some u) e' (Some p) c') w =
    (inr (mkResponse 200 (RToken tok (next_id t) u e)), w).
Proof.
  intros Hwf Hu He Hp Hf Hs w.
  set (row := mkUser (next_id t) u e (bcrypt_hash salt p) None None t0 t0).
  assert (Hwf1 : table_wf (insert_row t row)).
  { eapply create_wf; [exact Hwf|apply (create_ok u e p salt t0 t); try done].
    - by eapply Forall_impl; [|exact Hf]; intros ? [].
    - by eapply Forall_impl; [|exact Hf]; intros ? []. }
  apply (login_success cfg env u p e' c' (insert_row t row) ob row tok); try done.
  - simpl. apply elem_of_app. right. by apply list_elem_of_singleton.
  - apply coll_refl.
  - by apply validate_username_nonempty.
  - by apply validate_password_nonempty.
  - apply bcrypt_compare_hash.
Qed.

(** C1: For a valid, fresh username/email/password, [register] answers
    201 and a following [login] with the same username and password
    answers 200, both for the new row's id, username and email; each
    token is the one [jwt.sign] issues for that id and username at the
    request's time. *)
Theorem register_then_login cfg env1 env2 u e p c t ob :
  table_wf t ->
  validate_username u = [] -> validate_email e = [] -> validate_password p = [] ->
  Forall (fun r => coll_eq (username r) u = false /\ coll_eq (email r) e = false) (users t) ->
  Jwt.usable_secret (JWT_SECRET cfg) <> None -> Jwt.expires_ok (JWT_EXPIRE cfg) = true ->
  exists tok1 tok2 w1,
    Jwt.sign (next_id t) u (JWT_SECRET cfg) (JWT_EXPIRE cfg) (now env1) = inr tok1 /\
    Jwt.sign (next_id t) u (JWT_SECRET cfg) (JWT_EXPIRE cfg) (now env2) = inr tok2 /\
    register cfg env1 (mkBody (Some u) (Some e) (Some p) c) (mkWorld t ob) =
      (inr (mkResponse 201 (RToken tok1 (next_id t) u e)), w1) /\
    login cfg env2 (mkBody (Some u) None (Some p) None) w1 =
      (inr (mkResponse 200 (RToken tok2 (next_id t) u e)), w1).
Proof.
  intros Hwf Hu He Hp Hf Hk Hx.
  destruct (Jwt.sign_succeeds (next_id t) u _ _ (now env1) Hk Hx) as [tok1 Hs1].
  destruct (Jwt.sign_succeeds (next_id t) u _ _ (now env2) Hk Hx) as [tok2 Hs2].
  eexists tok1, tok2, _. split_and!; try done.
  - by apply register_success.
  - by apply login_registered.
Qed.

Definition reset_digest (env : Env) : string := sha256_hex (Js.hex (rand env)).

(** The row after [getResetPasswordToken] and [save] in [forgotPassword]. *)
Definition issued_row (env : Env) (x : User) : User :=
  with_reset x (Some (reset_digest env)) (Some (now env + reset_window)%N).

Lemma digest_unused_not_row d t x :
  digest_unused d t -> x ∈ users t -> resetPasswordToken x <> Some d.
Proof. intros Hd Hx Hx'. specialize (Hd x d Hx Hx'). by rewrite coll_refl in Hd. Qed.

Lemma forgot_ok env u e p c t ob x :
  find_where (by_email e) t = Some x -> mail_ok env = true ->
  resetPasswordToken x <> Some (reset_digest env) ->
  forgotPassword env (mkBody u (Some e) p c) (mkWorld t ob) =
    (inr (ok_msg 200 msg_email_sent),
     mkWorld (update_row (id x) (apply_changes x (issued_row env x) (now env)) t)
       (ob ++ [mkMail (email x) reset_subject (reset_message (reset_url env (Js.hex (rand env))))])%list).
Proof.
  intros Hf Hm Hx. unfold forgotPassword, try_catch, bind. simpl. rewrite Hf. simpl.
  rewrite on_table_run, save_same_password; [|done|].
  - simpl. unfold sendEmail. by rewrite Hm.
  - intros E. apply Hx. apply (f_equal resetPasswordToken) in E. by rewrite <- E.
Qed.

(** The row after [resetPassword] sets a new password [p]: reset
    fields cleared, password replaced by its bcrypt hash. *)
Definition reset_row (env : Env) (x : User) (p : string) : User :=
  with_password (with_reset (with_password x p) None None) (bcrypt_hash (salt env) p).

Lemma reset_fail cfg env tok b t ob :
  find_where (by_reset_token (sha256_hex tok) (now env)) t = None ->
  resetPassword cfg env tok b (mkWorld t ob) = (inr (fail_msg 400 msg_bad_token), mkWorld t ob).
Proof. intros Hf. unfold resetPassword, try_catch, bind. simpl. by rewrite Hf. Qed.

Lemma reset_ok cfg env tok u e p c t ob x jwt :
  find_where (by_reset_token (sha256_hex tok) (now env)) t = Some x ->
  p <> password x -> validate_password p = [] ->
  Jwt.sign (id x) (username x) (JWT_SECRET cfg) (JWT_EXPIRE cfg) (now env) = inr jwt ->
  resetPassword cfg env tok (mkBody u e (Some p) c) (mkWorld t ob) =
    (inr (mkResponse 200 (RToken jwt (id x) (username x) (email x))),
     mkWorld (update_row (id x) (apply_changes x (reset_row env x p) (now env)) t) ob).
Proof.
  intros Hf Hp Hv Hs. unfold resetPassword, try_catch, bind. simpl. rewrite Hf. simpl.
  rewrite on_table_run, save_new_password by done. simpl.
  by rewrite (sendTokenResponse_run _ _ _ _ _ _ jwt).
Qed.

(** C5: [resetPassword] refuses a token, with 400 and without touching
    the table, when every row holding its digest has an expiry at or
    before [Date.now()]; in particular a token no row holds (a wrong
    guess) and an expired one.  A later attempt with a valid token is
    therefore unaffected by failed ones. *)
Theorem reset_refused_unchanged cfg env tok b t ob :
  (forall r d, r ∈ users t -> resetPasswordToken r = Some d -> coll_eq d (sha256_hex tok) = true ->
     exists exp, resetPasswordExpire r = Some exp /\ (exp <= now env)%N) ->
  resetPassword cfg env tok b (mkWorld t ob) = (inr (fail_msg 400 msg_bad_token), mkWorld t ob).
Proof.
  intros Hexp. apply reset_fail, find_none_forall, Forall_forall.
  intros r Hr%list_elem_of_In. unfold by_reset_token.
  destruct (resetPasswordToken r) as [d|] eqn:Ed; [|done].
  destruct (resetPasswordExpire r) as [exp|] eqn:Ee; [|done].
  destruct (coll_eq d _) eqn:Ec; [|done]. simpl.
  destruct (Hexp r d Hr Ed Ec) as (exp' & Ee' & Hle). rewrite Ee in Ee'. injection Ee' as <-.
  apply N.ltb_ge. lia.
Qed.

Lemma issued_row_key env x : same_key (issued_row env x) x.
Proof. apply with_reset_same_key. Qed.

Lemma reset_row_key env x p : same_key (reset_row env x p) x.
Proof. by repeat split. Qed.

(** C2: The reset-token lifecycle.  [forgotPassword] for a registered
    email mails a link carrying a fresh token and answers 200;
    [resetPassword] with that token before the ten-minute window ends
    sets the new password and answers 200 with a session token for
    the same user; the same token is then refused with 400 (single
    use), leaving the world unchanged.  The user's row then holds the
    bcrypt hash of the new password, against which [matchPassword]
    accepts it, and no pending reset. *)
Theorem forgot_reset_single_use cfg env1 env2 env3 e p b3 t ob x :
  table_wf t -> find_where (by_email e) t = Some x ->
  digest_unused (reset_digest env1) t -> mail_ok env1 = true ->
  (now env2 < now env1 + reset_window)%N ->
  validate_password p = [] -> p <> password x ->
  Jwt.usable_secret (JWT_SECRET cfg) <> None -> Jwt.expires_ok (JWT_EXPIRE cfg) = true ->
  exists w1 w2 jwt,
    forgotPassword env1 (mkBody None (Some e) None None) (mkWorld t ob) =
      (inr (ok_msg 200 msg_email_sent), w1) /\
    outbox w1 = (ob ++ [mkMail (email x) reset_subject
                           (reset_message (reset_url env1 (Js.hex (rand env1))))])%list /\
    resetPassword cfg env2 (Js.hex (rand env1)) (mkBody None None (Some p) (Some p)) w1 =
      (inr (mkResponse 200 (RToken jwt (id x) (username x) (email x))), w2) /\
    resetPassword cfg env3 (Js.hex (rand env1)) b3 w2 = (inr (fail_msg 400 msg_bad_token), w2) /\
    exists r, r ∈ users (table w2) /\ id r = id x /\ password r = bcrypt_hash (salt env2) p /\
      matchPassword r p = true /\ resetPasswordToken r = None /\ resetPasswordExpire r = None.
Proof.
  intros Hwf Hf Hd Hm Hnow Hv Hp Hk Hx. unfold reset_digest in Hd.
  assert (Hxin : x ∈ users t) by (by apply find_where_some in Hf as [? _]).
  set (x1 := issued_row env1 x).
  set (t1 := update_row (id x) (apply_changes x x1 (now env1)) t).
  set (x2 := with_updated x1 (now env1)).
  assert (Hsave : save x x1 (salt env1) (now env1) t = (inr x2, t1)).
  { apply save_same_password; [done|]. intros E.
    apply (digest_unused_not_row _ t x Hd Hxin). by rewrite <- E. }
  assert (Hwf1 : table_wf t1).
  { eapply save_wf; [exact Hwf|exact Hxin|..|exact Hsave]; try done; by apply with_reset_ok. }
  assert (Hx2 : apply_changes x x1 (now env1) x = x2) by (by apply apply_changes_same).
  assert (Hx2in : x2 ∈ users t1) by (rewrite <- Hx2; by apply update_row_in).
  assert (Hfind1 : find_where (by_reset_token (sha256_hex (Js.hex (rand env1))) (now env2)) t1 = Some x2).
  { unfold t1. rewrite find_where_update; [|done|done|].
    2: { intros r Hr Hne. unfold by_reset_token.
         destruct (resetPasswordToken r) as [d|] eqn:Ed; [|done].
         destruct (resetPasswordExpire r); [|done]. by rewrite (Hd r d Hr Ed). }
    rewrite Hx2. unfold by_reset_token; simpl. rewrite coll_refl. simpl.
    by rewrite (proj2 (N.ltb_lt _ _) Hnow). }
  destruct (Jwt.sign_succeeds (id x) (username x) _ _ (now env2) Hk Hx) as [jwt Hs].
  set (t2 := update_row (id x2) (apply_changes x2 (reset_row env2 x2 p) (now env2)) t1).
  exists (mkWorld t1 (ob ++ [mkMail (email x) reset_subject
                                (reset_message (reset_url env1 (Js.hex (rand env1))))])%list),
         (mkWorld t2 (ob ++ [mkMail (email x) reset_subject
                                (reset_message (reset_url env1 (Js.hex (rand env1))))])%list), jwt.
  split_and!.
  - apply forgot_ok; [done|done|]. by apply (digest_unused_not_row _ t).
  - done.
  - apply (reset_ok cfg env2 _ None None p (Some p) t1 _ x2 jwt); done.
  - apply reset_fail. unfold t2.
    rewrite find_where_update; [|done|done|].
    + unfold by_reset_token. by rewrite apply_changes_same.
    + intros r Hr Hne. destruct (update_row_others t x _ r Hwf Hxin Hr) as [E|[Hr' Hne']].
      * exfalso. apply Hne. rewrite E. exact Hx2.
      * unfold by_reset_token. destruct (resetPasswordToken r) as [d|] eqn:Ed; [|done].
        destruct (resetPasswordExpire r); [|done]. by rewrite (Hd r d Hr' Ed).
  - exists (apply_changes x2 (reset_row env2 x2 p) (now env2) x2). split.
    { by apply update_row_in. }
    rewrite apply_changes_same by reflexivity. split_and!; try reflexivity.
    unfold matchPassword. cbn. by apply bcrypt_compare_spec.
Qed.

Lemma find_exists (f : User -> bool) l x : x ∈ l -> f x = true -> exists y, find f l = Some y.
Proof.
  intros Hx Hfx. destruct (find f l) as [y|] eqn:E; [eauto|].
  apply find_none_forall in E. rewrite Forall_forall in E.
  rewrite (E x) in Hfx; [discriminate|by apply list_elem_of_In].
Qed.

(** C8: [login] gives no signal that distinguishes an unknown username
    from a wrong password: both answer 401 "Credenciales inválidas"
    and leave the world unchanged. *)
Theorem login_failure_uniform cfg env u p e c t ob :
  u <> "" -> p <> "" ->
  (find_where (by_username u) t = None \/
   exists r, find_where (by_username u) t = Some r /\ matchPassword r p = false) ->
  login cfg env (mkBody (Some u) e (Some p) c) (mkWorld t ob) =
    (inr (fail_msg 401 msg_bad_credentials), mkWorld t ob).
Proof.
  intros Hu Hp Hcase. unfold login, try_catch, bind. cbn [b_username b_password].
  rewrite !falsy_some by done. simpl.
  destruct Hcase as [-> | (r & -> & Hm)]; [done|]. simpl. by rewrite Hm.
Qed.

(** C14: [register] with a username already present (under the
    collation) and an email no row has answers 400 "El nombre de
    usuario ya está en uso" and creates nothing. *)
Theorem register_username_taken cfg env u e p c t ob x :
  x ∈ users t -> coll_eq (username x) u = true ->
  Forall (fun r => coll_eq (email r) e = false) (users t) ->
  register cfg env (mkBody (Some u) (Some e) p c) (mkWorld t ob) =
    (inr (fail_msg 400 msg_username_taken), mkWorld t ob).
Proof.
  intros Hx Hxu Hfe.
  destruct (find_exists (by_email_or_username e u) (users t) x) as [y Hy];
    [done|unfold by_email_or_username; by rewrite Hxu, orb_true_r|].
  assert (Hye : coll_eq (email y) e = false).
  { apply find_some_in in Hy as [Hyin _]. rewrite Forall_forall in Hfe.
    by apply Hfe, list_elem_of_In. }
  unfold register, try_catch, bind. simpl. unfold find_where. rewrite Hy. simpl.
  destruct (String.eqb_spec (email y) e) as [E|]; [|done].
  rewrite E, coll_refl in Hye. discriminate.
Qed.

(** C15: [register] with an email already registered and a username no
    row has answers 400 "El email ya está registrado" and creates
    nothing. *)
Theorem register_email_taken cfg env u e p c t ob x :
  table_wf t -> x ∈ users t -> email x = e ->
  Forall (fun r => coll_eq (username r) u = false) (users t) ->
  register cfg env (mkBody (Some u) (Some e) p c) (mkWorld t ob) =
    (inr (fail_msg 400 msg_email_taken), mkWorld t ob).
Proof.
  intros (_ & _ & _ & Hem) Hx Hxe Hfu.
  destruct (find_exists (by_email_or_username e u) (users t) x) as [y Hy];
    [done|unfold by_email_or_username; by rewrite Hxe, coll_refl|].
  apply find_some_in in Hy as Hy'. destruct Hy' as [Hyin Hmatch].
  assert (Hyu : coll_eq (username y) u = false)
    by (rewrite Forall_forall in Hfu; by apply Hfu, list_elem_of_In).
  unfold by_email_or_username in Hmatch. rewrite Hyu, orb_false_r in Hmatch.
  assert (y = x) as ->.
  { eapply unique_on_elem; [exact Hem|done|done|]. by rewrite Hxe. }
  unfold register, try_catch, bind. simpl. unfold find_where. rewrite Hy. simpl.
  by rewrite Hxe, String.eqb_refl.
Qed.

(** C22: [register] blames the wrong field when the database collation
    is coarser than JavaScript's [===] (MySQL, the default dialect of
    [db.js], compares without case): with an email that a registered
    row holds only up to the collation (say, in other letter case) and
    a username no row holds, the lookup finds that row, the exact
    comparison [userExists.email === email] fails, and the answer is
    400 "El nombre de usuario ya está en uso"; nothing is written. *)
Theorem register_case_insensitive_misreport cfg env u e p c t ob x :
  table_wf t -> x ∈ users t -> coll_eq (email x) e = true -> email x <> e ->
  Forall (fun r => coll_eq (username r) u = false) (users t) ->
  register cfg env (mkBody (Some u) (Some e) p c) (mkWorld t ob) =
    (inr (fail_msg 400 msg_username_taken), mkWorld t ob).
Proof.
  intros (_ & _ & _ & Hem) Hx Hxe Hne Hfu.
  destruct (find_exists (by_email_or_username e u) (users t) x) as [y Hy];
    [done|unfold by_email_or_username; by rewrite Hxe|].
  apply find_some_in in Hy as Hy'. destruct Hy' as [Hyin Hmatch].
  assert (Hyu : coll_eq (username y) u = false)
    by (rewrite Forall_forall in Hfu; by apply Hfu, list_elem_of_In).
  unfold by_email_or_username in Hmatch. rewrite Hyu, orb_false_r in Hmatch.
  assert (y = x) as ->.
  { eapply unique_on_elem; [exact Hem|done|done|]. eapply coll_trans; [exact Hmatch|].
    by rewrite coll_sym. }
  unfold register, try_catch, bind. simpl. unfold find_where. rewrite Hy. simpl.
  by rewrite (proj2 (String.eqb_neq _ _) Hne).
Qed.


(** C20: When the reset mail cannot be sent, [forgotPassword] answers
    500 "No se pudo enviar el email", sends nothing, and leaves the
    user's row with no reset digest and no expiry (fail closed): the
    token that was never delivered matches no row at any time. *)
Theorem forgot_delivery_failure env u e p c t ob x :
  table_wf t -> find_where (by_email e) t = Some x -> mail_ok env = false ->
  digest_unused (reset_digest env) t ->
  exists t',
    forgotPassword env (mkBody u (Some e) p c) (mkWorld t ob) =
      (inr (fail_msg 500 msg_email_failed), mkWorld t' ob) /\
    table_wf t' /\
    (forall now', find_where (by_reset_token (reset_digest env) now') t' = None) /\
    exists y, y ∈ users t' /\ same_key y x /\
      resetPasswordToken y = None /\ resetPasswordExpire y = None.
Proof.
  intros Hwf Hf Hm Hd. unfold reset_digest in *.
  assert (Hxin : x ∈ users t) by (by apply find_where_some in Hf as [? _]).
  set (x1 := issued_row env x).
  set (t1 := update_row (id x) (apply_changes x x1 (now env)) t).
  set (x2 := with_updated x1 (now env)).
  assert (Hsave : save x x1 (salt env) (now env) t = (inr x2, t1)).
  { apply save_same_password; [done|]. intros E.
    apply (digest_unused_not_row _ t x Hd Hxin). by rewrite <- E. }
  assert (Hwf1 : table_wf t1).
  { eapply save_wf; [exact Hwf|exact Hxin|..|exact Hsave]; try done; by apply with_reset_ok. }
  assert (Hx2in : x2 ∈ users t1).
  { unfold x2. rewrite <- (apply_changes_same x x1) by done. by apply update_row_in. }
  set (y := with_reset x2 None None).
  set (t2 := update_row (id x2) (apply_changes x2 y (now env)) t1).
  assert (Hsave2 : save x2 y (salt env) (now env) t1 = (inr (with_updated y (now env)), t2))
    by (apply save_same_password; [done|discriminate]).
  exists t2. split_and!.
  - unfold forgotPassword, try_catch, bind. simpl. rewrite Hf. simpl.
    rewrite on_table_run. change (with_reset x _ _) with x1. rewrite Hsave. simpl.
    unfold sendEmail. rewrite Hm. simpl. rewrite on_table_run. fold y. by rewrite Hsave2.
  - eapply save_wf; [exact Hwf1|exact Hx2in|..|exact Hsave2]; try done; by apply with_reset_ok.
  - intros now'. unfold t2. rewrite find_where_update; [|done|done|].
    + unfold by_reset_token. by rewrite apply_changes_same.
    + intros r Hr Hne. destruct (update_row_others t x _ r Hwf Hxin Hr) as [E|[Hr' Hne']].
      * exfalso. apply Hne. rewrite E. by apply apply_changes_same.
      * unfold by_reset_token. destruct (resetPasswordToken r) as [d|] eqn:Ed; [|done].
        destruct (resetPasswordExpire r); [|done]. by rewrite (Hd r d Hr' Ed).
  - exists (with_updated y (now env)). split_and!; try done.
    rewrite <- (apply_changes_same x2 y) by done. by apply update_row_in.
Qed.

(** C23: [resetPassword] with a valid token but a new password outside
    the model's 6..100 characters answers 500 "Error en el servidor"
    (the validation error of [save] falls in the generic [catch]) and
    changes nothing: the token stays usable. *)
Theorem reset_invalid_password_500 cfg env tok u e p c t ob x :
  find_where (by_reset_token (sha256_hex tok) (now env)) t = Some x ->
  p <> password x -> validate_password p <> [] ->
  resetPassword cfg env tok (mkBody u e (Some p) c) (mkWorld t ob) =
    (inr (fail_msg 500 msg_server_error), mkWorld t ob).
Proof.
  intros Hf Hp Hv. unfold resetPassword, try_catch, bind. simpl. rewrite Hf. simpl.
  unfold save, changed_password. simpl.
  destruct (String.eqb_spec p (password x)) as [|_]; [done|]. simpl.
  by destruct (decide (validate_password p <> [])).
Qed.

(** bcrypt reads only the first 72 bytes of a password: once a
    row's password is the hash of [p], [login] succeeds with any [q]
    that agrees with [p] on its first 72 bytes. *)
Theorem login_bcrypt_truncation cfg env u q e c t ob r s p tok :
  table_wf t -> r ∈ users t -> coll_eq (username r) u = true -> u <> "" -> q <> "" ->
  password r = bcrypt_hash s p -> bcrypt_trunc q = bcrypt_trunc p ->
  Jwt.sign (id r) (username r) (JWT_SECRET cfg) (JWT_EXPIRE cfg) (now env) = inr tok ->
  login cfg env (mkBody (Some u) e (Some q) c) (mkWorld t ob) =
    (inr (mkResponse 200 (RToken tok (id r) (username r) (email r))), mkWorld t ob).
Proof.
  intros Hwf Hr Hk Hu Hq Hpw Htr Hs. apply login_success; try done.
  unfold matchPassword. rewrite Hpw. by apply bcrypt_compare_spec.
Qed.

(** C24: [register] is not atomic: when [jwt.sign] fails after
    [User.create] (an unset or empty [JWT_SECRET], an unset or
    unreadable [JWT_EXPIRE]), the answer is 500 "Error en el servidor"
    but the new row stays in the table. *)
Theorem register_token_failure_keeps_row cfg env u e p c t ob :
  validate_username u = [] -> validate_email e = [] -> validate_password p = [] ->
  Forall (fun r => coll_eq (username r) u = false /\ coll_eq (email r) e = false) (users t) ->
  (exists err, Jwt.sign (next_id t) u (JWT_SECRET cfg) (JWT_EXPIRE cfg) (now env) = inl err) ->
  register cfg env (mkBody (Some u) (Some e) (Some p) c) (mkWorld t ob) =
    (inr (fail_msg 500 msg_server_error),
     mkWorld (insert_row t (mkUser (next_id t) u e (bcrypt_hash (salt env) p) None None
                              (now env) (now env))) ob).
Proof.
  intros Hu He Hp Hf [err Hk].
  assert (Hnone : find_where (by_email_or_username e u) t = None).
  { apply find_none_forall. eapply Forall_impl; [|exact Hf].
    intros r [Hr1 Hr2]. unfold by_email_or_username. by rewrite Hr1, Hr2. }
  unfold register, try_catch, bind. simpl. rewrite Hnone, on_table_run.
  rewrite create_ok; [|done..|by eapply Forall_impl; [|exact Hf]; intros ? []
                              |by eapply Forall_impl; [|exact Hf]; intros ? []].
  unfold sendTokenResponse, getSignedJwtToken. simpl. by rewrite Hk.
Qed.

End Behaviour.
End AuthController.
