(* ===== verification/Validators.v ===== *)
(** * Request-body validators

    Models [src/Backend/middleware/validators.js]: each validator builds
    the list of [{field, message}] errors in the order of the code's
    checks; the router answers 400 with the list when it is not empty and
    calls the handler otherwise.  [validator.isEmail] is the [EmailCheck]
    interface. *)

From S2P Require Import Prelude JsString Crypto Jwt UserModel AuthController.
From Stdlib Require Import Ascii Strings.String.
Import ListNotations.
Open Scope string_scope.

Module Validators.
Import UserModel AuthController.

Definition FieldError : Type := string * string.

(** [!x || x.trim() === ''] *)
Definition blank (o : option string) : bool :=
  match o with
  | None => true
  | Some s => String.eqb s "" || String.eqb (Js.trim s) ""
  end.

(** [x.length < n] for a present string. *)
Definition shorter (o : option string) (n : nat) : bool :=
  match o with
  | Some s => (String.length s <? n)%nat
  | None => false
  end.

(** [a !== b] on two fields that are strings or [undefined]. *)
Definition js_neq (a b : option string) : bool :=
  match a, b with
  | Some x, Some y => negb (String.eqb x y)
  | None, None => false
  | _, _ => true
  end.

Section WithEmail.
Context `{EmailCheck}.

Definition check_username (u : option string) : list FieldError :=
  if blank u then [("username", "El nombre de usuario es obligatorio")]
  else if shorter u 3 then [("username", "El nombre de usuario debe tener al menos 3 caracteres")]
  else [].

Definition check_email (e : option string) : list FieldError :=
  if blank e then [("email", "El email es obligatorio")]
  else if negb (isEmail (default "" e)) then [("email", "El email no es válido")]
  else [].

Definition check_password (p : option string) : list FieldError :=
  if Js.falsy p then [("password", "La contraseña es obligatoria")]
  else if shorter p 6 then [("password", "La contraseña debe tener al menos 6 caracteres")]
  else [].

Definition check_confirm (p c : option string) : list FieldError :=
  if js_neq p c then [("confirmPassword", "Las contraseñas no coinciden")] else [].

(** [validateRegister] *)
Definition validateRegister (b : Body) : list FieldError :=
  check_username (b_username b) ++ check_email (b_email b) ++
  check_password (b_password b) ++ check_confirm (b_password b) (b_confirmPassword b).

(** [validateLogin] *)
Definition validateLogin (b : Body) : list FieldError :=
  (if blank (b_username b) then [("username", "El nombre de usuario es obligatorio")] else []) ++
  (if Js.falsy (b_password b) then [("password", "La contraseña es obligatoria")] else []).

(** [validateForgotPassword] *)
Definition validateForgotPassword (b : Body) : list FieldError := check_email (b_email b).

(** [validateResetPassword] *)
Definition validateResetPassword (b : Body) : list FieldError :=
  check_password (b_password b) ++ check_confirm (b_password b) (b_confirmPassword b).

(** The router's use of a validator: answer 400 with the errors, or
    call [next()]. *)
Definition guard (errs : list FieldError) (next : St World Exn Response) : St World Exn Response :=
  match errs with
  | [] => next
  | _ => ret (mkResponse 400 (RErrors errs))
  end.

(** ** Properties *)

(** The route validator accepts a registration body whose fields pass
    the model's validators, are not blank, and whose confirmation equals
    the password. *)
Lemma validateRegister_accepts u e p :
  validate_username u = [] -> Js.trim u <> "" ->
  validate_email e = [] -> Js.trim e <> "" -> validate_password p = [] ->
  validateRegister (mkBody (Some u) (Some e) (Some p) (Some p)) = [].
Proof.
  unfold validate_username, validate_email, validate_password, len_ok.
  intros Hu Htu He Hte Hp.
  destruct ((3 <=? String.length u)%nat) eqn:Hu3; [|done].
  destruct ((6 <=? String.length p)%nat) eqn:Hp6; [|done].
  destruct (isEmail e) eqn:Hie; [|done].
  apply Nat.leb_le in Hu3, Hp6.
  unfold validateRegister, check_username, check_email, check_password, check_confirm; cbn.
  destruct (String.eqb_spec u "") as [->|_]; [cbn in Hu3; lia|].
  destruct (String.eqb_spec (Js.trim u) "") as [|_]; [done|].
  destruct (String.eqb_spec e "") as [->|_]; [done|].
  destruct (String.eqb_spec (Js.trim e) "") as [|_]; [done|].
  destruct (String.eqb_spec p "") as [->|_]; [cbn in Hp6; lia|].
  destruct (Nat.leb_spec (String.length u) 2); [lia|].
  destruct (Nat.leb_spec (String.length p) 5); [lia|].
  by rewrite Hie, String.eqb_refl.
Qed.

Lemma app_eq_nil_4 {A} (l1 l2 l3 l4 : list A) :
  (l1 ++ l2 ++ l3 ++ l4)%list = [] -> l1 = [] /\ l2 = [] /\ l3 = [] /\ l4 = [].
Proof. intros Happ. by repeat match goal with Hl : (_ ++ _)%list = [] |- _ => apply app_eq_nil in Hl as [? ?] end. Qed.

(** A field that is present and not blank. *)
Lemma blank_false o : blank o = false <-> exists s, o = Some s /\ Js.trim s <> "".
Proof.
  destruct o as [s|]; simpl; [|split; [discriminate|by intros (? & ? & _)]].
  split.
  - intros [Hs Ht]%orb_false_iff. exists s. split; [done|]. by apply String.eqb_neq.
  - intros (s' & [= <-] & Ht). apply orb_false_iff. split; [|by apply String.eqb_neq].
    apply String.eqb_neq. intros ->. by apply Ht.
Qed.

Lemma check_username_nil u :
  check_username u = [] <-> exists s, u = Some s /\ Js.trim s <> "" /\ (3 <= String.length s)%nat.
Proof.
  unfold check_username. destruct (blank u) eqn:Hb.
  - split; [discriminate|]. intros (s & Hs & Ht & _).
    assert (blank u = false) by (apply blank_false; eauto). congruence.
  - apply blank_false in Hb as (s & -> & Ht). cbn [shorter].
    destruct (Nat.ltb_spec (String.length s) 3).
    + split; [discriminate|]. intros (? & [= <-] & _ & ?). lia.
    + split; [eauto|done].
Qed.

Lemma check_email_nil e :
  check_email e = [] <-> exists s, e = Some s /\ Js.trim s <> "" /\ isEmail s = true.
Proof.
  unfold check_email. destruct (blank e) eqn:Hb.
  - split; [discriminate|]. intros (s & Hs & Ht & _).
    assert (blank e = false) by (apply blank_false; eauto). congruence.
  - apply blank_false in Hb as (s & -> & Ht). cbn [default Datatypes.id].
    destruct (isEmail s) eqn:Hi.
    + split; [eauto|done].
    + split; [discriminate|]. intros (? & [= <-] & _ & ?). congruence.
Qed.

Lemma check_password_nil p :
  check_password p = [] <-> exists s, p = Some s /\ (6 <= String.length s)%nat.
Proof.
  unfold check_password. destruct p as [s|]; cbn [Js.falsy shorter].
  - destruct (String.eqb_spec s "") as [->|Hs].
    + split; [discriminate|]. intros (? & [= <-] & H6). cbn in H6. lia.
    + destruct (Nat.ltb_spec (String.length s) 6).
      * split; [discriminate|]. intros (? & [= <-] & ?). lia.
      * split; [eauto|done].
  - split; [discriminate|]. by intros (? & ? & _).
Qed.

Lemma check_confirm_nil p c : check_confirm p c = [] <-> p = c.
Proof.
  unfold check_confirm, js_neq.
  destruct p as [x|], c as [y|]; cbn; try (split; congruence).
  destruct (String.eqb_spec x y); cbn; split; congruence.
Qed.

(** C29: Equivalence of [validateRegister] with its declarative
    specification: it lets a body through exactly when the username is
    present, not blank and at least 3 characters long, the email is
    present, not blank and passes [isEmail], the password is present with
    at least 6 characters, and [confirmPassword] is the same string. *)
Theorem validateRegister_spec b :
  validateRegister b = [] <->
  exists u e p, b = mkBody (Some u) (Some e) (Some p) (Some p) /\
    Js.trim u <> "" /\ (3 <= String.length u)%nat /\
    Js.trim e <> "" /\ isEmail e = true /\ (6 <= String.length p)%nat.
Proof.
  destruct b as [bu be bp bc]. unfold validateRegister; cbn [b_username b_email b_password b_confirmPassword].
  split.
  - intros (Hu & He & Hp & Hc)%app_eq_nil_4.
    apply check_username_nil in Hu as (u & -> & ? & ?).
    apply check_email_nil in He as (e & -> & ? & ?).
    apply check_password_nil in Hp as (p & -> & ?).
    apply check_confirm_nil in Hc as <-. exists u, e, p. auto 10.
  - intros (u & e & p & [= -> -> -> ->] & ? & ? & ? & ? & ?).
    rewrite (proj2 (check_username_nil _)), (proj2 (check_email_nil _)),
      (proj2 (check_password_nil _)), (proj2 (check_confirm_nil _ _)); eauto.
Qed.

(** Equivalence of [validateResetPassword] with its declarative
    specification: it lets a body through exactly when the password is
    present with at least 6 characters and [confirmPassword] is the same
    string.  A body [{password}] alone never passes. *)
Theorem validateResetPassword_spec b :
  validateResetPassword b = [] <->
  exists p, b_password b = Some p /\ b_confirmPassword b = Some p /\ (6 <= String.length p)%nat.
Proof.
  unfold validateResetPassword. split.
  - intros (Hp & Hc)%app_eq_nil.
    apply check_password_nil in Hp as (p & Hp & ?). apply check_confirm_nil in Hc.
    exists p. rewrite <- Hc. auto.
  - intros (p & Hp & Hc & ?).
    rewrite (proj2 (check_password_nil _)), (proj2 (check_confirm_nil _ _)); [done|congruence|eauto].
Qed.

End WithEmail.
End Validators.
