(* ===== verification/AccountSpec.v ===== *)
(** * The account service as an abstract machine, and its refinement

    What the backend promises about accounts, independent of Sequelize,
    HTTP and tokens: a list of accounts in key order, each with its key
    fields, its password hash and possibly a pending reset (a digest and
    an expiry).  Four labelled steps change it: opening an account,
    issuing a reset, cancelling it, and consuming a pending, unexpired
    reset to set a new password.  [abs] reads the table as such a state;
    the refinement theorem shows that every handler's run is a sequence
    of these steps, with labels the request allows, and the properties of
    the machine (accounts are never removed nor re-keyed; a password
    changes only by consuming a pending reset) carry over to the code. *)

From S2P Require Import Prelude JsString Crypto Jwt UserModel AuthController.
From stdpp Require Import list.
From Stdlib Require Import Strings.String.
Import ListNotations.
Open Scope string_scope.

Module AccountSpec.
Import UserModel AuthController.

Record Account := mkAccount {
  acc_id : N;
  acc_username : string;
  acc_email : string;
  acc_password : string;
  acc_reset : option (string * N)
}.

Record AState := mkAState { accounts : list Account; acc_next : N }.

Inductive Label := LOpen | LIssue | LCancel | LConsume.

(** Replace the account with key [i]. *)
Definition set_acct (i : N) (a : Account) (s : AState) : AState :=
  mkAState (map (fun b => if (acc_id b =? i)%N then a else b) (accounts s)) (acc_next s).

Definition with_acc_reset (a : Account) (r : option (string * N)) : Account :=
  mkAccount (acc_id a) (acc_username a) (acc_email a) (acc_password a) r.


(** Distinct keys, all below the counter. *)
Definition awf (s : AState) : Prop :=
  NoDup (map acc_id (accounts s)) /\ Forall (fun a => (acc_id a < acc_next s)%N) (accounts s).

Section Machine.
Context `{PasswordHasher} `{EmailCheck} `{Collation}.

Inductive astep : Label -> AState -> AState -> Prop :=
| AOpen s u e p salt :
    validate_username u = [] -> validate_email e = [] -> validate_password p = [] ->
    Forall (fun a => coll_eq (acc_username a) u = false /\ coll_eq (acc_email a) e = false) (accounts s) ->
    astep LOpen s (mkAState (accounts s ++ [mkAccount (acc_next s) u e (bcrypt_hash salt p) None])
                     (acc_next s + 1))
| AIssue s a d exp :
    a ∈ accounts s -> astep LIssue s (set_acct (acc_id a) (with_acc_reset a (Some (d, exp))) s)
| ACancel s a :
    a ∈ accounts s -> astep LCancel s (set_acct (acc_id a) (with_acc_reset a None) s)
| AConsume s a d0 exp d n pw :
    a ∈ accounts s -> acc_reset a = Some (d0, exp) -> coll_eq d0 d = true -> (n < exp)%N ->
    (pw = acc_password a \/ exists salt p, pw = bcrypt_hash salt p /\ validate_password p = []) ->
    astep LConsume s (set_acct (acc_id a)
                        (mkAccount (acc_id a) (acc_username a) (acc_email a) pw None) s).

(** Runs of the machine, with their labels. *)
Inductive steps : list Label -> AState -> AState -> Prop :=
| steps_nil s : steps [] s s
| steps_cons l ls s1 s2 s3 : astep l s1 s2 -> steps ls s2 s3 -> steps (l :: ls) s1 s3.

Lemma steps_app ls1 ls2 s1 s2 s3 :
  steps ls1 s1 s2 -> steps ls2 s2 s3 -> steps (ls1 ++ ls2) s1 s3.
Proof. induction 1; simpl; [done|]. intros. econstructor; eauto. Qed.

Lemma steps_snoc ls l s1 s2 s3 : steps ls s1 s2 -> astep l s2 s3 -> steps (ls ++ [l]) s1 s3.
Proof. intros Hr Hl. eapply steps_app; [exact Hr|]. econstructor; [exact Hl|constructor]. Qed.

(** *** What a step keeps *)

Lemma set_acct_ids i a s :
  acc_id a = i -> map acc_id (accounts (set_acct i a s)) = map acc_id (accounts s).
Proof.
  intros <-. unfold set_acct; simpl. rewrite map_map. apply map_ext.
  intros b. destruct (N.eqb_spec (acc_id b) (acc_id a)); congruence.
Qed.

(** Replacing an account by one with the same key keeps [awf]. *)
Lemma set_acct_awf s a a' : awf s -> acc_id a' = acc_id a -> awf (set_acct (acc_id a) a' s).
Proof.
  intros [Hnd Hlt] Hid. split; [by rewrite set_acct_ids|].
  apply Forall_forall. intros b (b0 & <- & Hb0)%list_elem_of_In%in_map_iff.
  rewrite Forall_forall in Hlt. apply list_elem_of_In in Hb0. specialize (Hlt b0 Hb0). simpl.
  destruct (N.eqb_spec (acc_id b0) (acc_id a)); [congruence|done].
Qed.

Lemma astep_awf l s s' : astep l s s' -> awf s -> awf s'.
Proof.
  intros Hs Hwf. destruct Hs; try (apply set_acct_awf; done).
  destruct Hwf as [Hnd Hlt]. unfold awf; simpl. rewrite map_app. split.
  - apply list.NoDup_app. split_and!; [done| |apply NoDup_singleton].
    intros i Hi ->%list_elem_of_singleton. apply list_elem_of_In, in_map_iff in Hi as (b & Hb & Hin).
    rewrite Forall_forall in Hlt. apply list_elem_of_In in Hin. specialize (Hlt b Hin). simpl in Hb. lia.
  - apply Forall_app. split; [|constructor; [simpl; lia|constructor]].
    eapply Forall_impl; [exact Hlt|]. simpl. intros. lia.
Qed.

(** The account a key names is unique. *)
Lemma awf_unique s a b : awf s -> a ∈ accounts s -> b ∈ accounts s -> acc_id a = acc_id b -> a = b.
Proof.
  intros [Hnd _] Ha Hb Hab.
  apply list_elem_of_lookup in Ha as [i Hi], Hb as [j Hj].
  assert (i = j) as ->.
  { eapply NoDup_lookup; [exact Hnd| |]; rewrite list_lookup_fmap.
    - by rewrite Hi. - by rewrite Hj, Hab. }
  congruence.
Qed.






(** Accounts are never removed and keep their key fields. *)
Definition same_keys (a b : Account) : Prop :=
  acc_id a = acc_id b /\ acc_username a = acc_username b /\ acc_email a = acc_email b.

Lemma set_acct_keys s a b a' :
  awf s -> a ∈ accounts s -> b ∈ accounts s -> same_keys a' b ->
  exists a'', a'' ∈ accounts (set_acct (acc_id b) a' s) /\ same_keys a'' a.
Proof.
  intros Hwf Ha Hb Hk. unfold set_acct; simpl.
  destruct (N.eqb_spec (acc_id a) (acc_id b)) as [Hab|Hab].
  - rewrite (awf_unique s a b) in * by done. exists a'. split; [|done].
    apply list_elem_of_In, in_map_iff. exists b. rewrite N.eqb_refl.
    split; [done|by apply list_elem_of_In].
  - exists a. split; [|done]. apply list_elem_of_In, in_map_iff. exists a.
    rewrite (proj2 (N.eqb_neq _ _) Hab). split; [done|by apply list_elem_of_In].
Qed.

Lemma astep_keys l s s' a :
  astep l s s' -> awf s -> a ∈ accounts s -> exists a', a' ∈ accounts s' /\ same_keys a' a.
Proof.
  intros Hs Hwf Ha. destruct Hs as [s u e p salt|s b d exp Hb|s b Hb|s b d0 exp d n pw Hb].
  - exists a. split; [apply elem_of_app; by left|done].
  - by apply set_acct_keys.
  - by apply set_acct_keys.
  - by apply set_acct_keys.
Qed.

Lemma steps_awf ls s s' : steps ls s s' -> awf s -> awf s'.
Proof. induction 1; eauto using astep_awf. Qed.

Lemma steps_keys ls s s' a :
  steps ls s s' -> awf s -> a ∈ accounts s -> exists a', a' ∈ accounts s' /\ same_keys a' a.
Proof.
  intros Hs. revert a. induction Hs as [s|l ls s1 s2 s3 Hst1 Hst2 IH]; intros a Hwf Ha; [by exists a|].
  destruct (astep_keys _ _ _ _ Hst1 Hwf Ha) as (a1 & Ha1 & Hk1).
  destruct (IH a1 (astep_awf _ _ _ Hst1 Hwf) Ha1) as (a2 & Ha2 & Hk2).
  exists a2. split; [done|]. destruct Hk1 as (?&?&?), Hk2 as (?&?&?). split_and!; congruence.
Qed.

(** The model's validation of the key fields holds of every account. *)
Definition keys_valid (s : AState) : Prop :=
  Forall (fun a => validate_username (acc_username a) = [] /\ validate_email (acc_email a) = [])
    (accounts s).

Lemma set_acct_keys_valid s a a' :
  keys_valid s -> a ∈ accounts s -> same_keys a' a -> keys_valid (set_acct (acc_id a) a' s).
Proof.
  intros Hv Ha (_ & Hu & He). apply Forall_forall. intros b (b0 & <- & Hb0)%list_elem_of_In%in_map_iff.
  apply list_elem_of_In in Hb0. unfold keys_valid in Hv. rewrite Forall_forall in Hv.
  destruct (N.eqb_spec (acc_id b0) (acc_id a)).
  - rewrite Hu, He. by apply Hv.
  - by apply Hv.
Qed.

Lemma steps_keys_valid ls s s' : steps ls s s' -> keys_valid s -> keys_valid s'.
Proof.
  induction 1 as [s|l ls s1 s2 s3 Hst1 Hst2 IH]; [done|]. intros Hv. apply IH.
  destruct Hst1 as [s u e p salt Hu He Hp Hf|s a d exp Ha|s a Ha|s a d0 exp d n pw Ha].
  - unfold keys_valid; simpl. apply Forall_app. split; [done|]. repeat constructor; done.
  - by apply set_acct_keys_valid.
  - by apply set_acct_keys_valid.
  - by apply set_acct_keys_valid.
Qed.


End Machine.

(** ** The abstraction of the table *)

Definition acct_of (r : User) : Account :=
  mkAccount (id r) (username r) (email r) (password r)
    (match resetPasswordToken r, resetPasswordExpire r with
     | Some d, Some e => Some (d, e)
     | _, _ => None
     end).

Definition abs (t : Table) : AState := mkAState (map acct_of (users t)) (next_id t).

(** The requests' labels: what each kind of request may do. *)
Definition allowed (a : Action) (l : Label) : Prop :=
  match a with
  | ARegister _ => l = LOpen
  | AForgotPassword _ => l = LIssue \/ l = LCancel
  | AResetPassword _ _ => l = LConsume
  | _ => False
  end.

Section Refinement.
Context `{PasswordHasher} `{EmailCheck} `{Collation} `{Digest} `{Mac}.

Lemma abs_in t x : x ∈ users t -> acct_of x ∈ accounts (abs t).
Proof. intros Hx. simpl. by apply list_elem_of_fmap_2. Qed.

Lemma abs_in_inv t a : a ∈ accounts (abs t) -> exists x, x ∈ users t /\ a = acct_of x.
Proof. simpl. intros (x & -> & Hx)%list_elem_of_fmap. eauto. Qed.

Lemma abs_wf t : table_wf t -> awf (abs t).
Proof.
  intros (Hrows & Hids & _). split; simpl.
  - by rewrite map_map.
  - apply Forall_map. eapply Forall_impl; [exact Hrows|]. by intros r [? _].
Qed.

Lemma abs_update t x g :
  table_wf t -> x ∈ users t -> abs (update_row (id x) g t) = set_acct (id x) (acct_of (g x)) (abs t).
Proof.
  intros (_ & Hids & _) Hx. unfold abs, update_row, set_acct; simpl. f_equal.
  rewrite !map_map. apply map_ext_in. intros r Hr%list_elem_of_In. simpl.
  destruct (N.eqb_spec (id r) (id x)) as [Hrx|]; [|done].
  by rewrite (NoDup_map_id_eq (users t) r x).
Qed.

(** The password [save] writes: hashed by [beforeUpdate] when changed. *)
Definition hashed (orig cur : User) (salt : string) : User :=
  if changed_password orig cur then with_password cur (bcrypt_hash salt (password cur)) else cur.

(** What [save] does to the abstraction: nothing, or it replaces the
    saved row's account. *)
Lemma save_abs x cur salt now t r t' :
  table_wf t -> x ∈ users t -> id cur = id x -> createdAt cur = createdAt x ->
  save x cur salt now t = (r, t') ->
  t' = t \/ (abs t' = set_acct (id x) (acct_of (hashed x cur salt)) (abs t) /\
             (changed_password x cur = true -> validate_password (password cur) = [])).
Proof.
  intros Hwf Hx Hid Hc. unfold save.
  destruct (decide _) as [|Herr]; [intros [= _ <-]; by left|].
  destruct (decide (cur = x)); [intros [= _ <-]; by left|]. intros [= _ <-]. right.
  split.
  - rewrite abs_update by done. rewrite apply_changes_same; [done| |];
      unfold hashed; by destruct (changed_password x cur).
  - intros Hch. rewrite Hch in Herr. apply dec_stable in Herr. done.
Qed.

(** The invariant of the refinement: the table is well formed and its
    abstraction is reached from [A0] by steps with labels in [P]. *)
Definition refines (P : Label -> Prop) (A0 : AState) (t : Table) : Prop :=
  table_wf t /\ exists ls, steps ls A0 (abs t) /\ Forall P ls.

Lemma refines_step P A0 t t' l :
  refines P A0 t -> table_wf t' -> P l -> astep l (abs t) (abs t') -> refines P A0 t'.
Proof.
  intros [_ (ls & Hs & Hp)] Hwf' Hl Ha. split; [done|].
  exists (ls ++ [l])%list. split; [by eapply steps_snoc|]. apply Forall_app. auto.
Qed.

Lemma create_refines P A0 u e po salt now :
  P LOpen -> hoare (refines P A0) (create u e po salt now) (fun _ t => refines P A0 t).
Proof.
  intros Hl t r t' Hr Hc.
  pose proof (create_spec u e po salt now t r t' (proj1 Hr) Hc) as Hwf'.
  destruct (create_cases u e po salt now t) as [[ex Hex]|(p & -> & Hu & He & Hp & Hfu & Hfe & Hok)].
  - rewrite Hex in Hc. by injection Hc as _ <-.
  - rewrite Hok in Hc. injection Hc as _ <-. eapply refines_step; [done|done|done|].
    unfold abs at 2, insert_row; simpl. rewrite map_app.
    apply (AOpen (abs t) u e p salt); [done|done|done|].
    apply Forall_map. apply Forall_and; split; [eapply Forall_impl; [exact Hfu|]|eapply Forall_impl; [exact Hfe|]]; done.
Qed.

(** The three [save]s of the handlers are abstract steps. *)
Lemma save_refines P A0 l x cur salt now t r t' :
  refines P A0 t -> x ∈ users t -> same_key cur x -> P l ->
  (changed_password x cur = true -> validate_password (password cur) = [] ->
   astep l (abs t) (set_acct (id x) (acct_of (hashed x cur salt)) (abs t))) ->
  (changed_password x cur = false ->
   astep l (abs t) (set_acct (id x) (acct_of (hashed x cur salt)) (abs t))) ->
  table_wf t' -> save x cur salt now t = (r, t') -> refines P A0 t'.
Proof.
  intros Hr Hx (Hid & _ & _ & Hc) Hl Hch Hun Hwf' Hs.
  destruct (save_abs x cur salt now t r t' (proj1 Hr) Hx Hid Hc Hs) as [->|[Habs Hv]]; [done|].
  eapply refines_step; [done|done|done|]. rewrite Habs.
  destruct (changed_password x cur) eqn:E; auto.
Qed.

Lemma changed_password_false x cur : changed_password x cur = false -> password cur = password x.
Proof. unfold changed_password. by destruct (String.eqb_spec (password cur) (password x)). Qed.

Lemma issue_refines P A0 x d exp salt now :
  P LIssue ->
  hoare (fun t => refines P A0 t /\ x ∈ users t) (save x (with_reset x (Some d) (Some exp)) salt now)
    (fun r t => refines P A0 t /\ forall x2, r = inr x2 -> x2 ∈ users t).
Proof.
  intros Hl t r t' [Hr Hx] Hs. destruct table_wf_writes as (Hi & _ & _).
  destruct (Hi x d exp salt now t r t' (conj (proj1 Hr) Hx) Hs) as [Hwf' Hmem].
  split; [|done]. eapply save_refines; eauto; [apply with_reset_same_key| |].
  - unfold changed_password. simpl. by rewrite String.eqb_refl.
  - intros Hun. unfold hashed. rewrite Hun. exact (AIssue _ (acct_of x) d exp (abs_in t x Hx)).
Qed.

Lemma cancel_refines P A0 x salt now :
  P LCancel ->
  hoare (fun t => refines P A0 t /\ x ∈ users t) (save x (with_reset x None None) salt now)
    (fun _ t => refines P A0 t).
Proof.
  intros Hl t r t' [Hr Hx] Hs. destruct table_wf_writes as (_ & Hc & _).
  pose proof (Hc x salt now t r t' (conj (proj1 Hr) Hx) Hs) as Hwf'.
  eapply save_refines; eauto; [apply with_reset_same_key| |].
  - unfold changed_password. simpl. by rewrite String.eqb_refl.
  - intros Hun. unfold hashed. rewrite Hun. exact (ACancel _ (acct_of x) (abs_in t x Hx)).
Qed.

Lemma consume_refines P A0 x p d n salt now :
  P LConsume ->
  hoare (fun t => refines P A0 t /\ x ∈ users t /\ by_reset_token d n x = true)
    (save x (with_reset (with_password x p) None None) salt now) (fun _ t => refines P A0 t).
Proof.
  intros Hl t r t' (Hr & Hx & Hb) Hs. destruct table_wf_writes as (_ & _ & Hk).
  pose proof (Hk x p d n salt now t r t' (conj (proj1 Hr) (conj Hx Hb)) Hs) as Hwf'.
  unfold by_reset_token in Hb.
  destruct (resetPasswordToken x) as [d0|] eqn:Ed; [|discriminate].
  destruct (resetPasswordExpire x) as [exp|] eqn:Ee; [|discriminate].
  apply andb_prop in Hb as [Hd Hn%N.ltb_lt].
  assert (Ha : acc_reset (acct_of x) = Some (d0, exp)) by (simpl; by rewrite Ed, Ee).
  eapply save_refines; eauto; [by repeat split| |].
  - intros Hch Hv. unfold hashed. rewrite Hch.
    exact (AConsume _ (acct_of x) d0 exp d n _ (abs_in t x Hx) Ha Hd Hn
             (or_intror (ex_intro _ salt (ex_intro _ p (conj eq_refl Hv))))).
  - intros Hun. unfold hashed. rewrite Hun. apply changed_password_false in Hun. simpl in Hun.
    exact (AConsume _ (acct_of x) d0 exp d n _ (abs_in t x Hx) Ha Hd Hn (or_introl Hun)).
Qed.

(** Each request is a run of the abstract machine with the labels it
    allows. *)
Lemma run_action_steps cfg env a w r w' :
  table_wf (table w) -> run_action cfg env a w = (r, w') ->
  exists ls, steps ls (abs (table w)) (abs (table w')) /\ Forall (allowed a) ls.
Proof.
  intros Hwf Hrun.
  assert (Hinit : refines (allowed a) (abs (table w)) (table w)).
  { split; [done|]. exists []. split; constructor. }
  enough (refines (allowed a) (abs (table w)) (table w')) as [_ Hls] by done.
  set (A0 := abs (table w)) in *. clearbody A0.
  destruct a; simpl in Hrun.
  - eapply (register_pres (refines _ A0)); [|exact Hinit|exact Hrun]. intros. by apply create_refines.
  - eapply (login_pres (refines _ A0)); [exact Hinit|exact Hrun].
  - eapply (getMe_pres (refines _ A0)); [exact Hinit|exact Hrun].
  - eapply (forgotPassword_pres (refines _ A0)); [| |exact Hinit|exact Hrun]; intros.
    + apply issue_refines. simpl. auto.
    + apply cancel_refines. simpl. auto.
  - eapply (resetPassword_pres (refines _ A0)); [|exact Hinit|exact Hrun]. intros.
    by apply consume_refines.
  - by injection Hrun as _ <-.
Qed.

Lemma run_actions_steps cfg reqs w :
  table_wf (table w) ->
  exists ls, steps ls (abs (table w)) (abs (table (snd (run_actions cfg reqs w)))) /\
    Forall (fun l => Exists (fun req => allowed (snd req) l) reqs) ls.
Proof.
  revert w. induction reqs as [|[env a] reqs IH]; intros w Hwf; simpl.
  { exists []. split; constructor. }
  destruct (run_action cfg env a w) as [r w1] eqn:E1.
  destruct (run_actions cfg reqs w1) as [rs w2] eqn:E2. simpl.
  destruct (run_action_steps cfg env a w r w1 Hwf E1) as (ls1 & Hs1 & Hp1).
  assert (Hwf1 : table_wf (table w1)) by (eapply run_action_hoare_aux; eauto).
  destruct (IH w1 Hwf1) as (ls2 & Hs2 & Hp2). rewrite E2 in Hs2. simpl in Hs2.
  exists (ls1 ++ ls2)%list. split; [by eapply steps_app|].
  apply Forall_app. split.
  - eapply Forall_impl; [exact Hp1|]. intros l Hl. by apply Exists_cons; left.
  - eapply Forall_impl; [exact Hp2|]. intros l Hl. by apply Exists_cons; right.
Qed.

(** C25: Refinement.  From a well-formed table, any sequence of requests
    changes the accounts (keys, password hashes, pending resets) only by
    the steps of the abstract account machine: opening an account,
    issuing, cancelling or consuming a reset; every step is one that
    some request of the sequence allows (a registration opens, a
    forgot-password request issues or cancels, a reset consumes). *)
Theorem run_actions_refine cfg reqs w :
  table_wf (table w) ->
  exists ls, steps ls (abs (table w)) (abs (table (snd (run_actions cfg reqs w)))) /\
    Forall (fun l => Exists (fun req => allowed (snd req) l) reqs) ls.
Proof. apply run_actions_steps. Qed.

(** C27: No sequence of requests removes an account or changes its id,
    username or email: each row of a well-formed table is still there,
    with the same key fields, after any sequence of requests. *)
Theorem run_actions_accounts_persist cfg reqs w x :
  table_wf (table w) -> x ∈ users (table w) ->
  exists x', x' ∈ users (table (snd (run_actions cfg reqs w))) /\
    id x' = id x /\ username x' = username x /\ email x' = email x.
Proof.
  intros Hwf Hx. destruct (run_actions_steps cfg reqs w Hwf) as (ls & Hs & _).
  destruct (steps_keys _ _ _ (acct_of x) Hs (abs_wf _ Hwf) (abs_in _ _ Hx)) as (a' & Ha' & Hk).
  destruct (abs_in_inv _ _ Ha') as (x' & Hx' & ->). exists x'. destruct Hk as (? & ? & ?). auto.
Qed.



(** C28: Bounds on the stored key fields.  If every row's username has
    3 to 30 characters and every row's email passes [isEmail] (as the
    model's validators require), this still holds after any sequence of
    requests: no path stores a username or an email the model refuses. *)
Theorem run_actions_keys_valid cfg reqs w :
  table_wf (table w) ->
  Forall (fun r => validate_username (username r) = [] /\ validate_email (email r) = []) (users (table w)) ->
  Forall (fun r => (3 <= String.length (username r) <= 30)%nat /\ isEmail (email r) = true)
    (users (table (snd (run_actions cfg reqs w)))).
Proof.
  intros Hwf Hv. destruct (run_actions_steps cfg reqs w Hwf) as (ls & Hs & _).
  assert (Hv0 : keys_valid (abs (table w))) by (unfold keys_valid, abs; simpl; by apply Forall_map).
  pose proof (steps_keys_valid _ _ _ Hs Hv0) as Hv'.
  unfold keys_valid, abs in Hv'. simpl in Hv'. apply Forall_map in Hv'.
  eapply Forall_impl; [exact Hv'|]. simpl. intros r [Hu He].
  unfold validate_username, validate_email, len_ok in *.
  destruct (isEmail (email r)); [|discriminate].
  destruct (3 <=? String.length (username r))%nat eqn:E1; [|discriminate].
  destruct (String.length (username r) <=? 30)%nat eqn:E2; [|discriminate].
  apply Nat.leb_le in E1, E2. auto.
Qed.
End Refinement.
End AccountSpec.
