(* ===== verification/Concurrency.v ===== *)
(** * Concurrent requests: the handlers at their [await] points

    Express hands each request to its handler as soon as it arrives, and
    an [async] handler yields at every [await]: between the
    [User.findOne] of one request and its later write, other requests
    run.  [register] and [resetPassword] of
    [src/Backend/controllers/authController.js] are split at the
    [await] of their lookup: a lookup phase (the code up to and
    including [User.findOne]) and a commit phase (the code after it, with
    its write and answer), under the handler's [catch].
    [forgotPassword] has three phases: the lookup, the token and its
    [save], and [sendEmail] with the inner [catch] that clears the
    token again.  A phase touches the table in one statement at most,
    which the database applies atomically.  A request in flight is a
    [Thread]; [run_schedule] steps the threads in the order a schedule
    names, as Node's event loop may.

    The properties: a schedule that runs each request to its end before
    the next starts gives exactly the answers and the world of
    [run_actions] (the split is faithful); the schedule that runs both
    lookups before both commits lets two [resetPassword] calls use one
    token, and makes the second of two registrations of one username
    fail with 500 instead of "username taken"; a [forgotPassword] whose
    mail fails erases the token another overlapping [forgotPassword]
    has just mailed, and in the same millisecond leaves a token without
    an expiry, against the invariant [table_wf]; without
    [forgotPassword], every schedule keeps [table_wf] (Section
    [Invariant], by induction on the schedule with the thread
    invariant [thread_ok]). *)

From S2P Require Import Prelude JsString Crypto Jwt UserModel AuthController.
From stdpp Require Import list.
From Stdlib Require Import Strings.String.
Import ListNotations.
Open Scope string_scope.

Module Concurrency.
Import UserModel AuthController.

Section Phases.
Context `{PasswordHasher} `{EmailCheck} `{Collation} `{Digest} `{Mac}.
Context (cfg : Config) (env : Env).

(** [register] up to [await User.findOne({where: {[Op.or]: ...}})]. *)
Definition register_lookup (b : Body) : St World Exn (string * string * option User) :=
  e <- on_table (where_value "email" (b_email b)) ;;
  u <- on_table (where_value "username" (b_username b)) ;;
  userExists <- on_table (findOne (by_email_or_username e u)) ;;
  ret (e, u, userExists).

(** [register] after the lookup: the conflict answers, or
    [await User.create] and the token answer. *)
Definition register_commit (b : Body) (x : string * string * option User) : St World Exn Response :=
  let '(e, u, userExists) := x in
  match userExists with
  | Some x =>
      if String.eqb (email x) e then ret (fail_msg 400 msg_email_taken)
      else ret (fail_msg 400 msg_username_taken)
  | None =>
      user <- on_table (create u e (b_password b) (salt env) (now env)) ;;
      sendTokenResponse cfg env user 201
  end.

(** The [catch] of [register]. *)
Definition register_catch (ex : Exn) : St World Exn Response :=
  match ex with
  | SequelizeValidationError msgs => ret (fail_msg 400 (join_msgs msgs))
  | _ => ret (fail_msg 500 msg_server_error)
  end.

(** [resetPassword] up to [await User.findOne] of the digest. *)
Definition reset_lookup (resettoken : string) : St World Exn (option User) :=
  on_table (findOne (by_reset_token (sha256_hex resettoken) (now env))).

(** [resetPassword] after the lookup, with the instance it loaded. *)
Definition reset_commit (b : Body) (user : option User) : St World Exn Response :=
  match user with
  | None => ret (fail_msg 400 msg_bad_token)
  | Some x =>
      match b_password b with
      | Some p =>
          x2 <- on_table (save x (with_reset (with_password x p) None None) (salt env) (now env)) ;;
          sendTokenResponse cfg env x2 200
      | None => throw (SequelizeValidationError [msg_not_null "password"])
      end
  end.

Definition reset_catch (ex : Exn) : St World Exn Response := ret (fail_msg 500 msg_server_error).

(** [forgotPassword] up to [await User.findOne({ where: { email } })]. *)
Definition forgot_lookup (b : Body) : St World Exn (option User) :=
  e <- on_table (where_value "email" (b_email b)) ;;
  on_table (findOne (by_email e)).

(** [forgotPassword] after finding the user, up to [await user.save()]:
    the reset token and the save of its digest. *)
Definition forgot_save (x : User) : St World Exn (User * string) :=
  let '(resetToken, x1) := getResetPasswordToken x (rand env) (now env) in
  x2 <- on_table (save x x1 (salt env) (now env)) ;;
  ret (x2, resetToken).

(** [forgotPassword] after the save: [await sendEmail(...)] and its
    inner [catch], which clears the reset fields of the instance it
    saved and saves it again. *)
Definition forgot_mail (x2 : User) (resetToken : string) : St World Exn Response :=
  try_catch (
    bind (sendEmail env (mkMail (email x2) reset_subject (reset_message (reset_url env resetToken))))
      (fun _ => ret (ok_msg 200 msg_email_sent)))
  (fun _ =>
    bind (on_table (save x2 (with_reset x2 None None) (salt env) (now env)))
      (fun _ => ret (fail_msg 500 msg_email_failed))).

(** The outer [catch] of [forgotPassword]. *)
Definition forgot_catch (ex : Exn) : St World Exn Response := ret (fail_msg 500 msg_server_error).
End Phases.

(** A request the server is handling. *)
Inductive Req :=
| RRegister (env : Env) (b : Body)
| RReset (env : Env) (resettoken : string) (b : Body)
| RForgot (env : Env) (b : Body).

(** Its progress: not started, suspended at an [await] with the values
    its code holds there (what the lookup found; the saved instance and
    the plaintext token), or answered.  [Escaped] is an exception no
    [catch] took. *)
Inductive Thread :=
| Ready (r : Req)
| RegisterLooked (env : Env) (b : Body) (found : string * string * option User)
| ResetLooked (env : Env) (b : Body) (found : option User)
| ForgotLooked (env : Env) (found : option User)
| ForgotSaved (env : Env) (saved : User) (resetToken : string)
| Answered (resp : Response)
| Escaped (ex : Exn).

Definition outcome (r : Exn + Response) : Thread :=
  match r with inr resp => Answered resp | inl ex => Escaped ex end.

Section Threads.
Context `{PasswordHasher} `{EmailCheck} `{Collation} `{Digest} `{Mac}.
Context (cfg : Config).

(** Run a phase that ends the request. *)
Definition finish (m : St World Exn Response) (w : World) : Thread * World :=
  let '(r, w') := m w in (outcome r, w').

(** Run the code of a thread up to its next [await], or to its end. *)
Definition step_thread (th : Thread) (w : World) : Thread * World :=
  match th with
  | Ready (RRegister env b) =>
      match register_lookup b w with
      | (inr x, w') => (RegisterLooked env b x, w')
      | (inl ex, w') => finish (register_catch ex) w'
      end
  | RegisterLooked env b x => finish (try_catch (register_commit cfg env b x) register_catch) w
  | Ready (RReset env tok b) =>
      match reset_lookup env tok w with
      | (inr x, w') => (ResetLooked env b x, w')
      | (inl ex, w') => finish (reset_catch ex) w'
      end
  | ResetLooked env b x => finish (try_catch (reset_commit cfg env b x) reset_catch) w
  | Ready (RForgot env b) =>
      match forgot_lookup b w with
      | (inr x, w') => (ForgotLooked env x, w')
      | (inl ex, w') => finish (forgot_catch ex) w'
      end
  | ForgotLooked env None => finish (ret (fail_msg 404 msg_no_user)) w
  | ForgotLooked env (Some x) =>
      match forgot_save env x w with
      | (inr (x2, tok), w') => (ForgotSaved env x2 tok, w')
      | (inl ex, w') => finish (forgot_catch ex) w'
      end
  | ForgotSaved env x2 tok => finish (try_catch (forgot_mail env x2 tok) forgot_catch) w
  | Answered _ | Escaped _ => (th, w)
  end.

(** The event loop following a schedule of thread indices; an index
    with no thread is skipped. *)
Fixpoint run_schedule (sched : list nat) (ths : list Thread) (w : World) : list Thread * World :=
  match sched with
  | [] => (ths, w)
  | i :: sched' =>
      match ths !! i with
      | Some th => let '(th', w') := step_thread th w in run_schedule sched' (<[i := th']> ths) w'
      | None => run_schedule sched' ths w
      end
  end.
End Threads.

(** The action a request is, for [run_actions]. *)
Definition req_action (r : Req) : Env * Action :=
  match r with
  | RRegister env b => (env, ARegister b)
  | RReset env tok b => (env, AResetPassword tok b)
  | RForgot env b => (env, AForgotPassword b)
  end.

(** Each request run to its end before the next starts: a request
    ends after at most three steps, and a finished thread stutters. *)
Definition sequential (n : nat) : list nat := flat_map (fun i => [i; i; i]) (seq 0 n).

(** ** Properties *)

Local Close Scope string_scope.

Section Split.
Context `{PasswordHasher} `{EmailCheck} `{Collation} `{Digest} `{Mac}.
Context (cfg : Config).

(** The handler is its lookup followed by its commit, under its
    [catch]. *)
Lemma register_phases env b w :
  register cfg env b w =
    match register_lookup b w with
    | (inr x, w') => try_catch (register_commit cfg env b x) register_catch w'
    | (inl ex, w') => register_catch ex w'
    end.
Proof.
  unfold register, register_lookup, register_commit, register_catch. st_unfold.
  unfold on_table, where_value, findOne. destruct w as [t ob].
  by destruct (b_email b), (b_username b).
Qed.

Lemma reset_phases env tok b w :
  resetPassword cfg env tok b w =
    match reset_lookup env tok w with
    | (inr x, w') => try_catch (reset_commit cfg env b x) reset_catch w'
    | (inl ex, w') => reset_catch ex w'
    end.
Proof.
  unfold resetPassword, reset_lookup, reset_commit, reset_catch. st_unfold.
  unfold on_table, findOne. destruct w as [t ob]. cbn.
  destruct (find_where _ t); reflexivity.
Qed.

Lemma forgot_phases env b w :
  forgotPassword env b w =
    match forgot_lookup b w with
    | (inr None, w') => (inr (fail_msg 404 msg_no_user), w')
    | (inr (Some x), w') =>
        match forgot_save env x w' with
        | (inr (x2, tok), w'') => try_catch (forgot_mail env x2 tok) forgot_catch w''
        | (inl ex, w'') => forgot_catch ex w''
        end
    | (inl ex, w') => forgot_catch ex w'
    end.
Proof.
  unfold forgotPassword, forgot_lookup, forgot_save, forgot_mail, forgot_catch. st_unfold.
  unfold on_table, where_value, findOne. destruct w as [t ob].
  destruct (b_email b); cbn; [|reflexivity].
  destruct (find_where _ t) as [x|]; cbn; [|reflexivity].
  by destruct (save _ _ _ _ t) as [[] ?].
Qed.

(** A request run by three steps of its thread is the handler (a
    finished thread stutters). *)
Lemma step_thread_run r w :
  (let '(th1, w1) := step_thread cfg (Ready r) w in
   let '(th2, w2) := step_thread cfg th1 w1 in step_thread cfg th2 w2) =
  (let '(res, w') := run_action cfg (fst (req_action r)) (snd (req_action r)) w in (outcome res, w')).
Proof.
  destruct r as [env' b|env' tok b|env' b]; cbn [req_action fst snd run_action].
  - rewrite register_phases. cbn [step_thread].
    destruct (register_lookup b w) as [[ex|x] w']; cbn [step_thread]; unfold finish;
      [destruct (register_catch ex w') as [[] ?]|destruct (try_catch _ _ w') as [[] ?]]; reflexivity.
  - rewrite reset_phases. cbn [step_thread].
    destruct (reset_lookup env' tok w) as [[ex|x] w']; cbn [step_thread]; unfold finish;
      [destruct (reset_catch ex w') as [[] ?]|destruct (try_catch _ _ w') as [[] ?]]; reflexivity.
  - rewrite forgot_phases. cbn [step_thread].
    destruct (forgot_lookup b w) as [[ex|[x|]] w']; cbn [step_thread]; [reflexivity| |reflexivity].
    destruct (forgot_save env' x w') as [[ex|[x2 tok]] w'']; cbn [step_thread]; [reflexivity|].
    unfold finish. by destruct (try_catch _ _ w'') as [[] ?].
Qed.

(** The scheduler steps the thread at index [List.length pre]. *)
Lemma run_schedule_middle pre th rest sched w :
  run_schedule cfg (List.length pre :: sched) (pre ++ th :: rest) w =
  let '(th', w') := step_thread cfg th w in run_schedule cfg sched (pre ++ th' :: rest) w'.
Proof.
  cbn [run_schedule]. rewrite list_lookup_middle by done.
  destruct (step_thread cfg th w) as [th' w'].
  rewrite insert_app_r_alt by done. by rewrite Nat.sub_diag.
Qed.

Lemma run_sequential_from pre reqs w :
  run_schedule cfg (flat_map (fun i => [i; i; i]) (seq (List.length pre) (List.length reqs))) (pre ++ map Ready reqs) w =
  let '(rs, w') := run_actions cfg (map req_action reqs) w in (pre ++ map outcome rs, w').
Proof.
  revert pre w. induction reqs as [|r reqs IH]; intros pre w.
  - cbn. by rewrite app_nil_r.
  - cbn [List.length seq flat_map app map].
    rewrite run_schedule_middle.
    pose proof (step_thread_run r w) as Hrun.
    destruct (step_thread cfg (Ready r) w) as [th1 w1].
    rewrite run_schedule_middle.
    destruct (step_thread cfg th1 w1) as [th2 w2].
    rewrite run_schedule_middle. rewrite Hrun.
    destruct r as [env b|env tok b|env b]; cbn [req_action fst snd run_actions];
      destruct (run_action _ _ _ w) as [res w'];
      specialize (IH (pre ++ [outcome res]) w'); rewrite length_app, <- app_assoc in IH;
      cbn [List.length app] in IH; rewrite Nat.add_1_r in IH; rewrite IH;
      destruct (run_actions _ _ w'); by rewrite <- app_assoc.
Qed.

(** ** One phase at a time *)

Lemma step_answered resp w : step_thread cfg (Answered resp) w = (Answered resp, w).
Proof. reflexivity. Qed.

Lemma step_reset_lookup env tok b t ob :
  step_thread cfg (Ready (RReset env tok b)) (mkWorld t ob) =
    (ResetLooked env b (find_where (by_reset_token (sha256_hex tok) (now env)) t), mkWorld t ob).
Proof. reflexivity. Qed.

Lemma step_register_lookup env u e p c t ob :
  step_thread cfg (Ready (RRegister env (mkBody (Some u) (Some e) p c))) (mkWorld t ob) =
    (RegisterLooked env (mkBody (Some u) (Some e) p c) (e, u, find_where (by_email_or_username e u) t),
     mkWorld t ob).
Proof. reflexivity. Qed.

(** The commit of [resetPassword] writes the row it loaded, whatever
    the table holds by then: [save] updates by primary key. *)
Lemma step_reset_commit env b p x t ob jwt :
  b_password b = Some p -> p <> password x -> validate_password p = [] ->
  Jwt.sign (id x) (username x) (JWT_SECRET cfg) (JWT_EXPIRE cfg) (now env) = inr jwt ->
  step_thread cfg (ResetLooked env b (Some x)) (mkWorld t ob) =
    (Answered (mkResponse 200 (RToken jwt (id x) (username x) (email x))),
     mkWorld (update_row (id x) (apply_changes x (reset_row env x p) (now env)) t) ob).
Proof.
  intros Hb Hp Hv Hs. cbn [step_thread]. unfold finish, try_catch, reset_commit. rewrite Hb.
  unfold bind. rewrite on_table_run, save_new_password by done.
  by rewrite (sendTokenResponse_run _ _ _ _ _ _ jwt).
Qed.

(** The commit of [register] after a lookup that found nothing. *)
Lemma step_register_created env u e p c t ob jwt :
  validate_username u = [] -> validate_email e = [] -> validate_password p = [] ->
  Forall (fun r => coll_eq (username r) u = false /\ coll_eq (email r) e = false) (users t) ->
  Jwt.sign (next_id t) u (JWT_SECRET cfg) (JWT_EXPIRE cfg) (now env) = inr jwt ->
  step_thread cfg (RegisterLooked env (mkBody (Some u) (Some e) (Some p) c) (e, u, None)) (mkWorld t ob) =
    (Answered (mkResponse 201 (RToken jwt (next_id t) u e)),
     mkWorld (insert_row t (mkUser (next_id t) u e (bcrypt_hash (salt env) p) None None
                              (now env) (now env))) ob).
Proof.
  intros Hu He Hp Hf Hs. cbn [step_thread]. unfold finish, try_catch, register_commit, bind. cbn [b_password].
  apply Forall_and in Hf as [Hfu Hfe]. rewrite on_table_run, create_ok by done.
  by rewrite (sendTokenResponse_run _ _ _ _ _ _ jwt).
Qed.

(** The commit of [register] after a lookup that found nothing, when a
    row with the username has been inserted since: the unique index
    refuses the INSERT, and the [catch] answers 500. *)
Lemma step_register_conflict env u e p c t ob r :
  validate_username u = [] -> validate_email e = [] -> validate_password p = [] ->
  r ∈ users t -> coll_eq (username r) u = true ->
  step_thread cfg (RegisterLooked env (mkBody (Some u) (Some e) (Some p) c) (e, u, None)) (mkWorld t ob) =
    (Answered (fail_msg 500 msg_server_error), mkWorld t ob).
Proof.
  intros Hu He Hp Hr Hru. cbn [step_thread]. unfold finish, try_catch, register_commit, bind. cbn [b_password].
  rewrite on_table_run. unfold create. cbn [validate_password_opt]. rewrite Hu, He, Hp. cbn.
  assert (existsb (fun r => coll_eq (username r) u) (users t) = true) as ->.
  { apply existsb_exists. exists r. by rewrite <- list_elem_of_In. }
  reflexivity.
Qed.
Lemma step_forgot_lookup env b e t ob :
  b_email b = Some e ->
  step_thread cfg (Ready (RForgot env b)) (mkWorld t ob) =
    (ForgotLooked env (find_where (by_email e) t), mkWorld t ob).
Proof. intros He. unfold step_thread, forgot_lookup. st_unfold. unfold on_table, where_value. by rewrite He. Qed.

(** The save of [forgotPassword] writes the new digest and expiry into
    the row by primary key, whatever the table holds by then. *)
Lemma step_forgot_save env x t ob :
  resetPasswordToken x <> Some (reset_digest env) ->
  step_thread cfg (ForgotLooked env (Some x)) (mkWorld t ob) =
    (ForgotSaved env (with_updated (issued_row env x) (now env)) (Js.hex (rand env)),
     mkWorld (update_row (id x) (apply_changes x (issued_row env x) (now env)) t) ob).
Proof.
  intros Hx. cbn [step_thread]. unfold forgot_save, bind, on_table. cbn [getResetPasswordToken table].
  fold (reset_digest env). fold (issued_row env x).
  rewrite (save_same_password x (issued_row env x)); [reflexivity|done|].
  intros E. apply Hx. apply (f_equal resetPasswordToken) in E. by rewrite <- E.
Qed.

Lemma step_forgot_sent env x2 tok t ob :
  mail_ok env = true ->
  step_thread cfg (ForgotSaved env x2 tok) (mkWorld t ob) =
    (Answered (ok_msg 200 msg_email_sent),
     mkWorld t (ob ++ [mkMail (email x2) reset_subject (reset_message (reset_url env tok))])%list).
Proof. intros Hm. cbn [step_thread]. unfold finish, try_catch, forgot_mail, bind, sendEmail. by rewrite Hm. Qed.

(** When the mail fails, the inner [catch] saves the instance with the
    reset fields cleared: an UPDATE of the row by primary key. *)
Lemma step_forgot_mail_failed env x2 tok t ob :
  mail_ok env = false -> resetPasswordToken x2 <> None ->
  step_thread cfg (ForgotSaved env x2 tok) (mkWorld t ob) =
    (Answered (fail_msg 500 msg_email_failed),
     mkWorld (update_row (id x2) (apply_changes x2 (with_reset x2 None None) (now env)) t) ob).
Proof.
  intros Hm Hx. cbn [step_thread]. unfold finish, forgot_mail, try_catch, bind, sendEmail, on_table. rewrite Hm.
  cbn -[save]. rewrite (save_same_password x2 (with_reset x2 None None)); [reflexivity|done|].
  intros E. apply Hx. apply (f_equal resetPasswordToken) in E. by rewrite <- E.
Qed.

(** The rows an UPDATE by primary key leaves alone. *)
Lemma update_row_other i t r x c now :
  r ∈ users (update_row i (apply_changes x c now) t) -> id r <> i -> r ∈ users t.
Proof.
  unfold update_row; cbn [users]. intros Hr%list_elem_of_In Hi. apply in_map_iff in Hr as (r0 & <- & Hr0).
  destruct (N.eqb_spec (id r0) i) as [E|_]; [by destruct Hi|]. by apply list_elem_of_In.
Qed.

(** The row an UPDATE clearing the reset fields writes holds no digest. *)
Lemma update_row_cleared i t r x now :
  resetPasswordToken x <> None ->
  r ∈ users (update_row i (apply_changes x (with_reset x None None) now) t) -> id r = i ->
  resetPasswordToken r = None.
Proof.
  unfold update_row; cbn [users]. intros Hx Hr%list_elem_of_In Hi. apply in_map_iff in Hr as (r0 & <- & Hr0).
  destruct (N.eqb_spec (id r0) i) as [_|E]; [|by destruct E].
  cbn. unfold pick. by rewrite decide_False.
Qed.

Lemma find_where_insert_row (q : User -> bool) t r :
  Forall (fun y => q y = false) (users t) -> q r = true -> find_where q (insert_row t r) = Some r.
Proof.
  intros Hf Hr. unfold find_where, insert_row; cbn [users].
  induction Hf as [|y l Hy _ IH]; cbn; [by rewrite Hr|by rewrite Hy].
Qed.

(** ** The claims *)

(** Splitting the handlers at their [await] is faithful: when the
    event loop runs every request to its end before starting the next,
    the threads end with exactly the answers (or escaped exceptions)
    and the world that [run_actions] gives for the same requests. *)
Theorem sequential_schedule_faithful reqs w :
  run_schedule cfg (sequential (List.length reqs)) (map Ready reqs) w =
    (map outcome (fst (run_actions cfg (map req_action reqs) w)),
     snd (run_actions cfg (map req_action reqs) w)).
Proof.
  unfold sequential. pose proof (run_sequential_from [] reqs w) as E. cbn [List.length app] in E.
  rewrite E. by destruct (run_actions cfg (map req_action reqs) w).
Qed.

(** C4: Two [resetPassword] calls with one reset token, whose lookups
    both run before either commit, both succeed: each answers 200 with
    a session token for the user, and the row ends with the second
    caller's password.  The token is single-use only when the requests
    do not overlap; [save] writes the row by primary key without
    re-checking the token the first commit cleared. *)
Theorem reset_race_reuses_token tok env1 env2 b1 b2 p1 p2 x t ob jwt1 jwt2 :
  find_where (by_reset_token (sha256_hex tok) (now env1)) t = Some x ->
  find_where (by_reset_token (sha256_hex tok) (now env2)) t = Some x ->
  b_password b1 = Some p1 -> b_password b2 = Some p2 ->
  p1 <> password x -> p2 <> password x ->
  validate_password p1 = [] -> validate_password p2 = [] ->
  Jwt.sign (id x) (username x) (JWT_SECRET cfg) (JWT_EXPIRE cfg) (now env1) = inr jwt1 ->
  Jwt.sign (id x) (username x) (JWT_SECRET cfg) (JWT_EXPIRE cfg) (now env2) = inr jwt2 ->
  run_schedule cfg [0; 1; 0; 1] [Ready (RReset env1 tok b1); Ready (RReset env2 tok b2)] (mkWorld t ob) =
    ([Answered (mkResponse 200 (RToken jwt1 (id x) (username x) (email x)));
      Answered (mkResponse 200 (RToken jwt2 (id x) (username x) (email x)))],
     mkWorld (update_row (id x) (apply_changes x (reset_row env2 x p2) (now env2))
               (update_row (id x) (apply_changes x (reset_row env1 x p1) (now env1)) t)) ob).
Proof.
  intros Hx1 Hx2 Hb1 Hb2 Hp1 Hp2 Hv1 Hv2 Hs1 Hs2.
  cbn [run_schedule lookup list_lookup]. rewrite step_reset_lookup, Hx1.
  cbn [run_schedule lookup list_lookup insert list_insert]. rewrite step_reset_lookup, Hx2.
  cbn [run_schedule lookup list_lookup insert list_insert].
  rewrite (step_reset_commit _ _ p1 _ _ _ jwt1) by done.
  cbn [run_schedule lookup list_lookup insert list_insert].
  rewrite (step_reset_commit _ _ p2 _ _ _ jwt2) by done.
  reflexivity.
Qed.

(** C16: Two registrations of one free username with different emails:
    when each runs to its end before the other starts, the second is
    told "El nombre de usuario ya está en uso" (400); when both lookups
    run before either [User.create], the unique index refuses the
    second INSERT and the [catch] answers 500 "Error en el servidor".
    Either way one row is created. *)
Theorem register_race_server_error env1 env2 u e1 e2 p1 p2 c1 c2 t ob jwt :
  validate_username u = [] -> validate_email e1 = [] -> validate_email e2 = [] ->
  validate_password p1 = [] -> validate_password p2 = [] -> e1 <> e2 ->
  Forall (fun r => coll_eq (username r) u = false /\ coll_eq (email r) e1 = false /\
                   coll_eq (email r) e2 = false) (users t) ->
  Jwt.sign (next_id t) u (JWT_SECRET cfg) (JWT_EXPIRE cfg) (now env1) = inr jwt ->
  let ths := [Ready (RRegister env1 (mkBody (Some u) (Some e1) (Some p1) c1));
              Ready (RRegister env2 (mkBody (Some u) (Some e2) (Some p2) c2))] in
  let w' := mkWorld (insert_row t (mkUser (next_id t) u e1 (bcrypt_hash (salt env1) p1) None None
                                    (now env1) (now env1))) ob in
  run_schedule cfg (sequential 2) ths (mkWorld t ob) =
    ([Answered (mkResponse 201 (RToken jwt (next_id t) u e1));
      Answered (fail_msg 400 msg_username_taken)], w') /\
  run_schedule cfg [0; 1; 0; 1] ths (mkWorld t ob) =
    ([Answered (mkResponse 201 (RToken jwt (next_id t) u e1));
      Answered (fail_msg 500 msg_server_error)], w').
Proof.
  intros Hu He1 He2 Hp1 Hp2 Hne Hf Hs ths w'.
  pose proof Hf as Hf1. apply Forall_and in Hf1 as [Hfu Hfe]. apply Forall_and in Hfe as [Hfe1 Hfe2].
  assert (Hnone : forall e, Forall (fun r => coll_eq (email r) e = false) (users t) ->
                  find_where (by_email_or_username e u) t = None).
  { intros e Hfe. apply find_none_forall. eapply Forall_impl; [apply Forall_and; split; [exact Hfe|exact Hfu]|].
    intros r [E1 E2]. unfold by_email_or_username. by rewrite E1, E2. }
  assert (Hcreated := step_register_created env1 u e1 p1 c1 t ob jwt Hu He1 Hp1
                        (proj2 (Forall_and _ _) (conj Hfu Hfe1)) Hs).
  unfold ths, sequential; cbn [seq flat_map app]; split;
    cbn [run_schedule lookup list_lookup]; rewrite step_register_lookup, Hnone by done;
    cbn [run_schedule lookup list_lookup insert list_insert].
  - rewrite Hcreated. cbn [run_schedule lookup list_lookup insert list_insert].
    rewrite step_answered. cbn [run_schedule lookup list_lookup insert list_insert].
    rewrite step_register_lookup, find_where_insert_row.
    + cbn [step_thread finish try_catch register_commit ret email]. unfold ret. cbn.
      by rewrite (proj2 (String.eqb_neq e1 e2) Hne).
    + eapply Forall_impl; [apply Forall_and; split; [exact Hfe2|exact Hfu]|].
      intros r [E1 E2]. unfold by_email_or_username. by rewrite E1, E2.
    + unfold by_email_or_username. by rewrite coll_refl, orb_true_r.
  - rewrite step_register_lookup, Hnone by done.
    cbn [run_schedule lookup list_lookup insert list_insert].
    rewrite Hcreated. cbn [run_schedule lookup list_lookup insert list_insert].
    rewrite (step_register_conflict _ _ _ _ _ _ _ (mkUser (next_id t) u e1 (bcrypt_hash (salt env1) p1)
                                                     None None (now env1) (now env1))); try done.
    + unfold insert_row; cbn [users]. apply elem_of_app. right. by left.
    + apply coll_refl.
Qed.
(** C17: Two [forgotPassword] calls for one email, the first of whose
    mails fails: when the second request saves its token and sends its
    mail between the first one's save and the first one's mail failure,
    the second answers 200 "Email enviado" and its link is in the
    outbox, but the first one's [catch] clears the reset fields of the
    row, so that link is refused with 400 "Token inválido o expirado"
    at any later time. *)
Theorem forgot_race_cancels_token envA envB e t ob x :
  find_where (by_email e) t = Some x ->
  digest_unused (reset_digest envA) t -> digest_unused (reset_digest envB) t ->
  mail_ok envA = false -> mail_ok envB = true ->
  exists t',
    run_schedule cfg [0; 1; 0; 1; 1; 0]
      [Ready (RForgot envA (mkBody None (Some e) None None));
       Ready (RForgot envB (mkBody None (Some e) None None))] (mkWorld t ob) =
      ([Answered (fail_msg 500 msg_email_failed); Answered (ok_msg 200 msg_email_sent)],
       mkWorld t' (ob ++ [mkMail (email x) reset_subject
                            (reset_message (reset_url envB (Js.hex (rand envB))))])%list) /\
    forall envC b ob',
      resetPassword cfg envC (Js.hex (rand envB)) b (mkWorld t' ob') =
        (inr (fail_msg 400 msg_bad_token), mkWorld t' ob').
Proof.
  intros Hf HdA HdB HmA HmB.
  assert (Hx : x ∈ users t) by (by apply find_where_some in Hf as [? _]).
  cbn [run_schedule lookup list_lookup]. rewrite (step_forgot_lookup _ _ e), Hf by done.
  cbn [run_schedule lookup list_lookup insert list_insert]. rewrite (step_forgot_lookup _ _ e), Hf by done.
  cbn [run_schedule lookup list_lookup insert list_insert].
  rewrite step_forgot_save by (by apply (digest_unused_not_row _ t)).
  cbn [run_schedule lookup list_lookup insert list_insert].
  rewrite step_forgot_save by (by apply (digest_unused_not_row _ t)).
  cbn [run_schedule lookup list_lookup insert list_insert].
  rewrite step_forgot_sent by done.
  cbn [run_schedule lookup list_lookup insert list_insert].
  rewrite step_forgot_mail_failed by done.
  cbn [run_schedule lookup list_lookup insert list_insert].
  eexists. split; [reflexivity|]. intros envC b ob'. apply reset_fail.
  apply find_none_forall, Forall_forall. intros r Hr.
  unfold by_reset_token. destruct (decide (id r = id x)) as [Hid|Hid].
  - assert (Htok : resetPasswordToken (with_updated (issued_row envA x) (now envA)) <> None) by done.
    by rewrite (update_row_cleared _ _ r _ _ Htok Hr Hid).
  - cbn [id with_updated issued_row with_reset] in Hr, Hid.
    apply update_row_other in Hr; [|done]. apply update_row_other in Hr; [|done].
    apply update_row_other in Hr; [|done].
    destruct (resetPasswordToken r) as [d|] eqn:Ed; [|done].
    destruct (resetPasswordExpire r); [|done]. fold (reset_digest envB). by rewrite (HdB r d Hr Ed).
Qed.
(** C18: The table invariant does not survive concurrent requests.
    Two [forgotPassword] calls for one email in the same millisecond,
    the first of whose mails fails: the second loads the row after the
    first one's save, the first one's [catch] then clears both reset
    fields, and the second one's [save] writes only the field that
    differs from what it loaded, the token, not the expiry.  The second
    answers 200 and mails its link, and the row ends holding a reset
    token with no expiry, which [table_wf] forbids (and which no
    sequence of [run_actions] produces, [run_action_wf]).  The model
    compares dates to the millisecond, as Sequelize does with what the
    database returned: the run needs date columns that keep milliseconds
    (SQLite, PostgreSQL, MySQL [DATETIME(3)]); with MySQL's default
    [DATETIME] the stored expiry loses them, and the second save skips
    the expiry only when the shared millisecond is a whole second. *)
Theorem forgot_race_breaks_invariant envA envB e t ob x :
  table_wf t -> find_where (by_email e) t = Some x ->
  resetPasswordToken x <> Some (reset_digest envA) -> reset_digest envA <> reset_digest envB ->
  now envA = now envB -> mail_ok envA = false -> mail_ok envB = true ->
  exists t',
    run_schedule cfg [0; 0; 1; 0; 1; 1]
      [Ready (RForgot envA (mkBody None (Some e) None None));
       Ready (RForgot envB (mkBody None (Some e) None None))] (mkWorld t ob) =
      ([Answered (fail_msg 500 msg_email_failed); Answered (ok_msg 200 msg_email_sent)],
       mkWorld t' (ob ++ [mkMail (email x) reset_subject
                            (reset_message (reset_url envB (Js.hex (rand envB))))])%list) /\
    (exists r, r ∈ users t' /\ id r = id x /\
       resetPasswordToken r = Some (reset_digest envB) /\ resetPasswordExpire r = None) /\
    ~ table_wf t'.
Proof.
  intros Hwf Hf HxA Hd Hnow HmA HmB.
  apply find_where_some in Hf as Hf'. destruct Hf' as [Hx Hxe].
  set (x2A := with_updated (issued_row envA x) (now envA)).
  set (t1 := update_row (id x) (apply_changes x (issued_row envA x) (now envA)) t).
  assert (Hsave : save x (issued_row envA x) (salt envA) (now envA) t = (inr x2A, t1)).
  { apply save_same_password; [done|]. intros E. apply HxA. by rewrite <- E. }
  assert (Hwf1 : table_wf t1) by (eapply save_wf; [exact Hwf|exact Hx|..|exact Hsave]; done).
  assert (Hx2A : x2A ∈ users t1).
  { unfold x2A, t1. rewrite <- (apply_changes_same x (issued_row envA x) (now envA)) by done. by apply update_row_in. }
  assert (Hf1 : find_where (by_email e) t1 = Some x2A).
  { apply find_where_key; [apply Hwf1|done|exact Hxe]. }
  subst x2A t1.
  cbn [run_schedule lookup list_lookup]. rewrite (step_forgot_lookup _ _ e), Hf by done.
  cbn [run_schedule lookup list_lookup insert list_insert].
  rewrite step_forgot_save by done.
  cbn [run_schedule lookup list_lookup insert list_insert]. rewrite (step_forgot_lookup _ _ e), Hf1 by done.
  cbn [run_schedule lookup list_lookup insert list_insert].
  rewrite step_forgot_mail_failed by done.
  cbn [run_schedule lookup list_lookup insert list_insert].
  rewrite step_forgot_save by (cbn; congruence).
  cbn [run_schedule lookup list_lookup insert list_insert].
  rewrite step_forgot_sent by done.
  cbn [run_schedule lookup list_lookup insert list_insert].
  set (x2A := with_updated (issued_row envA x) (now envA)).
  set (t2 := update_row (id x2A) (apply_changes x2A (with_reset x2A None None) (now envA))
                (update_row (id x) (apply_changes x (issued_row envA x) (now envA)) t)).
  set (r := apply_changes x2A (issued_row envB x2A) (now envB)
              (apply_changes x2A (with_reset x2A None None) (now envA) x2A)).
  assert (Hr : resetPasswordToken r = Some (reset_digest envB) /\ resetPasswordExpire r = None).
  { subst r x2A. cbn. unfold pick. rewrite Hnow.
    rewrite !decide_False by congruence. by rewrite decide_True. }
  eexists. split; [reflexivity|].
  assert (Hin : r ∈ users (update_row (id x2A) (apply_changes x2A (issued_row envB x2A) (now envB)) t2)).
  { apply update_row_in; [|done]. by apply update_row_in. }
  split.
  - exists r. split_and!; [exact Hin|done|apply Hr|apply Hr].
  - intros [Hrows _]. rewrite Forall_forall in Hrows. destruct (Hrows r Hin) as (_ & Hok & _).
    destruct Hr as [Ht He]. apply Hok in He. congruence.
Qed.
End Split.

(** ** The invariant under interleaving *)

Section Invariant.
Context `{PasswordHasher} `{EmailCheck} `{Collation} `{Digest} `{Mac}.
Context (cfg : Config).

Lemma register_lookup_world b w : snd (register_lookup b w) = w.
Proof.
  unfold register_lookup. st_unfold. unfold on_table, where_value, findOne.
  destruct w. by destruct (b_email b), (b_username b).
Qed.

Lemma reset_lookup_run env tok w :
  reset_lookup env tok w = (inr (find_where (by_reset_token (sha256_hex tok) (now env)) (table w)), w).
Proof. by destruct w. Qed.

Lemma register_commit_wf env b x :
  hoare (fun w => table_wf (table w)) (try_catch (register_commit cfg env b x) register_catch)
    (fun _ w => table_wf (table w)).
Proof.
  eapply hoare_try with (R := fun _ w => table_wf (table w));
    [|intros ex; unfold register_catch; case_match; by apply hoare_ret|done].
  destruct x as [[e u] [y|]]; cbn [register_commit].
  - case_if; by apply hoare_ret.
  - eapply hoare_bind; [apply on_table_spec, create_spec|intros user; apply sendTokenResponse_spec|done].
Qed.

(** The commit of [resetPassword] keeps the invariant for an instance
    loaded with both reset fields set, however stale it is by then. *)
Lemma reset_commit_wf env b x :
  resetPasswordToken x <> None -> resetPasswordExpire x <> None ->
  hoare (fun w => table_wf (table w)) (try_catch (reset_commit cfg env b (Some x)) reset_catch)
    (fun _ w => table_wf (table w)).
Proof.
  intros Ht Hx. eapply hoare_try with (R := fun _ w => table_wf (table w));
    [|intros ex; by apply hoare_ret|done].
  cbn [reset_commit]. destruct (b_password b) as [p|]; [|by apply hoare_throw].
  eapply hoare_bind with (R := fun _ w => table_wf (table w));
    [apply (on_table_spec table_wf _ (fun _ t => table_wf t))|intros x2; apply sendTokenResponse_spec|done].
  intros t r t' Hwf Hs. eapply save_wf_stale; [exact Hwf| | | |exact Hs].
  - by repeat split.
  - by apply with_reset_ok.
  - cbn. split; intros E; exfalso; [apply Ht|apply Hx]; by rewrite <- E.
Qed.

(** What a thread may hold: no [forgotPassword], and a reset instance
    found by its token has both reset fields set. *)
Definition thread_ok (th : Thread) : Prop :=
  match th with
  | Ready (RForgot _ _) | ForgotLooked _ _ | ForgotSaved _ _ _ => False
  | ResetLooked _ _ (Some x) => resetPasswordToken x <> None /\ resetPasswordExpire x <> None
  | _ => True
  end.

Lemma outcome_ok r : thread_ok (outcome r).
Proof. by destruct r. Qed.

Lemma step_thread_ok th w th' w' :
  table_wf (table w) -> thread_ok th -> step_thread cfg th w = (th', w') ->
  table_wf (table w') /\ thread_ok th'.
Proof.
  intros Hw Hok Hs.
  destruct th as [[env b|env tok b|env b]|env b x|env b [x|]|env x|env x tok|resp|ex];
    cbn [thread_ok] in Hok; try contradiction; cbn [step_thread] in Hs.
  - pose proof (register_lookup_world b w) as Ew.
    destruct (register_lookup b w) as [[ex|x] w1]; cbn in Ew; subst w1; [|by injection Hs as <- <-].
    destruct ex; cbn in Hs; by injection Hs as <- <-.
  - rewrite reset_lookup_run in Hs. injection Hs as <- <-. split; [done|]. cbn.
    destruct (find_where _ _) as [x|] eqn:Ef; [|done].
    apply find_where_some in Ef as [_ Hp]. unfold by_reset_token in Hp.
    by destruct (resetPasswordToken x), (resetPasswordExpire x).
  - unfold finish in Hs. destruct (try_catch _ _ w) as [r w1] eqn:E. injection Hs as <- <-.
    split; [eapply register_commit_wf; [exact Hw|exact E]|apply outcome_ok].
  - unfold finish in Hs. destruct (try_catch _ _ w) as [r w1] eqn:E. injection Hs as <- <-.
    split; [eapply reset_commit_wf; [apply Hok|apply Hok|exact Hw|exact E]|apply outcome_ok].
  - cbn in Hs. by injection Hs as <- <-.
  - by injection Hs as <- <-.
  - by injection Hs as <- <-.
Qed.

Lemma run_schedule_ok sched ths w :
  Forall thread_ok ths -> table_wf (table w) ->
  Forall thread_ok (fst (run_schedule cfg sched ths w)) /\ table_wf (table (snd (run_schedule cfg sched ths w))).
Proof.
  revert ths w. induction sched as [|i sched IH]; intros ths w Hths Hw; cbn [run_schedule]; [done|].
  destruct (ths !! i) as [th|] eqn:Ei; [|by apply IH].
  destruct (step_thread cfg th w) as [th' w'] eqn:Es.
  destruct (step_thread_ok th w th' w' Hw (Forall_lookup_1 _ _ _ _ Hths Ei) Es).
  apply IH; [by apply Forall_insert|done].
Qed.
(** C19: Without [forgotPassword], the table invariant holds under
    every interleaving: for any requests to [register] and
    [resetPassword] and any schedule of their phases, a well-formed
    table stays well-formed.  [create] is checked against the table of
    its own moment (the unique indexes), and the UPDATE of a reset
    writes both reset fields and a bcrypt hash, however stale the
    instance it saves. *)
Theorem schedule_keeps_invariant reqs sched w :
  Forall (fun r => match r with RForgot _ _ => False | _ => True end) reqs ->
  table_wf (table w) ->
  table_wf (table (snd (run_schedule cfg sched (map Ready reqs) w))).
Proof.
  intros Hreqs Hw. apply run_schedule_ok; [|done].
  apply Forall_map. eapply Forall_impl; [exact Hreqs|]. by intros [].
Qed.
End Invariant.

End Concurrency.
