(* ===== verification/Routes.v ===== *)
(** * The [protect] middleware, the router and the server

    Models [src/Backend/middleware/auth.js] ([protect]: the
    [Authorization: Bearer <jwt>] header, [jwt.verify], [findByPk]),
    [src/Backend/routes/authRoutes.js] (each path to its validator or
    middleware and handler) and the request handling of
    [src/Backend/server.js] (the [OPTIONS] preflight answer, [/test],
    [/], the mount point [/api/auth] and Express's 404).  Express matches
    paths without regard to letter case and accepts one trailing slash.
    The properties characterise what [protect] admits, the answer of
    [GET /api/auth/me] to an issued token, and the reset route's answer
    to a body without [confirmPassword]. *)

From S2P Require Import Prelude JsString Crypto Jwt UserModel AuthController Validators.
From stdpp Require Import list.
From Stdlib Require Import Ascii Strings.String NArith.
Import ListNotations.
Open Scope string_scope.

Module Routes.
Import UserModel AuthController Validators.

Definition msg_unauthorized := "No estás autorizado para acceder a esta ruta".
Definition msg_user_not_found := "Usuario no encontrado".

(** The token of an [Authorization] header: the header must start with
    ["Bearer"], and the token is the second piece of [split(' ')]. *)
Definition bearer_token (authorization : option string) : option string :=
  match authorization with
  | Some h => if Js.starts_with h "Bearer" then Js.at_index (Js.split_sp h) 1 else None
  | None => None
  end.

Section Protect.
Context `{PasswordHasher} `{EmailCheck} `{Collation} `{Digest} `{Mac}.
Context (cfg : Config) (env : Env).

(** [protect]: [inl] is the 401 answer, [inr uid] sets [req.user]
    and calls [next()]. *)
Definition protect (authorization : option string) : St World Exn (Response + N) :=
  let token := bearer_token authorization in
  if Js.falsy token then ret (inl (fail_msg 401 msg_unauthorized)) else
  try_catch (
    decoded <- lift (match Jwt.verify (default "" token) (JWT_SECRET cfg) (now env) with
                     | inl e => inl (JwtFailure e)
                     | inr c => inr c
                     end) ;;
    user <- on_table (findOne (by_pk (Jwt.cl_id decoded))) ;;
    match user with
    | None => ret (inl (fail_msg 401 msg_user_not_found))
    | Some u => ret (inr (id u))
    end)
  (fun _ => ret (inl (fail_msg 401 msg_unauthorized))).

(** A route behind [protect]. *)
Definition protected (authorization : option string) (k : N -> St World Exn Response)
    : St World Exn Response :=
  r <- protect authorization ;;
  match r with
  | inl resp => ret resp
  | inr uid => k uid
  end.
End Protect.

(** ** Requests and path matching *)

Record Request := mkRequest {
  method : string;
  path : string;
  authorization : option string;
  req_body : Body
}.

(** The segments after the leading ['/'], without one trailing empty one. *)
Definition segments (p : string) : option (list string) :=
  match Js.split_on "/"%char p with
  | "" :: segs =>
      match rev segs with
      | "" :: rsegs => Some (rev rsegs)
      | _ => Some segs
      end
  | _ => None
  end.

(** A fixed path segment, matched without regard to case. *)
Definition seg_is (s lit : string) : bool := String.eqb (Js.to_lower_case s) lit.

(** Express's default answer for an unmatched route. *)
Definition not_found (r : Request) : Response :=
  mkResponse 404 (RText ("Cannot " ++ method r ++ " " ++ path r)).

Section Router.
Context `{PasswordHasher} `{EmailCheck} `{Collation} `{Digest} `{Mac}.
Context (cfg : Config) (env : Env).

(** [authRoutes] mounted at [/api/auth]. *)
Definition auth_routes (r : Request) (rest : list string) : option (St World Exn Response) :=
  let b := req_body r in
  match method r, rest with
  | "POST", [s] =>
      if seg_is s "register" then Some (guard (validateRegister b) (register cfg env b))
      else if seg_is s "login" then Some (guard (validateLogin b) (login cfg env b))
      else if seg_is s "forgot-password" then
        Some (guard (validateForgotPassword b) (forgotPassword env b))
      else None
  | "PUT", [s; tok] =>
      if seg_is s "reset-password" && negb (String.eqb tok "") then
        Some (guard (validateResetPassword b) (resetPassword cfg env tok b))
      else None
  | "GET", [s] =>
      if seg_is s "me" then Some (protected cfg env (authorization r) getMe)
      else if seg_is s "logout" then Some (protected cfg env (authorization r) (fun _ => logout))
      else None
  | _, _ => None
  end.

(** [server.js]: the preflight answer, the routes, the 404.
    [app.use(cors())] comes first, and [cors()] with its defaults
    ([preflightContinue: false], [optionsSuccessStatus: 204]) ends every
    [OPTIONS] request with 204 and an empty body; the custom middleware
    with its [res.status(200).end()] for [OPTIONS] never sees one. *)
Definition server (r : Request) : St World Exn Response :=
  if String.eqb (method r) "OPTIONS" then ret (mkResponse 204 REmpty) else
  match segments (path r) with
  | Some (a :: s :: rest) =>
      if seg_is a "api" && seg_is s "auth" then
        match auth_routes r rest with Some m => m | None => ret (not_found r) end
      else ret (not_found r)
  | Some [s] =>
      if String.eqb (method r) "GET" && seg_is s "test" then ret (mkResponse 200 (RTest (now env)))
      else ret (not_found r)
  | Some [] =>
      if String.eqb (method r) "GET" then ret (mkResponse 200 (RText "API funcionando correctamente"))
      else ret (not_found r)
  | None => ret (not_found r)
  end.
End Router.

(** ** The application: body parsing and the error middleware

    [express.json()] runs before the routes (after the CORS middleware
    that answers [OPTIONS]); a body it cannot parse is passed to the
    error middleware with [next(err)].  A raw request's body is [None]
    when it is not valid JSON. *)
Record RawRequest := mkRaw {
  raw_method : string;
  raw_path : string;
  raw_authorization : option string;
  raw_body : option Body
}.

Definition msg_something_wrong := "Algo salió mal!".

(** [process.env.NODE_ENV === 'development'] *)
Definition is_development (node_env : option string) : bool :=
  match node_env with Some v => String.eqb v "development" | None => false end.

(** The error middleware of [server.js]: 500 with [err.message] only in
    development. *)
Definition error_handler (node_env : option string) (err_message : string) : Response :=
  mkResponse 500 (if is_development node_env then RMessageErr msg_something_wrong err_message
                  else RMessage false msg_something_wrong).

Section App.
Context `{PasswordHasher} `{EmailCheck} `{Collation} `{Digest} `{Mac}.
Context (cfg : Config) (env : Env) (node_env : option string).

(** [app]: the CORS preflight answer, [express.json()], then the routes
    ([server]); [parse_error] is the parser's [err.message]. *)
Definition app (parse_error : string) (r : RawRequest) : St World Exn Response :=
  if String.eqb (raw_method r) "OPTIONS" then ret (mkResponse 204 REmpty) else
  match raw_body r with
  | None => ret (error_handler node_env parse_error)
  | Some b => server cfg env (mkRequest (raw_method r) (raw_path r) (raw_authorization r) b)
  end.
End App.

(** ** Properties *)

(** Any header whose first word starts with [Bearer] yields its second
    word: ["Bearerxyz <t>"] is read as ["Bearer <t>"]. *)
Lemma bearer_token_app (x t : string) :
  Js.no_space x = true -> Js.no_space t = true ->
  bearer_token (Some ("Bearer" ++ x ++ String Js.space t)) = Some t.
Proof.
  intros Hx Ht. unfold bearer_token.
  rewrite starts_with_app, <- (string_app_assoc "Bearer"), split_sp_app, split_sp_no_space;
    [reflexivity|done|].
  unfold Js.no_space in *. by rewrite no_char_app, Hx.
Qed.

(** The header the client sends: [Bearer <token>]. *)
Lemma bearer_token_std (t : string) :
  Js.no_space t = true -> bearer_token (Some ("Bearer " ++ t)) = Some t.
Proof. exact (bearer_token_app "" t eq_refl). Qed.

(** The path of the reset route for a token without ['/']. *)
Lemma reset_segments (token : string) :
  token <> "" -> Js.no_char "/" token = true ->
  segments ("/api/auth/reset-password/" ++ token) = Some ["api"; "auth"; "reset-password"; token].
Proof.
  intros Hne Hsl. unfold segments.
  change ("/api/auth/reset-password/" ++ token) with
    ("" ++ String "/" ("api" ++ String "/" ("auth" ++ String "/" ("reset-password" ++ String "/" token)))).
  rewrite !split_on_app, split_on_no_char by done.
  destruct token; [done|reflexivity].
Qed.

Section RouteProperties.
Context `{PasswordHasher} `{EmailCheck} `{Collation} `{Digest} `{Mac}.
Context (cfg : Config) (env : Env).

(** [protect] on the header carrying a token issued for a row. *)
Lemma protect_issued t0 u tok c w :
  table_wf (table w) -> u ∈ users (table w) ->
  Jwt.sign (id u) (username u) (JWT_SECRET cfg) (JWT_EXPIRE cfg) t0 = inr tok ->
  Jwt.sign_claims (id u) (username u) (JWT_EXPIRE cfg) t0 = inr c ->
  protect cfg env (Some ("Bearer " ++ tok)) w =
    (inr (if Jwt.expired c (now env) then inl (fail_msg 401 msg_unauthorized) else inr (id u)), w).
Proof.
  intros Hwf Hu Hs Hc.
  destruct (Jwt.sign_verify _ _ _ _ _ (now env) _ Hs) as (c' & Hc' & Hid & _ & Hv).
  rewrite Hc in Hc'. injection Hc' as <-.
  destruct (Jwt.sign_bearer_safe _ _ _ _ _ _ Hs) as [Hne Hsp].
  unfold protect. rewrite bearer_token_std by done.
  rewrite falsy_some by done. cbn [default Datatypes.id]. rewrite Hv.
  destruct (Jwt.expired c (now env)); [done|]. destruct w as [t ob].
  cbn in Hwf, Hu. st_unfold. unfold on_table, findOne. cbn -[find_where].
  by rewrite Hid, find_by_pk.
Qed.

Lemma server_me a b : server cfg env (mkRequest "GET" "/api/auth/me" a b) = protected cfg env a getMe.
Proof. reflexivity. Qed.

Lemma server_register a b :
  server cfg env (mkRequest "POST" "/api/auth/register" a b) = guard (validateRegister b) (register cfg env b).
Proof. reflexivity. Qed.

Lemma getMe_found u w :
  table_wf (table w) -> u ∈ users (table w) ->
  getMe (id u) w = (inr (mkResponse 200 (RData (Some (profile_of u)))), w).
Proof.
  destruct w as [t ob]. intros Hwf Hu. cbn in Hwf, Hu.
  unfold getMe. st_unfold. unfold on_table, findOne. cbn -[find_where].
  by rewrite find_by_pk.
Qed.

(** [protect] always answers, without throwing and without a write. *)
Lemma protect_total a w : exists r, protect cfg env a w = (inr r, w).
Proof.
  unfold protect. destruct (Js.falsy (bearer_token a)); [by eexists|].
  destruct w as [t ob]. st_unfold. unfold on_table, findOne.
  destruct (Jwt.verify _ _ _); cbn -[find_where]; [by eexists|].
  destruct (find_where _ t); by eexists.
Qed.

Lemma protect_no_throw a : no_throw (protect cfg env a).
Proof.
  intros w r w' _ Hp. destruct (protect_total a w) as [x Hx]. rewrite Hx in Hp.
  injection Hp as <- _. eauto.
Qed.

Lemma protected_no_throw a k : (forall uid, no_throw (k uid)) -> no_throw (protected cfg env a k).
Proof.
  intros Hk. apply no_throw_bind; [apply protect_no_throw|].
  intros [resp|uid]; [apply no_throw_ret|apply Hk].
Qed.

Lemma guard_no_throw errs m : no_throw m -> no_throw (guard errs m).
Proof. destruct errs; [done|intros _; apply no_throw_ret]. Qed.

Lemma auth_routes_no_throw r rest m : auth_routes cfg env r rest = Some m -> no_throw m.
Proof.
  destruct (handlers_no_throw cfg env) as (Hr & Hl & Hm & Hf & Hp & Ho).
  unfold auth_routes. repeat case_match; intros [= <-];
    auto using guard_no_throw, protected_no_throw.
Qed.

(** The answers [protect] gives itself are typed. *)
Lemma protect_typed a :
  returns (fun r => match r with inl resp => typed_answer resp | inr _ => True end) (protect cfg env a).
Proof. unfold protect. returns_steps; done. Qed.

Lemma protected_typed a k :
  (forall uid, returns typed_answer (k uid)) -> returns typed_answer (protected cfg env a k).
Proof.
  intros Hk. eapply returns_bind_with; [apply protect_typed|].
  intros [resp|uid] Hr; [by apply returns_ret|apply Hk].
Qed.

Lemma guard_typed errs m : returns typed_answer m -> returns typed_answer (guard errs m).
Proof. destruct errs; [done|intros _; by apply returns_ret]. Qed.

Lemma auth_routes_typed r rest m : auth_routes cfg env r rest = Some m -> returns typed_answer m.
Proof.
  destruct (handlers_typed cfg env) as (Hr & Hl & Hm & Hf & Hp & Ho).
  unfold auth_routes. repeat case_match; intros [= <-]; auto using guard_typed, protected_typed.
Qed.

(** The router never lets an exception escape. *)
Lemma server_no_throw r : no_throw (server cfg env r).
Proof.
  unfold server. case_if; [apply no_throw_ret|].
  repeat case_match; try apply no_throw_ret.
  - eapply auth_routes_no_throw; eassumption.
Qed.

Lemma server_logout a b :
  server cfg env (mkRequest "GET" "/api/auth/logout" a b) = protected cfg env a (fun _ => logout).
Proof. reflexivity. Qed.

Lemma server_login a b :
  server cfg env (mkRequest "POST" "/api/auth/login" a b) = guard (validateLogin b) (login cfg env b).
Proof. reflexivity. Qed.

(** Past the preflight and the body parser, [app] is the router. *)
Lemma app_server node_env parse_error m p a b :
  m <> "OPTIONS" ->
  app cfg env node_env parse_error (mkRaw m p a (Some b)) = server cfg env (mkRequest m p a b).
Proof. intros Hm. unfold app. cbn [raw_method raw_body]. by destruct (String.eqb_spec m "OPTIONS"). Qed.

Lemma app_no_throw node_env parse_error r : no_throw (app cfg env node_env parse_error r).
Proof.
  unfold app. case_if; [apply no_throw_ret|].
  destruct (raw_body r); [apply server_no_throw|apply no_throw_ret].
Qed.

(** A [PUT] on the reset route whose body has no [confirmPassword]
    is answered 400 by [validateResetPassword], whatever the password:
    the handler never runs. *)
Lemma server_reset_unconfirmed token a u e p :
  token <> "" -> Js.no_char "/" token = true ->
  server cfg env (mkRequest "PUT" ("/api/auth/reset-password/" ++ token) a (mkBody u e (Some p) None)) =
    ret (mkResponse 400 (RErrors (check_password (Some p) ++
                                  [("confirmPassword", "Las contraseñas no coinciden")]))).
Proof.
  intros Hne Hsl. unfold server. cbn [method path String.eqb Ascii.eqb Bool.eqb].
  rewrite reset_segments by done. cbn -[check_password].
  destruct (String.eqb_spec token "") as [|_]; [done|]. cbn -[check_password].
  unfold validateResetPassword, guard. cbn -[check_password].
  by destruct (check_password (Some p)).
Qed.

(** C6: [protect] lets a request through only with a header whose
    token is [header.payload.signature] where the signature is the
    HMAC, under the server's [JWT_SECRET], of [header.payload], the
    payload decodes to claims that have not expired, and their [id]
    names a row of the table, which becomes [req.user]; it changes
    nothing. *)
Theorem protect_sound a w uid w' :
  protect cfg env a w = (inr (inr uid), w') ->
  w' = w /\ exists tok k p c u, bearer_token a = Some tok /\ JWT_SECRET cfg = Some k /\
    tok = (Jwt.jwt_header ++ String Jwt.dot p) ++
            String Jwt.dot (Jwt.signature k (Jwt.jwt_header ++ String Jwt.dot p)) /\
    Jwt.decode_claims p = Some c /\ Jwt.expired c (now env) = false /\
    u ∈ users (table w) /\ id u = uid /\ Jwt.cl_id c = uid.
Proof.
  unfold protect. destruct (bearer_token a) as [tok|] eqn:Hb; [|by intros [=]].
  destruct (Js.falsy (Some tok)); [by intros [=]|]. cbn [default Datatypes.id].
  destruct w as [t ob]. st_unfold. unfold on_table, findOne.
  destruct (Jwt.verify tok _ _) as [e|c] eqn:Hv; cbn -[find_where]; [by intros [=]|].
  destruct (find_where _ t) as [u|] eqn:Hf; [|by intros [=]]. intros [= <- <-].
  apply find_where_some in Hf as [Hu Hid%N.eqb_eq].
  destruct (JWT_SECRET cfg) as [k|] eqn:Hk; [|done].
  destruct (Jwt.verify_sound _ _ _ _ Hv) as (p & Htok & Hd & He).
  split; [done|]. exists tok, k, p, c, u. auto 10.
Qed.

(** C12: A token issued under one secret is refused by [protect] with
    401 by a server whose [JWT_SECRET] is a different non-empty secret. *)
Theorem protect_other_secret u k ex t0 tok w :
  Jwt.sign (id u) (username u) (Some k) ex t0 = inr tok ->
  forall k', JWT_SECRET cfg = Some k' -> k' <> "" -> k' <> k ->
  protect cfg env (Some ("Bearer " ++ tok)) w = (inr (inl (fail_msg 401 msg_unauthorized)), w).
Proof.
  intros Hs k' Hk' Hne Hdiff.
  destruct (Jwt.sign_bearer_safe _ _ _ _ _ _ Hs) as [Htne Hsp].
  unfold protect. rewrite bearer_token_std, falsy_some by done. cbn [default Datatypes.id].
  rewrite Hk', (Jwt.verify_other_secret _ _ _ _ _ _ _ _ Hs) by done. done.
Qed.

(** C9: [POST /api/auth/register] with a body whose username and
    email are free, not blank and pass the model's validators, whose
    password passes them and whose [confirmPassword] equals it, passes
    [validateRegister], inserts the row with the next id and the bcrypt
    hash of the password, and answers 201 with a token for it. *)
Theorem register_route_fresh a u e p t ob tok :
  validate_username u = [] -> Js.trim u <> "" ->
  validate_email e = [] -> Js.trim e <> "" -> validate_password p = [] ->
  Forall (fun r => coll_eq (username r) u = false /\ coll_eq (email r) e = false) (users t) ->
  Jwt.sign (next_id t) u (JWT_SECRET cfg) (JWT_EXPIRE cfg) (now env) = inr tok ->
  server cfg env (mkRequest "POST" "/api/auth/register" a (mkBody (Some u) (Some e) (Some p) (Some p)))
    (mkWorld t ob) =
    (inr (mkResponse 201 (RToken tok (next_id t) u e)),
     mkWorld (insert_row t (mkUser (next_id t) u e (bcrypt_hash (salt env) p) None None
                              (now env) (now env))) ob).
Proof.
  intros Hu Htu He Hte Hp Hf Hs.
  rewrite server_register, validateRegister_accepts by done. by apply register_success.
Qed.

(** [GET /api/auth/me] with a token issued for a row. *)
Lemma server_me_issued t0 u tok c b w :
  table_wf (table w) -> u ∈ users (table w) ->
  Jwt.sign (id u) (username u) (JWT_SECRET cfg) (JWT_EXPIRE cfg) t0 = inr tok ->
  Jwt.sign_claims (id u) (username u) (JWT_EXPIRE cfg) t0 = inr c ->
  server cfg env (mkRequest "GET" "/api/auth/me" (Some ("Bearer " ++ tok)) b) w =
    (inr (if Jwt.expired c (now env) then fail_msg 401 msg_unauthorized
          else mkResponse 200 (RData (Some (profile_of u)))), w).
Proof.
  intros Hwf Hu Hs Hc. rewrite server_me. unfold protected, bind.
  rewrite (protect_issued t0 u tok c) by done.
  destruct (Jwt.expired c (now env)); [done|]. by apply getMe_found.
Qed.

(** C7: [GET /api/auth/me] with the header [Bearer <token>], for a
    token issued to a row of a well-formed table, answers 200 with
    that row's profile until the token expires and 401 after; the
    world is unchanged. *)
Theorem me_route_issued_token t0 u tok c b w :
  table_wf (table w) -> u ∈ users (table w) ->
  Jwt.sign (id u) (username u) (JWT_SECRET cfg) (JWT_EXPIRE cfg) t0 = inr tok ->
  Jwt.sign_claims (id u) (username u) (JWT_EXPIRE cfg) t0 = inr c ->
  server cfg env (mkRequest "GET" "/api/auth/me" (Some ("Bearer " ++ tok)) b) w =
    (inr (if Jwt.expired c (now env) then fail_msg 401 msg_unauthorized
          else mkResponse 200 (RData (Some (profile_of u)))), w).
Proof. apply server_me_issued. Qed.

(** [protect] only checks that the header starts with [Bearer]:
    a header whose first word is [Bearer] followed by any other
    characters is treated as [Bearer <token>]. *)
Theorem protect_bearer_prefix x tok w :
  Js.no_space x = true -> Js.no_space tok = true ->
  protect cfg env (Some ("Bearer" ++ x ++ String Js.space tok)) w =
    protect cfg env (Some ("Bearer " ++ tok)) w.
Proof. intros Hx Ht. unfold protect. by rewrite bearer_token_app, bearer_token_std. Qed.
(** C36: The type of the API's answers: an [OPTIONS] request gets the
    empty 204 of [cors()]; every other answer of the server has one of
    the status codes 200, 201, 400, 401, 404 and 500, and its body is
    JSON except for the two answers the code sends otherwise: the text
    of [/], and Express's 404 page for a path no route matches. *)
Theorem server_answers_typed r w resp w' :
  server cfg env r w = (inr resp, w') ->
  (method r = "OPTIONS" /\ resp = mkResponse 204 REmpty) \/
  (api_status (status resp) = true /\
   (json_body (body resp) = false ->
    resp = mkResponse 200 (RText "API funcionando correctamente") \/ resp = not_found r)).
Proof.
  unfold server. destruct (String.eqb_spec (method r) "OPTIONS") as [Ho|Ho];
    [intros [= <- <-]; by left|].
  intros Hs. right. revert Hs.
  repeat case_match; intros Hs; try (injection Hs as <- <-; split; [done|intros ?; first [discriminate|auto]]).
  all: destruct (returns_run _ _ _ _ _ (auth_routes_typed _ _ _ ltac:(eassumption)) Hs) as [Ha Hj].
  all: split; [done|congruence].
Qed.

(** C30: Every request is answered: no exception escapes a handler,
    the middleware or the router, so [server] always ends with a
    response; a body that is not JSON gets the error middleware's 500
    [Algo salió mal!], with the parser's message only in development. *)
Theorem app_answers node_env parse_error r w :
  exists resp w', app cfg env node_env parse_error r w = (inr resp, w') /\
    (raw_method r <> "OPTIONS" -> raw_body r = None ->
     resp = error_handler node_env parse_error /\ w' = w).
Proof.
  unfold app. destruct (String.eqb_spec (raw_method r) "OPTIONS") as [Ho|Ho].
  { exists (mkResponse 204 REmpty), w. split; [done|by intros []]. }
  destruct (raw_body r) as [b|].
  - destruct (no_throw_run _ w (server_no_throw
      (mkRequest (raw_method r) (raw_path r) (raw_authorization r) b))) as (resp & w' & Hs).
    exists resp, w'. split; [done|by intros _ ?].
  - by eexists _, _.
Qed.
End RouteProperties.
End Routes.
