(* ===== verification/Frontend.v ===== *)
(** * The Next.js client: API proxies and the authentication context

    Models the proxy handlers under [src/FrontEnd/Pages/api/auth/]
    ([login.js], [register.js], [me.js], [logout.js],
    [reset-password/[token].js]), which check the method, forward the
    call to the backend ([Routes.server]) and pass its status and JSON
    body back, and the operations of [src/FrontEnd/context/AuthContext.js]
    ([login], [register], [logout], [forgotPassword], [resetPassword],
    [checkUserLoggedIn], run once when [AuthProvider] mounts) over the
    client state ([user], [loading],
    [error], the token in [localStorage], the current route).  Whether
    the backend is reachable is an input of each call.  The browser's
    [fetch('/api/...')] goes through [next_api], the table of the
    routes that exist under [Pages/api/auth/]; any other path gets
    Next.js's 404 page.  The properties show that the client's password
    reset and forgot-password requests can never succeed and that logout
    always clears the session. *)

From S2P Require Import Prelude JsString Crypto Jwt UserModel AuthController Validators Routes.
From Stdlib Require Import Ascii Strings.String.
Import ListNotations.
Open Scope string_scope.

Module Frontend.
Import UserModel AuthController Validators Routes.

Definition msg_method := "Método no permitido".
Definition msg_bad_json := "Respuesta inválida del servidor backend".
Definition msg_unreachable := "Error al comunicarse con el servidor backend".
Definition msg_no_auth := "No se proporcionó token de autorización".
Definition msg_no_reset_token := "No se proporcionó token de restablecimiento".
Definition msg_not_authenticated := "Usuario no autenticado".

(** The reply as [JSON.parse(await response.text())] sees it: only the
    answers with a JSON body parse. *)
Definition parses (b : ResBody) : bool := json_body b.

(** [res.status(response.status).json(data)], or 500 when the text is
    not JSON. *)
Definition pass_back (r : Response) : Response :=
  if parses (body r) then r else fail_msg 500 msg_bad_json.

Section Proxies.
Context `{PasswordHasher} `{EmailCheck} `{Collation} `{Digest} `{Mac}.
Context (cfg : Config) (env : Env).
(** [fetch] reaches the backend, or rejects with this message. *)
Context (reachable : bool) (fetch_error : string).

Definition unreachable_reply : Response :=
  mkResponse 500 (RMessageErr msg_unreachable fetch_error).

(** [fetch(`${API_URL}${path}`, ...)] and the answer passed back. *)
Definition forwarded (m p : string) (authz : option string) (b : Body) : St World Exn Response :=
  if reachable then
    r <- server cfg env (mkRequest m p authz b) ;; ret (pass_back r)
  else ret unreachable_reply.

(** [api/auth/login.js] *)
Definition proxy_login (r : Request) : St World Exn Response :=
  if negb (String.eqb (method r) "POST") then ret (fail_msg 405 msg_method) else
  forwarded "POST" "/api/auth/login" None (req_body r).

(** [api/auth/register.js]: [confirmPassword] is forwarded only when
    truthy. *)
Definition register_payload (b : Body) : Body :=
  mkBody (b_username b) (b_email b) (b_password b)
    (if Js.falsy (b_confirmPassword b) then None else b_confirmPassword b).

Definition proxy_register (r : Request) : St World Exn Response :=
  if negb (String.eqb (method r) "POST") then ret (fail_msg 405 msg_method) else
  forwarded "POST" "/api/auth/register" None (register_payload (req_body r)).

(** [api/auth/me.js]: an empty reply is "not authenticated". *)
Definition proxy_me (r : Request) : St World Exn Response :=
  if negb (String.eqb (method r) "GET") then ret (fail_msg 405 msg_method) else
  match authorization r with
  | None => ret (fail_msg 401 msg_no_auth)
  | Some h =>
      if reachable then
        resp <- server cfg env (mkRequest "GET" "/api/auth/me" (Some h) (mkBody None None None None)) ;;
        ret (match body resp with
             | REmpty => fail_msg 401 msg_not_authenticated
             | _ => pass_back resp
             end)
      else ret unreachable_reply
  end.

(** [api/auth/logout.js]: every failure still reports success. *)
Definition proxy_logout (r : Request) : St World Exn Response :=
  if negb (String.eqb (method r) "GET") then ret (fail_msg 405 msg_method) else
  match authorization r with
  | None => ret (fail_msg 401 msg_no_auth)
  | Some h =>
      if reachable then
        resp <- server cfg env (mkRequest "GET" "/api/auth/logout" (Some h) (mkBody None None None None)) ;;
        ret (if parses (body resp) then resp else ok_msg 200 msg_logout)
      else ret (ok_msg 200 msg_logout)
  end.

(** [api/auth/reset-password/[token].js] *)
Definition proxy_reset (r : Request) (token : option string) : St World Exn Response :=
  if negb (String.eqb (method r) "PUT") then ret (fail_msg 405 msg_method) else
  if Js.falsy token then ret (fail_msg 400 msg_no_reset_token) else
  forwarded "PUT" ("/api/auth/reset-password/" ++ default "" token) None (req_body r).
End Proxies.

(** ** The client state of [AuthProvider] *)

Record PublicUser := mkPublicUser { pu_id : N; pu_username : string; pu_email : string }.

Record ClientState := mkClient {
  user : option PublicUser;
  loading : bool;
  error : option string;
  stored_token : option string;   (* localStorage 'token' *)
  location : string               (* router.push target *)
}.

(** [res.ok] *)
Definition is_ok (st : N) : bool := (200 <=? st)%N && (st <? 300)%N.

Definition message_of (b : ResBody) : option string :=
  match b with
  | RMessage _ m | RMessageErr m _ => Some m
  | _ => None
  end.

(** [data.message || fallback] *)
Definition message_or (b : ResBody) (fallback : string) : string :=
  match message_of b with
  | Some m => if String.eqb m "" then fallback else m
  | None => fallback
  end.

(** The [user] and [token] fields of a success answer. *)
Definition user_of (b : ResBody) : option PublicUser :=
  match b with
  | RToken _ i u e => Some (mkPublicUser i u e)
  | _ => None
  end.

Definition token_of (b : ResBody) : option string :=
  match b with
  | RToken t _ _ _ => Some t
  | _ => None
  end.

Definition set_error (cs : ClientState) (e : option string) : ClientState :=
  mkClient (user cs) false e (stored_token cs) (location cs).

(** Signed in: [setUser(data.user); setError(null);
    localStorage.setItem('token', data.token); router.push('/home')]. *)
Definition signed_in (cs : ClientState) (b : ResBody) : ClientState :=
  mkClient (user_of b) false None (token_of b) "/home".

(** ** Next.js API routes

    The pages under [Pages/api/auth/] are the only API routes; any
    other path gets Next.js's 404 page, which is not JSON ([None]). *)
Section NextRoutes.
Context `{PasswordHasher} `{EmailCheck} `{Collation} `{Digest} `{Mac}.
Context (cfg : Config) (env : Env) (reachable : bool) (fetch_error : string).

Definition next_api (r : Request) : St World Exn (option Response) :=
  let pr := fun m => r' <- m ;; ret (Some r') in
  match segments (path r) with
  | Some ["api"; "auth"; "login"] => pr (proxy_login cfg env reachable fetch_error r)
  | Some ["api"; "auth"; "register"] => pr (proxy_register cfg env reachable fetch_error r)
  | Some ["api"; "auth"; "me"] => pr (proxy_me cfg env reachable fetch_error r)
  | Some ["api"; "auth"; "logout"] => pr (proxy_logout cfg env reachable r)
  | Some ["api"; "auth"; "reset-password"; tok] =>
      pr (proxy_reset cfg env reachable fetch_error r (Some tok))
  | _ => ret None
  end.
End NextRoutes.

Definition msg_not_json := "La respuesta del servidor no es un JSON válido".

Section Context.
Context `{PasswordHasher} `{EmailCheck} `{Collation} `{Digest} `{Mac}.
Context (cfg : Config) (env : Env) (reachable : bool) (fetch_error : string).

(** [fetch(`/api${p}`, ...)] from the browser. *)
Definition call (m p : string) (authz : option string) (b : Body) : St World Exn (option Response) :=
  next_api cfg env reachable fetch_error (mkRequest m p authz b).

(** [login(username, password)] *)
Definition ctx_login (u p : string) (cs : ClientState) : St World Exn ClientState :=
  reply <- call "POST" "/api/auth/login" None (mkBody (Some u) None (Some p) None) ;;
  ret (match reply with
       | None => set_error cs (Some msg_not_json)
       | Some resp =>
           if is_ok (status resp) then signed_in cs (body resp)
           else mkClient None false (Some (message_or (body resp) "Credenciales inválidas"))
                  (stored_token cs) (location cs)
       end).

(** [register(username, email, password, confirmPassword)] *)
Definition ctx_register (u e p c : string) (cs : ClientState) : St World Exn ClientState :=
  reply <- call "POST" "/api/auth/register" None (mkBody (Some u) (Some e) (Some p) (Some c)) ;;
  ret (match reply with
       | None => set_error cs (Some msg_not_json)
       | Some resp =>
           if is_ok (status resp) then signed_in cs (body resp)
           else mkClient None false (Some (message_or (body resp) "Error en el registro"))
                  (stored_token cs) (location cs)
       end).

(** [forgotPassword(email)] *)
Definition ctx_forgotPassword (e : string) (cs : ClientState) : St World Exn (bool * ClientState) :=
  reply <- call "POST" "/api/auth/forgot-password" None (mkBody None (Some e) None None) ;;
  ret (match reply with
       | None => (false, set_error cs (Some msg_not_json))
       | Some resp =>
           if is_ok (status resp) then (true, set_error cs None)
           else (false, set_error cs (Some (message_or (body resp)
                                              "Error al solicitar cambio de contraseña")))
       end).

(** [resetPassword(password, token)]: the body is [{password}]. *)
Definition ctx_resetPassword (p token : string) (cs : ClientState)
    : St World Exn (bool * ClientState) :=
  reply <- call "PUT" ("/api/auth/reset-password/" ++ token) None (mkBody None None (Some p) None) ;;
  ret (match reply with
       | None => (false, set_error cs (Some msg_not_json))
       | Some resp =>
           if is_ok (status resp) then (true, signed_in cs (body resp))
           else (false, set_error cs (Some (message_or (body resp) "Error al restablecer contraseña")))
       end).

(** [logout()]: the token is dropped whatever the answer. *)
Definition ctx_logout (cs : ClientState) : St World Exn ClientState :=
  call "GET" "/api/auth/logout" (Some ("Bearer " ++ default "null" (stored_token cs)))
    (mkBody None None None None) ;;
  ret (mkClient None (loading cs) (error cs) None "/").

(** [checkUserLoggedIn()] *)
Definition ctx_checkUserLoggedIn (cs : ClientState) : St World Exn ClientState :=
  match stored_token cs with
  | None => ret (mkClient None false (error cs) None (location cs))
  | Some tok =>
      reply <- call "GET" "/api/auth/me" (Some ("Bearer " ++ tok)) (mkBody None None None None) ;;
      ret (match reply with
           | Some resp =>
               if is_ok (status resp) then
                 match body resp with
                 | RData (Some pr) =>
                     mkClient (Some (mkPublicUser (p_id pr) (p_username pr) (p_email pr))) false None
                       (stored_token cs) (location cs)
                 | _ => mkClient None false None (stored_token cs) (location cs)
                 end
               else mkClient None false (error cs) None (location cs)
           | None => mkClient None false (error cs) None (location cs)
           end)
  end.
End Context.

(** [AuthProvider] on its first render: [useState(null)] for [user],
    [useState(true)] for [loading], [useState(null)] for [error], with
    the token [localStorage] kept from an earlier session and the
    current route. *)
Definition provider_init (stored : option string) (route : string) : ClientState :=
  mkClient None true None stored route.

(** The mount effect [useEffect(() => { checkUserLoggedIn(); }, [])]:
    it runs once, after the first render. *)
Definition provider_mount `{PasswordHasher} `{EmailCheck} `{Collation} `{Digest} `{Mac}
    (cfg : Config) (env : Env) (reachable : bool) (fetch_error : string)
    (stored : option string) (route : string) : St World Exn ClientState :=
  ctx_checkUserLoggedIn cfg env reachable fetch_error (provider_init stored route).

(** ** Properties *)

Section ClientProperties.
Context `{PasswordHasher} `{EmailCheck} `{Collation} `{Digest} `{Mac}.
Context (cfg : Config) (env : Env) (fetch_error : string).

Lemma next_api_reset reachable token a b :
  token <> "" -> Js.no_char "/" token = true ->
  next_api cfg env reachable fetch_error (mkRequest "PUT" ("/api/auth/reset-password/" ++ token) a b) =
    (r <- (if reachable then
             r <- server cfg env (mkRequest "PUT" ("/api/auth/reset-password/" ++ token) None b) ;;
             ret (pass_back r)
           else ret (unreachable_reply fetch_error)) ;; ret (Some r)).
Proof.
  intros Hne Hsl. unfold next_api. cbn [path]. rewrite reset_segments by done.
  unfold proxy_reset. cbn [method String.eqb Ascii.eqb Bool.eqb negb].
  by rewrite falsy_some.
Qed.

(** What [AuthContext.resetPassword] ends with, for a token of the
    mailed form. *)
Lemma ctx_reset_rejected reachable p token cs w :
  token <> "" -> Js.no_char "/" token = true ->
  ctx_resetPassword cfg env reachable fetch_error p token cs w =
    (inr (false, set_error cs (Some (if reachable then "Error al restablecer contraseña"
                                     else msg_unreachable))), w).
Proof.
  intros Hne Hsl. unfold ctx_resetPassword, call. rewrite next_api_reset by done.
  destruct reachable; [|done].
  rewrite server_reset_unconfirmed by done. reflexivity.
Qed.

(** [AuthContext.register] on a fresh, valid, confirmed sign-up: the row
    is inserted and the client is signed in with the answer's token. *)
Lemma ctx_register_fresh u e p t ob tok cs :
  validate_username u = [] -> Js.trim u <> "" ->
  validate_email e = [] -> Js.trim e <> "" -> validate_password p = [] ->
  Forall (fun r => coll_eq (username r) u = false /\ coll_eq (email r) e = false) (users t) ->
  Jwt.sign (next_id t) u (JWT_SECRET cfg) (JWT_EXPIRE cfg) (now env) = inr tok ->
  ctx_register cfg env true fetch_error u e p p cs (mkWorld t ob) =
    (inr (signed_in cs (RToken tok (next_id t) u e)),
     mkWorld (insert_row t (mkUser (next_id t) u e (bcrypt_hash (salt env) p) None None
                              (now env) (now env))) ob).
Proof.
  intros Hu Htu He Hte Hp Hf Hs.
  unfold ctx_register, call, next_api. cbn -[proxy_register].
  unfold proxy_register, forwarded, register_payload. cbn [method String.eqb Ascii.eqb Bool.eqb negb req_body
    b_username b_email b_password b_confirmPassword].
  rewrite falsy_some by (apply validate_password_nonempty; done).
  unfold bind at 2. rewrite server_register, validateRegister_accepts by done.
  cbn [guard]. unfold bind; cbv beta. rewrite (register_success _ _ _ _ _ _ _ _ tok) by done. reflexivity.
Qed.

(** C10: [AuthContext.resetPassword] sends [{password}] without
    [confirmPassword], so for every password and every reset token
    (non-empty, without ['/'], as the hex tokens the server mails) the
    backend's [validateResetPassword] answers 400 and the client
    reports failure with [Error al restablecer contraseña]; the table
    and the outbox are unchanged.  A password reset from the web page
    never succeeds. *)
Theorem client_reset_always_rejected reachable p token cs w :
  token <> "" -> Js.no_char "/" token = true ->
  ctx_resetPassword cfg env reachable fetch_error p token cs w =
    (inr (false, set_error cs (Some (if reachable then "Error al restablecer contraseña"
                                     else msg_unreachable))), w).
Proof. apply ctx_reset_rejected. Qed.

(** There is no [pages/api/auth/forgot-password] route, so
    [AuthContext.forgotPassword] gets Next.js's 404 page, which is not
    JSON: for every email it returns [false] with [La respuesta del
    servidor no es un JSON válido], and no mail is sent. *)
Theorem client_forgot_always_fails reachable e cs w :
  ctx_forgotPassword cfg env reachable fetch_error e cs w =
    (inr (false, set_error cs (Some msg_not_json)), w).
Proof. reflexivity. Qed.

(** [AuthContext.logout] always ends signed out: the user and the
    stored token are cleared and the page goes to [/], whatever the
    token and whether the backend answers; nothing is written. *)
Theorem client_logout_clears reachable cs w :
  ctx_logout cfg env reachable fetch_error cs w =
    (inr (mkClient None (loading cs) (error cs) None "/"), w).
Proof.
  unfold ctx_logout, call, next_api. cbn -[proxy_logout].
  unfold proxy_logout. cbn [method String.eqb Ascii.eqb Bool.eqb negb authorization].
  destruct reachable; [|done].
  rewrite server_logout. unfold protected, bind.
  destruct (protect_total cfg env (Some ("Bearer " ++ default "null" (stored_token cs))) w) as [r ->].
  by destruct r.
Qed.

(** C21: Session restore on page load.  When [AuthProvider] mounts
    with a token that [jwt.sign] issued for a row of a well-formed
    table, [checkUserLoggedIn] goes through the [me] proxy, [protect]
    and [getMe] and restores that row's user, with loading ended and
    the token kept, as long as the token has not expired; once it has,
    the backend answers 401 and the client drops the token and stays
    signed out.  Nothing is written. *)
Theorem provider_mount_restores_session route t0 u tok c w :
  table_wf (table w) -> u ∈ users (table w) ->
  Jwt.sign (id u) (username u) (JWT_SECRET cfg) (JWT_EXPIRE cfg) t0 = inr tok ->
  Jwt.sign_claims (id u) (username u) (JWT_EXPIRE cfg) t0 = inr c ->
  provider_mount cfg env true fetch_error (Some tok) route w =
    (inr (if Jwt.expired c (now env) then mkClient None false None None route
          else mkClient (Some (mkPublicUser (id u) (username u) (email u))) false None (Some tok) route),
     w).
Proof.
  intros Hwf Hu Hs Hc. unfold provider_mount, ctx_checkUserLoggedIn, provider_init, call, next_api.
  cbn [stored_token path]. change (segments "/api/auth/me") with (Some ["api"; "auth"; "me"]).
  unfold proxy_me. cbn [method authorization String.eqb Ascii.eqb Bool.eqb negb].
  st_unfold. rewrite (server_me_issued cfg env t0 u tok c) by done.
  destruct (Jwt.expired c (now env)); reflexivity.
Qed.
End ClientProperties.
End Frontend.
