(* ===== verification/Pages.v ===== *)
(** * The pages: the login/sign-up/forgot form and the reset form

    Models the form logic of [src/FrontEnd/Pages/index.js] (the three
    modes of one form, [handleSubmit], [toggleSignUp],
    [toggleForgotPassword], and the effect that shows the context's
    [error]) and of [src/FrontEnd/Pages/reset-password/[token].js]
    ([handleSubmit] with its own checks and its own [error],
    [isLoading], [isSuccess]).  Each submission calls the [AuthContext]
    operations of [Frontend] and so runs the whole stack down to the
    table.  What the pages render is in [PageViews], their effects in
    [Effects]. *)

From S2P Require Import Prelude JsString Crypto Jwt UserModel AuthController Validators Routes Frontend.
From Stdlib Require Import Ascii Strings.String.
Import ListNotations.
Open Scope string_scope.

Module Pages.
Import UserModel AuthController Validators Routes Frontend.

(** [{type, message}] of [statusMessage]. *)
Record Status := mkStatus { st_type : string; st_message : string }.

Definition no_status : Status := mkStatus "" "".
Definition status_error (m : string) : Status := mkStatus "error" m.

(** The state of the [Login] component of [index.js]. *)
Record LoginPage := mkLoginPage {
  lp_username : string;
  lp_password : string;
  lp_isSignUp : bool;
  lp_isForgotPassword : bool;
  lp_email : string;
  lp_confirmPassword : string;
  lp_isLoading : bool;
  lp_statusMessage : Status
}.

Definition lp_set_status (ps : LoginPage) (st : Status) (loading : bool) : LoginPage :=
  mkLoginPage (lp_username ps) (lp_password ps) (lp_isSignUp ps) (lp_isForgotPassword ps)
    (lp_email ps) (lp_confirmPassword ps) loading st.

Definition msg_mismatch := "Las contraseñas no coinciden".
Definition msg_short := "La contraseña debe tener al menos 6 caracteres".
Definition msg_enter_email := "Por favor, ingresa tu email".
Definition msg_fill_all := "Por favor, completa todos los campos".
Definition msg_link_sent := "Se ha enviado un enlace de recuperación a tu email".
Definition msg_form_error := "Ocurrió un error. Por favor, intenta nuevamente.".

(** [toggleSignUp] *)
Definition toggleSignUp (ps : LoginPage) : LoginPage :=
  let was := lp_isSignUp ps in
  mkLoginPage (lp_username ps) (lp_password ps) (negb was) false
    (if was then lp_email ps else "") (if was then lp_confirmPassword ps else "")
    (lp_isLoading ps) no_status.

(** [toggleForgotPassword] *)
Definition toggleForgotPassword (ps : LoginPage) : LoginPage :=
  let was := lp_isForgotPassword ps in
  mkLoginPage (if was then lp_username ps else "") (if was then lp_password ps else "")
    false (negb was) (if was then "" else lp_email ps) (lp_confirmPassword ps)
    (lp_isLoading ps) no_status.

(** The effect on the context's [error]: a truthy error set by the call
    becomes the status message and ends the loading state. *)
Definition show_context_error (ps : LoginPage) (cs : ClientState) : LoginPage :=
  match error cs with
  | Some m => if String.eqb m "" then ps else lp_set_status ps (status_error m) false
  | None => ps
  end.

Section LoginForm.
Context `{PasswordHasher} `{EmailCheck} `{Collation} `{Digest} `{Mac}.
Context (cfg : Config) (env : Env) (reachable : bool) (fetch_error : string).

(** [handleSubmit] of [index.js], followed by the effect on [error]. *)
Definition login_submit (ps : LoginPage) (cs : ClientState)
    : St World Exn (LoginPage * ClientState) :=
  let ps0 := lp_set_status ps no_status true in
  let stop m := ret (lp_set_status ps0 (status_error m) false, cs) in
  try_catch (
    if lp_isSignUp ps then
      if negb (String.eqb (lp_password ps) (lp_confirmPassword ps)) then stop msg_mismatch
      else if (String.length (lp_password ps) <? 6)%nat then stop msg_short
      else
        cs' <- ctx_register cfg env reachable fetch_error (lp_username ps) (lp_email ps)
                 (lp_password ps) (lp_confirmPassword ps) cs ;;
        ret (show_context_error ps0 cs', cs')
    else if lp_isForgotPassword ps then
      if String.eqb (lp_email ps) "" then stop msg_enter_email
      else
        r <- ctx_forgotPassword cfg env reachable fetch_error (lp_email ps) cs ;;
        let '(success, cs') := r in
        let ps1 := if success then lp_set_status ps0 (mkStatus "success" msg_link_sent) true else ps0 in
        ret (show_context_error ps1 cs', cs')
    else
      if String.eqb (lp_username ps) "" || String.eqb (lp_password ps) "" then stop msg_fill_all
      else
        cs' <- ctx_login cfg env reachable fetch_error (lp_username ps) (lp_password ps) cs ;;
        ret (show_context_error ps0 cs', cs'))
  (fun _ => ret (lp_set_status ps0 (status_error msg_form_error) false, cs)).
End LoginForm.

(** The state of the [ResetPassword] component. *)
Record ResetPage := mkResetPage {
  rp_password : string;
  rp_confirmPassword : string;
  rp_error : string;
  rp_isLoading : bool;
  rp_isSuccess : bool
}.

Definition msg_invalid_token := "Token inválido".
Definition msg_reset_failed := "Error al restablecer la contraseña".

Definition rp_with (ps : ResetPage) (err : string) (success : bool) : ResetPage :=
  mkResetPage (rp_password ps) (rp_confirmPassword ps) err false success.

Section ResetForm.
Context `{PasswordHasher} `{EmailCheck} `{Collation} `{Digest} `{Mac}.
Context (cfg : Config) (env : Env) (reachable : bool) (fetch_error : string).

(** [handleSubmit] of [reset-password/[token].js]; [token] is
    [router.query.token].  The [finally] clause ends the loading state. *)
Definition reset_submit (token : option string) (ps : ResetPage) (cs : ClientState)
    : St World Exn (ResetPage * ClientState) :=
  if negb (String.eqb (rp_password ps) (rp_confirmPassword ps)) then
    ret (mkResetPage (rp_password ps) (rp_confirmPassword ps) msg_mismatch (rp_isLoading ps)
           (rp_isSuccess ps), cs)
  else if (String.length (rp_password ps) <? 6)%nat then
    ret (mkResetPage (rp_password ps) (rp_confirmPassword ps) msg_short (rp_isLoading ps)
           (rp_isSuccess ps), cs)
  else
    try_catch (
      match token with
      | None => ret (rp_with ps msg_invalid_token (rp_isSuccess ps), cs)
      | Some tok =>
          if String.eqb tok "" then ret (rp_with ps msg_invalid_token (rp_isSuccess ps), cs) else
          r <- ctx_resetPassword cfg env reachable fetch_error (rp_password ps) tok cs ;;
          let '(success, cs') := r in
          ret (rp_with ps "" (success || rp_isSuccess ps), cs')
      end)
    (fun _ => ret (rp_with ps msg_reset_failed (rp_isSuccess ps), cs)).
End ResetForm.

(** ** Properties *)

Section PageProperties.
Context `{PasswordHasher} `{EmailCheck} `{Collation} `{Digest} `{Mac}.
Context (cfg : Config) (env : Env) (fetch_error : string).

(** On the reset page, a submission that passes the page's own
    checks (equal passwords of at least 6 characters) with the token of
    the link's path never succeeds and shows nothing: [isSuccess] keeps
    its value, the page's [error] is empty, the context's [error] holds
    the failure, and the table and the outbox are unchanged. *)
Theorem reset_page_silent_failure reachable tok ps cs w :
  rp_password ps = rp_confirmPassword ps -> (6 <= String.length (rp_password ps))%nat ->
  tok <> "" -> Js.no_char "/" tok = true ->
  reset_submit cfg env reachable fetch_error (Some tok) ps cs w =
    (inr (rp_with ps "" (rp_isSuccess ps),
          set_error cs (Some (if reachable then "Error al restablecer contraseña"
                              else msg_unreachable))), w).
Proof.
  intros Heq Hlen Hne Hsl. unfold reset_submit.
  rewrite Heq, String.eqb_refl, <- Heq. cbn [negb].
  rewrite (proj2 (Nat.ltb_ge _ _)) by done.
  destruct (String.eqb_spec tok "") as [|_]; [done|].
  unfold try_catch, bind. rewrite ctx_reset_rejected by done. reflexivity.
Qed.

(** Every submission with the link's token ends, writes nothing, ends
    the loading state and leaves [isSuccess] as it was: the page's own
    checks answer in the page, and the call is always refused. *)
Lemma reset_submit_link reachable tok ps cs w :
  tok <> "" -> Js.no_char "/" tok = true -> rp_isLoading ps = false ->
  exists ps' cs', reset_submit cfg env reachable fetch_error (Some tok) ps cs w = (inr (ps', cs'), w) /\
    rp_isSuccess ps' = rp_isSuccess ps /\ rp_isLoading ps' = false.
Proof.
  intros Ht Hsl Hl.
  destruct (String.eqb_spec (rp_password ps) (rp_confirmPassword ps)) as [Heq|Hne].
  - destruct (Nat.ltb_spec (String.length (rp_password ps)) 6) as [Hlt|Hge].
    + unfold reset_submit. rewrite (proj2 (String.eqb_eq _ _) Heq). cbn [negb].
      rewrite (proj2 (Nat.ltb_lt _ _) Hlt). by do 2 eexists.
    + rewrite reset_page_silent_failure by done. by do 2 eexists.
  - unfold reset_submit. rewrite (proj2 (String.eqb_neq _ _) Hne). cbn [negb]. by do 2 eexists.
Qed.

(** The forgot-password mode of [handleSubmit] with a non-empty email. *)
Lemma login_submit_forgot reachable ps cs w :
  lp_isSignUp ps = false -> lp_isForgotPassword ps = true -> lp_email ps <> "" ->
  login_submit cfg env reachable fetch_error ps cs w =
    (inr (lp_set_status ps (status_error msg_not_json) false, set_error cs (Some msg_not_json)), w).
Proof.
  intros Hs Hf He. unfold login_submit. rewrite Hs, Hf.
  destruct (String.eqb_spec (lp_email ps) "") as [|_]; [done|].
  reflexivity.
Qed.

(** C33: In the form's forgot-password mode, every non-empty email ends
    with the error [La respuesta del servidor no es un JSON válido]
    shown and the loading state ended; no mail is sent and nothing is
    written. *)
Theorem forgot_page_error reachable ps cs w :
  lp_isSignUp ps = false -> lp_isForgotPassword ps = true -> lp_email ps <> "" ->
  login_submit cfg env reachable fetch_error ps cs w =
    (inr (lp_set_status ps (status_error msg_not_json) false, set_error cs (Some msg_not_json)), w).
Proof. apply login_submit_forgot. Qed.

(** C31: Filling the sign-up form with a free username and email that
    pass the validators and a confirmed password of the model's length
    creates the account and signs the user in: the row with the next id
    and the bcrypt hash is inserted, and the client holds the user, the
    token and the route [/home]. *)
Theorem signup_page_creates_account ps cs t ob tok :
  lp_isSignUp ps = true -> lp_password ps = lp_confirmPassword ps ->
  validate_username (lp_username ps) = [] -> Js.trim (lp_username ps) <> "" ->
  validate_email (lp_email ps) = [] -> Js.trim (lp_email ps) <> "" ->
  validate_password (lp_password ps) = [] ->
  Forall (fun r => coll_eq (username r) (lp_username ps) = false /\
                   coll_eq (email r) (lp_email ps) = false) (users t) ->
  Jwt.sign (next_id t) (lp_username ps) (JWT_SECRET cfg) (JWT_EXPIRE cfg) (now env) = inr tok ->
  login_submit cfg env true fetch_error ps cs (mkWorld t ob) =
    (inr (lp_set_status ps no_status true,
          signed_in cs (RToken tok (next_id t) (lp_username ps) (lp_email ps))),
     mkWorld (insert_row t (mkUser (next_id t) (lp_username ps) (lp_email ps)
                              (bcrypt_hash (salt env) (lp_password ps)) None None
                              (now env) (now env))) ob).
Proof.
  intros Hs Heq Hu Htu He Hte Hp Hf Hsign. unfold login_submit. rewrite Hs, <- Heq, String.eqb_refl.
  cbn [negb]. pose proof Hp as Hp'. unfold validate_password, len_ok in Hp'.
  destruct (Nat.leb_spec 6 (String.length (lp_password ps))) as [Hl|]; [|done].
  rewrite (proj2 (Nat.ltb_ge _ _)) by done.
  unfold try_catch, bind. rewrite (ctx_register_fresh _ _ _ _ _ _ _ _ tok) by done. reflexivity.
Qed.
End PageProperties.

End Pages.
