(* ===== verification/PageViews.v ===== *)
(** * What the pages render, and the user's events on them

    Models the JSX of [src/FrontEnd/Pages/index.js] (the [if (user)
    return null] guard and the form: title, status message, the inputs
    of the current mode, the submit button and the footer links) and of
    [src/FrontEnd/Pages/reset-password/[token].js] (the invalid-token view
    and the form).  The user acts on the login page through what it
    renders: typing into a rendered input ([onChange]), clicking a
    rendered footer link, or submitting the form, which the browser
    allows only when the button is enabled and every [required] input
    is filled.  [login_event] is that event handler, [login_reachable]
    the states reachable from the first render.  The reset page is an
    event machine too ([reset_event], [reset_reachable]): typing,
    submitting, its two links to [/] (which unmount it) and the
    callbacks of [setTimeout], which run even after the page is gone.
    Styles are not modelled. *)

From S2P Require Import Prelude JsString Crypto Jwt UserModel AuthController Validators Routes Frontend Pages.
From Stdlib Require Import Ascii Strings.String.
Import ListNotations.
Open Scope string_scope.

Module PageViews.
Import UserModel AuthController Validators Routes Frontend Pages.

#[export] Instance public_user_eq_dec : EqDecision PublicUser.
Proof. solve_decision. Defined.
#[export] Instance client_state_eq_dec : EqDecision ClientState.
Proof. solve_decision. Defined.
#[export] Instance status_eq_dec : EqDecision Status.
Proof. solve_decision. Defined.
#[export] Instance login_page_eq_dec : EqDecision LoginPage.
Proof. solve_decision. Defined.

(** The [id] of the inputs of the login form. *)
Inductive InputId := IUsername | IEmail | IPassword | IConfirmPassword | IResetEmail.

#[export] Instance input_id_eq_dec : EqDecision InputId.
Proof. solve_decision. Defined.

(** [<label htmlFor=id>label</label><input id type value required/>] *)
Record Input := mkInput { in_id : InputId; in_label : string; in_type : string; in_value : string }.

(** The content of the submit button: the spinner or a label. *)
Inductive ButtonContent := Spinner | ButtonLabel (label : string).

(** The clickable paragraphs of [form-footer]. *)
Inductive FooterLink :=
| LinkToggleSignUp (label : string)   (* onClick={toggleSignUp} *)
| LinkForgot                          (* onClick={toggleForgotPassword} *)
| LinkBackToLogin.                    (* onClick={() => setIsForgotPassword(false)} *)

#[export] Instance footer_link_eq_dec : EqDecision FooterLink.
Proof. solve_decision. Defined.

Record LoginView := mkLoginView {
  lv_loading : bool;                (* form-container class "loading" *)
  lv_title : string;
  lv_status : option Status;        (* {statusMessage.message && <div ...>} *)
  lv_inputs : list Input;
  lv_button_disabled : bool;
  lv_button : ButtonContent;
  lv_links : list FooterLink;
  lv_overlay : bool                 (* {isLoading && <div className="loading-overlay"/>} *)
}.

Definition msg_title_signup := "Crear Cuenta".
Definition msg_title_forgot := "Recuperar Contraseña".
Definition msg_title_login := "Bienvenido".

(** The form of [Login]. *)
Definition login_form (ps : LoginPage) : LoginView :=
      let signup := lp_isSignUp ps in
      let forgot := lp_isForgotPassword ps in
      mkLoginView (lp_isLoading ps)
        (if signup then msg_title_signup else if forgot then msg_title_forgot else msg_title_login)
        (if String.eqb (st_message (lp_statusMessage ps)) "" then None else Some (lp_statusMessage ps))
        ((if negb forgot then
            [mkInput IUsername "Usuario" "text" (lp_username ps)] ++
            (if signup then [mkInput IEmail "Email" "email" (lp_email ps)] else []) ++
            [mkInput IPassword "Contraseña" "password" (lp_password ps)] ++
            (if signup then [mkInput IConfirmPassword "Confirmar Contraseña" "password"
                               (lp_confirmPassword ps)] else [])
          else []) ++
         (if forgot then [mkInput IResetEmail "Email" "email" (lp_email ps)] else []))%list
        (lp_isLoading ps)
        (if lp_isLoading ps then Spinner
         else ButtonLabel (if signup then "Registrarse"
                           else if forgot then "Enviar Enlace" else "Iniciar Sesión"))
        ((if negb forgot then
            [LinkToggleSignUp (if signup then "¿Ya tienes cuenta? Inicia Sesión"
                               else "¿No tienes cuenta? Regístrate")] else []) ++
         (if negb signup && negb forgot then [LinkForgot] else []) ++
         (if forgot then [LinkBackToLogin] else []))%list
        (lp_isLoading ps).

(** The render of [Login]: nothing for a signed-in user. *)
Definition login_view (ps : LoginPage) (cs : ClientState) : option LoginView :=
  match user cs with
  | Some _ => None
  | None => Some (login_form ps)
  end.

(** [onChange={(e) => setX(e.target.value)}] of each input. *)
Definition on_change (i : InputId) (v : string) (ps : LoginPage) : LoginPage :=
  let '(u, p, e, c) :=
    match i with
    | IUsername => (v, lp_password ps, lp_email ps, lp_confirmPassword ps)
    | IPassword => (lp_username ps, v, lp_email ps, lp_confirmPassword ps)
    | IEmail | IResetEmail => (lp_username ps, lp_password ps, v, lp_confirmPassword ps)
    | IConfirmPassword => (lp_username ps, lp_password ps, lp_email ps, v)
    end in
  mkLoginPage u p (lp_isSignUp ps) (lp_isForgotPassword ps) e c (lp_isLoading ps) (lp_statusMessage ps).

(** [() => setIsForgotPassword(false)] of the back link. *)
Definition back_to_login (ps : LoginPage) : LoginPage :=
  mkLoginPage (lp_username ps) (lp_password ps) (lp_isSignUp ps) false (lp_email ps)
    (lp_confirmPassword ps) (lp_isLoading ps) (lp_statusMessage ps).

Definition click (l : FooterLink) (ps : LoginPage) : LoginPage :=
  match l with
  | LinkToggleSignUp _ => toggleSignUp ps
  | LinkForgot => toggleForgotPassword ps
  | LinkBackToLogin => back_to_login ps
  end.

(** The browser submits the form only when the button is enabled and
    every rendered [required] input is non-empty. *)
Definition can_submit (v : LoginView) : bool :=
  negb (lv_button_disabled v) && forallb (fun i => negb (String.eqb (in_value i) "")) (lv_inputs v).

Inductive LoginEvent :=
| EvType (i : InputId) (value : string)
| EvClick (l : FooterLink)
| EvSubmit.

Definition LoginState : Type := LoginPage * ClientState * World.

Section Events.
Context `{PasswordHasher} `{EmailCheck} `{Collation} `{Digest} `{Mac}.
Context (cfg : Config) (reachable : bool) (fetch_error : string).

(** An event on the rendered page; [None] when the page does not offer
    it (not rendered, or the browser blocks the submission). *)
Definition login_event (env : Env) (ev : LoginEvent) (s : LoginState) : option LoginState :=
  let '(ps, cs, w) := s in
  match login_view ps cs with
  | None => None
  | Some v =>
      match ev with
      | EvType i x =>
          if existsb (fun inp => bool_decide (in_id inp = i)) (lv_inputs v)
          then Some (on_change i x ps, cs, w) else None
      | EvClick l => if bool_decide (l ∈ lv_links v) then Some (click l ps, cs, w) else None
      | EvSubmit =>
          if can_submit v then
            match login_submit cfg env reachable fetch_error ps cs w with
            | (inr (ps', cs'), w') => Some (ps', cs', w')
            | (inl _, _) => None
            end
          else None
      end
  end.

(** A sequence of events, each with the environment of its request. *)
Fixpoint login_events (evs : list (Env * LoginEvent)) (s : LoginState) : option LoginState :=
  match evs with
  | [] => Some s
  | (env, ev) :: evs' => s' ← login_event env ev s; login_events evs' s'
  end.
End Events.

(** The first render: [useState] initial values. *)
Definition login_init : LoginPage := mkLoginPage "" "" false false "" "" false no_status.

Inductive login_reachable `{PasswordHasher} `{EmailCheck} `{Collation} `{Digest} `{Mac}
    (cfg : Config) (reachable : bool) (fetch_error : string) : LoginState -> Prop :=
| reach_init cs w : login_reachable cfg reachable fetch_error (login_init, cs, w)
| reach_step env ev s s' :
    login_reachable cfg reachable fetch_error s ->
    login_event cfg reachable fetch_error env ev s = Some s' ->
    login_reachable cfg reachable fetch_error s'.

(** ** Properties *)

Lemma login_view_signed_out ps cs : user cs = None -> login_view ps cs = Some (login_form ps).
Proof. unfold login_view. by intros ->. Qed.

(** The fields [handleSubmit] reads in each mode: sign-up reads
    [username], [email], [password] and [confirmPassword]; the
    forgot-password mode reads [email] (the [resetEmail] input); login
    reads [username] and [password]. *)
Definition submit_fields (ps : LoginPage) : list InputId :=
  if lp_isSignUp ps then [IUsername; IEmail; IPassword; IConfirmPassword]
  else if lp_isForgotPassword ps then [IResetEmail]
  else [IUsername; IPassword].

Definition modes_ok (ps : LoginPage) : Prop := lp_isSignUp ps && lp_isForgotPassword ps = false.

Definition same_modes (ps ps' : LoginPage) : Prop :=
  lp_isSignUp ps' = lp_isSignUp ps /\ lp_isForgotPassword ps' = lp_isForgotPassword ps.

Lemma show_context_error_modes ps cs : same_modes ps (show_context_error ps cs).
Proof. unfold show_context_error. by repeat case_match. Qed.

Lemma same_modes_trans ps1 ps2 ps3 : same_modes ps1 ps2 -> same_modes ps2 ps3 -> same_modes ps1 ps3.
Proof. intros [??] [??]. split; congruence. Qed.

(** [handleSubmit] never switches the form's mode. *)
Lemma login_submit_modes `{PasswordHasher} `{EmailCheck} `{Collation} `{Digest} `{Mac}
    cfg env reachable fetch_error ps cs :
  returns (fun r => same_modes ps (fst r)) (login_submit cfg env reachable fetch_error ps cs).
Proof.
  unfold login_submit. returns_steps; cbn [fst];
    try (eapply same_modes_trans; [|apply show_context_error_modes]); done.
Qed.

Lemma click_modes_ok l ps : modes_ok (click l ps).
Proof. unfold modes_ok. destruct l; simpl; by rewrite ?andb_false_r. Qed.

Lemma login_event_modes_ok `{PasswordHasher} `{EmailCheck} `{Collation} `{Digest} `{Mac}
    cfg reachable fetch_error env ev ps cs w ps' cs' w' :
  modes_ok ps -> login_event cfg reachable fetch_error env ev (ps, cs, w) = Some (ps', cs', w') ->
  modes_ok ps'.
Proof.
  intros Hm. unfold login_event. destruct (login_view ps cs); [|done].
  destruct ev as [i x|lk|].
  - case_if; [intros [= <- _ _]|done]. by destruct i.
  - case_if; [intros [= <- _ _]; apply click_modes_ok|done].
  - case_if; [|done]. destruct (login_submit _ _ _ _ _ _ _) as [[|[p c]] w1] eqn:Hs; [done|].
    intros [= <- _ _]. destruct (returns_run _ _ _ _ _ (login_submit_modes _ _ _ _ _ _) Hs) as [E1 E2].
    unfold modes_ok in *. cbn [fst] in *. by rewrite E1, E2.
Qed.

Lemma login_reachable_modes_ok `{PasswordHasher} `{EmailCheck} `{Collation} `{Digest} `{Mac}
    cfg reachable fetch_error ps cs w :
  login_reachable cfg reachable fetch_error (ps, cs, w) -> modes_ok ps.
Proof.
  intros Hr. remember (ps, cs, w) as s eqn:Es. revert ps cs w Es.
  induction Hr as [cs0 w0|env ev [[ps0 cs0] w0] s' Hr IH Hev]; intros ps cs w Es.
  - by injection Es as <- _ _.
  - subst s'. eapply login_event_modes_ok; [|exact Hev]. by eapply IH.
Qed.

(** The state field an input shows and sets. *)
Definition field_value (ps : LoginPage) (i : InputId) : string :=
  match i with
  | IUsername => lp_username ps
  | IEmail | IResetEmail => lp_email ps
  | IPassword => lp_password ps
  | IConfirmPassword => lp_confirmPassword ps
  end.

Lemma login_view_inputs ps cs v :
  login_view ps cs = Some v -> Forall (fun inp => in_value inp = field_value ps (in_id inp)) (lv_inputs v).
Proof.
  unfold login_view. destruct (user cs); [done|]. intros [= <-]. unfold login_form; cbn [lv_inputs].
  destruct (lp_isSignUp ps), (lp_isForgotPassword ps); cbn; by repeat constructor.
Qed.

Lemma login_view_ids ps cs v :
  modes_ok ps -> login_view ps cs = Some v -> map in_id (lv_inputs v) = submit_fields ps.
Proof.
  unfold modes_ok, login_view, submit_fields. destruct (user cs); [done|]. intros Hm [= <-].
  unfold login_form; cbn [lv_inputs]. by destruct (lp_isSignUp ps), (lp_isForgotPassword ps).
Qed.

Lemma can_submit_filled v : can_submit v = true -> Forall (fun inp => in_value inp <> "") (lv_inputs v).
Proof.
  unfold can_submit. intros [_ Hf]%andb_true_iff. induction (lv_inputs v) as [|inp l IH]; [constructor|].
  cbn in Hf. apply andb_true_iff in Hf as [H1 H2].
  constructor; [by apply negb_true_iff, String.eqb_neq in H1|by apply IH].
Qed.

(** C37: On every state the login page can reach from its first render
    by the user's typing, clicks and submissions, the sign-up and
    forgot-password modes are never both on, the form renders exactly
    the inputs of the fields [handleSubmit] reads in its mode, and the
    browser lets a submission through only with all of them filled.
    Hence the empty-field branches of [handleSubmit] ([Por favor,
    completa todos los campos], [Por favor, ingresa tu email]) are never
    taken from the page. *)
Theorem login_form_matches_submit `{PasswordHasher} `{EmailCheck} `{Collation} `{Digest} `{Mac}
    cfg reachable fetch_error ps cs w v :
  login_reachable cfg reachable fetch_error (ps, cs, w) -> login_view ps cs = Some v ->
  modes_ok ps /\ map in_id (lv_inputs v) = submit_fields ps /\
  (can_submit v = true -> Forall (fun i => field_value ps i <> "") (submit_fields ps)).
Proof.
  intros Hr Hv. pose proof (login_reachable_modes_ok _ _ _ _ _ _ Hr) as Hm.
  pose proof (login_view_ids _ _ _ Hm Hv) as Hids.
  split_and!; [done|done|]. intros Hc. rewrite <- Hids. apply Forall_map.
  pose proof (Forall_and (login_view_inputs _ _ _ Hv) (can_submit_filled _ Hc)) as Hboth.
  revert Hboth. apply Forall_impl. intros inp [-> ?]. done.
Qed.

(** C38: The back link of the forgot-password mode only calls
    [setIsForgotPassword(false)], unlike [toggleForgotPassword] it does
    not clear the status message.  On a fresh page, choosing "forgot
    password", typing an email, submitting it and going back shows the
    login form ([Bienvenido], username and password) with the error of
    the forgot request still displayed; nothing is written. *)
Theorem forgot_error_survives_back_to_login `{PasswordHasher} `{EmailCheck} `{Collation} `{Digest} `{Mac}
    cfg reachable fetch_error env1 env2 e cs w :
  user cs = None -> e <> "" ->
  exists ps v,
    login_events cfg reachable fetch_error
      [(env1, EvClick LinkForgot); (env1, EvType IResetEmail e); (env2, EvSubmit);
       (env1, EvClick LinkBackToLogin)] (login_init, cs, w) =
      Some (ps, set_error cs (Some msg_not_json), w) /\
    login_view ps (set_error cs (Some msg_not_json)) = Some v /\
    lv_title v = msg_title_login /\ lv_status v = Some (status_error msg_not_json) /\
    map in_id (lv_inputs v) = [IUsername; IPassword].
Proof.
  intros Hu He.
  set (ps1 := toggleForgotPassword login_init).
  set (ps2 := on_change IResetEmail e ps1).
  set (cs3 := set_error cs (Some msg_not_json)).
  set (ps3 := lp_set_status ps2 (status_error msg_not_json) false).
  assert (Hu3 : user cs3 = None) by exact Hu.
  assert (E1 : login_event cfg reachable fetch_error env1 (EvClick LinkForgot) (login_init, cs, w) =
               Some (ps1, cs, w)).
  { unfold login_event. rewrite (login_view_signed_out _ _ Hu). reflexivity. }
  assert (E2 : login_event cfg reachable fetch_error env1 (EvType IResetEmail e) (ps1, cs, w) =
               Some (ps2, cs, w)).
  { unfold login_event. rewrite (login_view_signed_out _ _ Hu). reflexivity. }
  assert (E3 : login_event cfg reachable fetch_error env2 EvSubmit (ps2, cs, w) = Some (ps3, cs3, w)).
  { unfold login_event. rewrite (login_view_signed_out _ _ Hu).
    assert (Hc : can_submit (login_form ps2) = true).
    { unfold can_submit. cbn. by rewrite (proj2 (String.eqb_neq e "") He). }
    rewrite Hc, login_submit_forgot by done. reflexivity. }
  assert (E4 : login_event cfg reachable fetch_error env1 (EvClick LinkBackToLogin) (ps3, cs3, w) =
               Some (back_to_login ps3, cs3, w)).
  { unfold login_event. rewrite (login_view_signed_out _ _ Hu3). reflexivity. }
  exists (back_to_login ps3), (login_form (back_to_login ps3)).
  cbn [login_events]. rewrite E1. cbn [mbind option_bind]. rewrite E2. cbn [mbind option_bind].
  rewrite E3. cbn [mbind option_bind]. rewrite E4. cbn [mbind option_bind].
  rewrite (login_view_signed_out _ _ Hu3). split_and!; reflexivity.
Qed.

(** ** The reset page *)

Inductive ResetView :=
| ResetTokenError                                   (* "Token inválido o expirado" *)
| ResetSuccess (loading : bool)                     (* "Contraseña restablecida con éxito..." *)
| ResetForm (loading : bool) (error : option string) (password confirm : string)
    (button : ButtonContent).

(** The render of [ResetPassword] for [router.query.token];
    [has_window] is [typeof window !== 'undefined']. *)
Definition reset_view (token : option string) (has_window : bool) (ps : ResetPage) : ResetView :=
  if Js.falsy token && has_window then ResetTokenError
  else if rp_isSuccess ps then ResetSuccess (rp_isLoading ps)
  else ResetForm (rp_isLoading ps)
         (if String.eqb (rp_error ps) "" then None else Some (rp_error ps))
         (rp_password ps) (rp_confirmPassword ps)
         (if rp_isLoading ps then Spinner else ButtonLabel "Restablecer Contraseña").

(** [router.push(r)]: the client's route becomes [r]. *)
Definition push_route (cs : ClientState) (r : string) : ClientState :=
  mkClient (user cs) (loading cs) (error cs) (stored_token cs) r.

(** The inputs of the reset form, [id="password"] and
    [id="confirmPassword"]. *)
Inductive ResetInput := RPassword | RConfirm.

(** [onChange={(e) => setPassword(e.target.value)}] and the same for
    [confirmPassword]. *)
Definition reset_on_change (i : ResetInput) (v : string) (ps : ResetPage) : ResetPage :=
  match i with
  | RPassword => mkResetPage v (rp_confirmPassword ps) (rp_error ps) (rp_isLoading ps) (rp_isSuccess ps)
  | RConfirm => mkResetPage (rp_password ps) v (rp_error ps) (rp_isLoading ps) (rp_isSuccess ps)
  end.

(** The user's events on the reset page, and the browser's timers. *)
Inductive ResetEvent :=
| RsType (i : ResetInput) (value : string)
| RsSubmit                 (* the form's [onSubmit={handleSubmit}] *)
| RsBackToLogin            (* "Volver al inicio de sesión": [router.push('/')] *)
| RsHomeButton             (* "Volver al inicio" of the invalid-token view *)
| RsTimer.                 (* the oldest pending [setTimeout] callback runs *)

(** The page, the context, the backend, the callbacks that
    [setTimeout] holds (each a route it pushes) and whether the page is
    still mounted: [router.push] to another route unmounts it, while
    its pending timers still run. *)
Record ResetState := mkResetState {
  rs_page : ResetPage;
  rs_client : ClientState;
  rs_world : World;
  rs_timers : list string;
  rs_mounted : bool
}.

Section ResetEvents.
Context `{PasswordHasher} `{EmailCheck} `{Collation} `{Digest} `{Mac}.
Context (cfg : Config) (reachable : bool) (fetch_error : string).

(** An event on the page rendered for [router.query.token] in the
    browser ([typeof window !== 'undefined']); [None] when the page does
    not offer it.  A submission is allowed when both [required] inputs
    are filled; one whose call succeeds arms
    [setTimeout(() => router.push('/home'), 2000)]. *)
Definition reset_event (token : option string) (env : Env) (ev : ResetEvent) (s : ResetState)
    : option ResetState :=
  let '(mkResetState ps cs w timers mounted) := s in
  match ev with
  | RsTimer =>
      match timers with
      | [] => None
      | r :: timers' => Some (mkResetState ps (push_route cs r) w timers' mounted)
      end
  | _ =>
      if negb mounted then None else
      match reset_view token true ps, ev with
      | ResetTokenError, RsHomeButton => Some (mkResetState ps (push_route cs "/") w timers false)
      | ResetForm _ _ _ _ _, RsType i x => Some (mkResetState (reset_on_change i x ps) cs w timers mounted)
      | ResetForm _ _ _ _ _, RsBackToLogin => Some (mkResetState ps (push_route cs "/") w timers false)
      | ResetForm _ _ p c _, RsSubmit =>
          if String.eqb p "" || String.eqb c "" then None else
          match reset_submit cfg env reachable fetch_error token ps cs w with
          | (inr (ps', cs'), w') =>
              Some (mkResetState ps' cs' w'
                      (if rp_isSuccess ps' then (timers ++ ["/home"])%list else timers) mounted)
          | (inl _, _) => None
          end
      | _, _ => None
      end
  end.

Fixpoint reset_events (token : option string) (evs : list (Env * ResetEvent)) (s : ResetState)
    : option ResetState :=
  match evs with
  | [] => Some s
  | (env, ev) :: evs' => s' ← reset_event token env ev s; reset_events token evs' s'
  end.
End ResetEvents.

(** The first render: [useState] initial values, no timer. *)
Definition reset_init (cs : ClientState) (w : World) : ResetState :=
  mkResetState (mkResetPage "" "" "" false false) cs w [] true.

(** The states reachable from the first render on the world [w0]. *)
Inductive reset_reachable `{PasswordHasher} `{EmailCheck} `{Collation} `{Digest} `{Mac}
    (cfg : Config) (reachable : bool) (fetch_error : string) (token : option string) (w0 : World)
    : ResetState -> Prop :=
| rreach_init cs : reset_reachable cfg reachable fetch_error token w0 (reset_init cs w0)
| rreach_step env ev s s' :
    reset_reachable cfg reachable fetch_error token w0 s ->
    reset_event cfg reachable fetch_error token env ev s = Some s' ->
    reset_reachable cfg reachable fetch_error token w0 s'.

(** ** Properties of the reset page *)

Section ResetProperties.
Context `{PasswordHasher} `{EmailCheck} `{Collation} `{Digest} `{Mac}.
Context (cfg : Config) (reachable : bool) (fetch_error : string).

(** With a token in the path, the page renders its form until it
    succeeds. *)
Lemma reset_view_form tok ps :
  tok <> "" -> rp_isSuccess ps = false ->
  reset_view (Some tok) true ps =
    ResetForm (rp_isLoading ps) (if String.eqb (rp_error ps) "" then None else Some (rp_error ps))
      (rp_password ps) (rp_confirmPassword ps)
      (if rp_isLoading ps then Spinner else ButtonLabel "Restablecer Contraseña").
Proof. intros Ht Hs. unfold reset_view. by rewrite falsy_some, Hs. Qed.

(** The state a run of events reaches is reachable. *)
Lemma reset_events_reachable token w0 evs s s' :
  reset_reachable cfg reachable fetch_error token w0 s ->
  reset_events cfg reachable fetch_error token evs s = Some s' ->
  reset_reachable cfg reachable fetch_error token w0 s'.
Proof.
  revert s. induction evs as [|[env ev] evs IH]; intros s R E; cbn in E; [by injection E as <-|].
  destruct (reset_event _ _ _ _ _ _ s) as [s1|] eqn:E1; [|discriminate].
  eapply IH; [|exact E]. by eapply rreach_step.
Qed.

(** C32: On the reset page opened from a mailed link (a non-empty token
    in the path), every state reachable by typing, submitting, the two
    back links and the browser's timers keeps [isSuccess] and
    [isLoading] false, has armed no [setTimeout] redirect, and has the
    backend world it started with: the page never succeeds, never shows
    its success view and never redirects to [/home]. *)
Theorem reset_page_never_redirects tok w0 s :
  tok <> "" -> Js.no_char "/" tok = true ->
  reset_reachable cfg reachable fetch_error (Some tok) w0 s ->
  rp_isSuccess (rs_page s) = false /\ rp_isLoading (rs_page s) = false /\
  rs_timers s = [] /\ rs_world s = w0.
Proof.
  intros Ht Hsl R. induction R as [cs|env ev [ps cs w timers mounted] s' R IH Hstep]; [done|].
  cbn in IH. destruct IH as (Hs & Hl & -> & ->).
  destruct ev as [i x| | | |]; cbn [reset_event] in Hstep; [..|discriminate];
    destruct mounted; try discriminate; cbn [negb] in Hstep; rewrite reset_view_form in Hstep by done.
  - injection Hstep as <-. by destruct i.
  - destruct (String.eqb _ "" || String.eqb _ "") in Hstep; [discriminate|].
    destruct (reset_submit_link cfg env fetch_error reachable tok ps cs w0 Ht Hsl Hl) as (ps' & cs' & E & Hs' & Hl').
    rewrite E, Hs', Hs in Hstep. injection Hstep as <-. cbn. by rewrite Hs', Hs.
  - by injection Hstep as <-.
  - discriminate.
Qed.
End ResetProperties.

End PageViews.
