(* ===== verification/Effects.v ===== *)
(** * The pages' [useEffect] hooks and React's re-render loop

    After each render React runs the effects whose dependency array
    changed since their last run (all of them on mount).  An effect
    callback sees the values of the render it belongs to and schedules
    state updates; if the updates change the state, React renders again
    and repeats.  A component whose effects keep changing their own
    dependencies never settles.  [settle] runs this loop with fuel; it
    returns [None] only when the fuel runs out.

    The effects modelled are those of [src/FrontEnd/Pages/index.js]
    (redirect a signed-in user to [/home]; show the context's [error])
    and of [src/FrontEnd/Pages/reset-password/[token].js] (the same
    redirect).  The router dependency is the current route: [useRouter]
    gives a new router object when the route changes.  The theorem
    [page_effects_settle] shows both pages settle after at most two
    renders, with the state the effects describe. *)

From S2P Require Import Prelude JsString Crypto Jwt UserModel AuthController Frontend Pages PageViews.
From Stdlib Require Import Strings.String.
Import ListNotations.
Open Scope string_scope.

Module Effects.
Import UserModel AuthController Frontend Pages PageViews.

(** A value of a dependency array. *)
Inductive DepVal :=
| DUser (u : option PublicUser)
| DRoute (route : string)
| DError (e : option string).

#[export] Instance dep_val_eq_dec : EqDecision DepVal.
Proof. solve_decision. Defined.

Section Loop.
Context {S : Type} `{EqDecision S}.

(** [useEffect(callback, deps)]: [eff_run r acc] applies to [acc] the
    updates the callback of the render [r] schedules. *)
Record Effect := mkEffect { eff_deps : S -> list DepVal; eff_run : S -> S -> S }.

Context (effs : list Effect).

Definition deps_of (s : S) : list (list DepVal) := map (fun e => eff_deps e s) effs.

(** One commit of the render [s]: the effects whose dependencies
    differ from [prev] (every effect when [prev] is [None], on mount)
    run in source order. *)
Fixpoint run_changed (es : list Effect) (prev : option (list (list DepVal))) (s acc : S) : S :=
  match es with
  | [] => acc
  | e :: es' =>
      let '(changed, rest) :=
        match prev with
        | None => (true, None)
        | Some [] => (true, Some [])
        | Some (d :: ds) => (bool_decide (d <> eff_deps e s), Some ds)
        end in
      run_changed es' rest s (if changed then eff_run e s acc else acc)
  end.

(** Render, commit, and render again while the updates change the
    state. *)
Fixpoint settle (fuel : nat) (prev : option (list (list DepVal))) (s : S) : option S :=
  match fuel with
  | O => None
  | Datatypes.S fuel' =>
      let s' := run_changed effs prev s s in
      if bool_decide (s' = s) then Some s else settle fuel' (Some (deps_of s)) s'
  end.

(** A commit whose effects leave the render's state as it is changes
    nothing. *)
Lemma run_changed_fixed es prev s :
  (forall e, e ∈ es -> eff_run e s s = s) -> run_changed es prev s s = s.
Proof.
  revert prev. induction es as [|e es IH]; intros prev Hfix; [done|]. cbn.
  destruct (match prev with None => _ | Some [] => _ | Some (_ :: _) => _ end) as [[] rest].
  - rewrite Hfix by (by left). apply IH. intros e' He'. apply Hfix. by right.
  - apply IH. intros e' He'. apply Hfix. by right.
Qed.

(** Effects that change nothing when run again on the state they
    produced settle after the mount commit and one more render, for
    any fuel from 2 on. *)
Lemma settle_two s n :
  (forall e, e ∈ effs -> eff_run e (run_changed effs None s s) (run_changed effs None s s) =
                         run_changed effs None s s) ->
  settle (2 + n) None s = Some (run_changed effs None s s).
Proof.
  intros Hfix. cbn [settle Nat.add].
  case_bool_decide as E; [by rewrite E|].
  rewrite run_changed_fixed by done. by rewrite bool_decide_eq_true_2.
Qed.
End Loop.

Arguments Effect : clear implicits.

(** [useEffect(() => { if (user) router.push('/home') }, [user, router])] *)
Definition redirect_effect {P} : Effect (P * ClientState) :=
  mkEffect (fun s => [DUser (user (snd s)); DRoute (location (snd s))])
    (fun s acc => match user (snd s) with
                  | Some _ => (fst acc, push_route (snd acc) "/home")
                  | None => acc
                  end).

(** The effects of [Login], in source order: the redirect, then
    [useEffect(() => { if (error) { setStatusMessage(...);
    setIsLoading(false) } }, [error])]. *)
Definition login_effects : list (Effect (LoginPage * ClientState)) :=
  [redirect_effect;
   mkEffect (fun s => [DError (error (snd s))])
     (fun s acc => (show_context_error (fst acc) (snd s), snd acc))].

(** The effect of [ResetPassword]. *)
Definition reset_effects : list (Effect (ResetPage * ClientState)) := [redirect_effect].

#[export] Instance reset_page_eq_dec : EqDecision ResetPage.
Proof. solve_decision. Defined.

(** ** Properties *)

Lemma show_context_error_idem ps cs :
  show_context_error (show_context_error ps cs) cs = show_context_error ps cs.
Proof. unfold show_context_error. by repeat case_match. Qed.

Lemma show_context_error_push ps cs r : show_context_error ps (push_route cs r) = show_context_error ps cs.
Proof. reflexivity. Qed.

(** Membership in a list of effects, by cases. *)
Ltac effect_cases He :=
  repeat (apply elem_of_cons in He as [->|He]); [..|by apply elem_of_nil in He].

(** C39: The effects of both pages never loop: from any state, React's
    render-and-commit loop settles after at most two renders, for every
    fuel from 2 on.  On the login page the settled state shows a
    non-empty context [error] as the status message with the loading
    state ended, and both pages have sent a signed-in user to [/home];
    nothing else changes. *)
Theorem page_effects_settle n ps rp cs :
  settle login_effects (2 + n) None (ps, cs) =
    Some (match error cs with
          | Some m => if String.eqb m "" then ps else lp_set_status ps (status_error m) false
          | None => ps
          end,
          match user cs with Some _ => push_route cs "/home" | None => cs end) /\
  settle reset_effects (2 + n) None (rp, cs) =
    Some (rp, match user cs with Some _ => push_route cs "/home" | None => cs end).
Proof.
  split; rewrite settle_two.
  - cbn. by destruct (user cs).
  - intros e He. effect_cases He; cbn; destruct (user cs) eqn:Eu; cbn; rewrite ?Eu; cbn;
      rewrite ?show_context_error_push, ?show_context_error_idem; reflexivity.
  - cbn. by destruct (user cs).
  - intros e He. effect_cases He. cbn. destruct (user cs) eqn:Eu; cbn; by rewrite ?Eu.
Qed.

End Effects.
