(* ===== verification/Diagnostics.v ===== *)
(** * The connectivity diagnostics of the client

    Models [src/FrontEnd/utils/diagnostico.js]: [checkBackendStatus],
    [checkCORSConfiguration], [testCredentials], [registerTestUser] and
    [runFullDiagnostic], which call the backend directly (not through the
    Next.js proxies) at [API_URL].  Each [fetch] is a request to
    [Routes.app]; whether the backend answers is the input [reaches],
    and a [fetch] that fails rejects with a JavaScript error, caught by
    the function's own [catch].  Identifiers are looked up in the
    lexical scope of the block that mentions them ([Scope]): [API_URL] is
    a [const] of the [try] block, so the [catch] block of
    [checkCORSConfiguration] does not see it.

    The properties: the fallback request of [checkCORSConfiguration]
    never runs (its [catch] fails on [API_URL] first); a diagnostic run
    against a running backend registers a test account with the fixed
    password [Test123456] and leaves it in the table; the generated
    username always passes the model's length check; and the CORS check
    reports [isConfigured] true only when the page shares the API's
    origin, which is exactly when CORS is not needed. *)

From S2P Require Import Prelude JsString Crypto Jwt UserModel AuthController Validators Deployment Routes Frontend.
From stdpp Require Import pretty.
From Stdlib Require Import Ascii Strings.String Lia.
Import ListNotations.
Open Scope string_scope.

Module Diagnostics.
Import UserModel AuthController Validators Routes Frontend.

(** The errors a [fetch] or an expression of this code can throw. *)
Inductive JsError :=
| TypeError (message : string)      (* fetch rejected: network failure *)
| AbortError                        (* controller.abort() *)
| ReferenceError (name : string)    (* an identifier bound in no enclosing scope *)
| NoResponse.                       (* the backend never answered *)

(** [error.message] *)
Definition error_message (e : JsError) : string :=
  match e with
  | TypeError m => m
  | AbortError => "The user aborted a request."
  | ReferenceError x => x ++ " is not defined"
  | NoResponse => ""
  end.

Definition is_abort (e : JsError) : bool :=
  match e with AbortError => true | _ => false end.

(** Lexical scopes: the [const] bindings visible in a block. *)
Definition Scope := list (string * string).

Definition lookup_var {S} (sc : Scope) (x : string) : St S JsError string :=
  match find (fun b => String.eqb (fst b) x) sc with
  | Some (_, v) => ret v
  | None => throw (ReferenceError x)
  end.

(** The module declares no variable: only the exported functions. *)
Definition module_scope : Scope := [].

(** [process.env.NEXT_PUBLIC_API_URL || 'http://localhost:5000'] *)
Definition api_url (NEXT_PUBLIC_API_URL : option string) : string :=
  Deployment.env_or NEXT_PUBLIC_API_URL "http://localhost:5000".

(** The scope of a [try] block that starts with [const API_URL = ...]. *)
Definition try_scope (NEXT_PUBLIC_API_URL : option string) : Scope :=
  ("API_URL", api_url NEXT_PUBLIC_API_URL) :: module_scope.

(** What [res.json] gives for a JSON body, or the text otherwise. *)
Inductive BackendStatus :=
| Online (isOnline : bool) (status : N) (responseText : ResBody)
| Offline (error : string).

Definition isOnline (b : BackendStatus) : bool :=
  match b with Online ok _ _ => ok | Offline _ => false end.

Inductive CorsCheck :=
| CorsChecked (isConfigured : bool) (status : N)
| CorsTimeout
| CorsAlternative (status : N) (error : string)
| CorsFailed (error alternativeError : string).

Inductive RegisterTest :=
| RegNotJson (responseText : ResBody) (testUser : Body)
| RegDone (success : bool) (status : N) (data : ResBody) (testUser : Body)
| RegError (error : string).

Inductive LoginTest :=
| LoginNotJson (responseText : ResBody)
| LoginDone (success : bool) (status : N) (data : ResBody)
| LoginError (error : string)
| LoginNotRun (message : string).

Definition reg_success (r : RegisterTest) : bool :=
  match r with RegDone ok _ _ _ => ok | _ => false end.

Definition login_test_success (l : LoginTest) : bool :=
  match l with LoginDone ok _ _ => ok | _ => false end.

Inductive Diagnostic :=
| DiagOffline (backendStatus : BackendStatus) (message : string)
| DiagDone (success : bool) (backendStatus : BackendStatus) (corsConfig : CorsCheck)
    (registrationTest : RegisterTest) (loginTest : LoginTest) (timestamp : N).

Definition msg_backend_down := "El backend no está disponible. Verifica que esté en ejecución.".
Definition msg_login_not_run := "No se pudo completar la prueba de inicio de sesión".

(** [response.headers.get('Access-Control-Allow-Origin')]: [cors()] and
    the middleware of [server.js] set the header to [*] on every answer,
    but the script of a page sees it only when the page and the API
    share an origin.  A cross-origin response exposes to [headers.get]
    only the CORS-safelisted headers and those named in
    [Access-Control-Expose-Headers], which the server does not send; so
    for a page at another origin than [API_URL] (the default deployment:
    Next.js on its own port, the API at [http://localhost:5000]) the
    script reads [null]. *)
Definition allow_origin (cross_origin : bool) (r : Response) : option string :=
  if cross_origin then None else Some "*".

(** The body [express.json()] leaves for a request without JSON. *)
Definition no_body : Body := mkBody None None None None.

(** [Test123456] and the user of [registerTestUser] for the suffix
    [Math.floor(Math.random() * 10000)]. *)
Definition test_password := "Test123456".
Definition test_username (randomSuffix : N) : string := "test_user_" ++ pretty randomSuffix.
Definition test_email (randomSuffix : N) : string := "test" ++ pretty randomSuffix ++ "@example.com".
Definition test_user (randomSuffix : N) : Body :=
  mkBody (Some (test_username randomSuffix)) (Some (test_email randomSuffix))
    (Some test_password) (Some test_password).

(** A computation of the backend as the client sees it. *)
Definition backend {A} (m : St World Exn A) : St World JsError A :=
  fun w => match m w with
           | (inr a, w') => (inr a, w')
           | (inl _, w') => (inl NoResponse, w')
           end.

Section Client.
Context `{PasswordHasher} `{EmailCheck} `{Collation} `{Digest} `{Mac}.
Context (cfg : Config) (node_env : option string) (NEXT_PUBLIC_API_URL : option string).
(** The network: whether a request to a base URL reaches the backend,
    the message of a failed [fetch], and whether the [/test] request
    outlives its 5 s timeout. *)
Context (reaches : string -> bool) (fetch_error : string) (cors_timeout : bool).
(** Whether the page runs at another origin than [API_URL]. *)
Context (cross_origin : bool).

(** [fetch(`${base}${path}`, {method, body: JSON.stringify(b)})] *)
Definition fetch (env : Env) (m base path : string) (b : Body) : St World JsError Response :=
  if reaches base then backend (app cfg env node_env "" (mkRaw m path None (Some b)))
  else throw (TypeError fetch_error).

(** [checkBackendStatus] *)
Definition checkBackendStatus (env : Env) : St World JsError BackendStatus :=
  try_catch (
    API_URL <- lookup_var (try_scope NEXT_PUBLIC_API_URL) "API_URL" ;;
    response <- fetch env "GET" API_URL "/" no_body ;;
    ret (Online (is_ok (status response)) (status response) (body response)))
  (fun error => ret (Offline (error_message error))).

(** [checkCORSConfiguration]: the inner [try] around the [/test]
    request with its timeout, and the outer [catch] with the
    alternative request to [API_URL]. *)
Definition checkCORSConfiguration (env1 env2 : Env) : St World JsError CorsCheck :=
  try_catch (
    API_URL <- lookup_var (try_scope NEXT_PUBLIC_API_URL) "API_URL" ;;
    try_catch (
      response <- (if reaches API_URL && cors_timeout then throw AbortError
                   else fetch env1 "GET" API_URL "/test" no_body) ;;
      ret (CorsChecked (bool_decide (is_Some (allow_origin cross_origin response))) (status response)))
    (fun fetchError => if is_abort fetchError then ret CorsTimeout else throw fetchError))
  (fun error =>
    try_catch (
      API_URL <- lookup_var module_scope "API_URL" ;;
      response <- fetch env2 "GET" API_URL "/" no_body ;;
      ret (CorsAlternative (status response) (error_message error)))
    (fun altError => ret (CorsFailed (error_message error) (error_message altError)))).

(** [testCredentials(username, password)] *)
Definition testCredentials (env : Env) (username password : string) : St World JsError LoginTest :=
  try_catch (
    API_URL <- lookup_var (try_scope NEXT_PUBLIC_API_URL) "API_URL" ;;
    response <- fetch env "POST" API_URL "/api/auth/login"
                  (mkBody (Some username) None (Some password) None) ;;
    ret (if parses (body response)
         then LoginDone (is_ok (status response)) (status response) (body response)
         else LoginNotJson (body response)))
  (fun error => ret (LoginError (error_message error))).

(** [registerTestUser] with the drawn suffix. *)
Definition registerTestUser (env : Env) (randomSuffix : N) : St World JsError RegisterTest :=
  try_catch (
    API_URL <- lookup_var (try_scope NEXT_PUBLIC_API_URL) "API_URL" ;;
    let testUser := test_user randomSuffix in
    response <- fetch env "POST" API_URL "/api/auth/register" testUser ;;
    ret (if parses (body response)
         then RegDone (is_ok (status response)) (status response) (body response) testUser
         else RegNotJson (body response) testUser))
  (fun error => ret (RegError (error_message error))).

(** [runFullDiagnostic]: five requests in sequence, each with its own
    environment; [client_now] is [new Date()]. *)
Definition runFullDiagnostic (e0 e1 e2 e3 e4 : Env) (randomSuffix client_now : N)
    : St World JsError Diagnostic :=
  backendStatus <- checkBackendStatus e0 ;;
  if negb (isOnline backendStatus) then ret (DiagOffline backendStatus msg_backend_down) else
  corsConfig <- checkCORSConfiguration e1 e2 ;;
  registrationTest <- registerTestUser e3 randomSuffix ;;
  loginTest <- (match registrationTest with
                | RegDone true _ _ testUser =>
                    testCredentials e4 (default "" (b_username testUser)) (default "" (b_password testUser))
                | _ => ret (LoginNotRun msg_login_not_run)
                end) ;;
  ret (DiagDone (reg_success registrationTest && login_test_success loginTest)
         backendStatus corsConfig registrationTest loginTest client_now).
End Client.

(** ** Properties *)

(** The decimal form of a number below [10 ^ k] has at most [k] digits. *)
Lemma pretty_N_go_length (k : nat) x s :
  (0 < x)%N -> (x < 10 ^ N.of_nat k)%N ->
  (S (String.length s) <= String.length (pretty_N_go x s) <= k + String.length s)%nat.
Proof.
  revert x s. induction k as [|k IH]; intros x s Hx Hk.
  - simpl in Hk. lia.
  - rewrite pretty_N_go_step by done.
    destruct (decide (x `div` 10 = 0)%N) as [E|E].
    + rewrite E, pretty_N_go_0. simpl. lia.
    + assert (Hlt : (x `div` 10 < 10 ^ N.of_nat k)%N).
      { apply N.Div0.div_lt_upper_bound. rewrite Nat2N.inj_succ, N.pow_succ_r' in Hk. lia. }
      specialize (IH (x `div` 10)%N (String (pretty_N_char (x `mod` 10)%N) s)
                    (proj1 (N.neq_0_lt_0 _) E) Hlt).
      simpl in IH. lia.
Qed.

(** [`${n}`] of a suffix [Math.floor(Math.random() * 10000)]. *)
Lemma pretty_N_length n : (n < 10000)%N -> (1 <= String.length (pretty n) <= 4)%nat.
Proof.
  intros Hn. unfold pretty, pretty_N. case_decide; [simpl; lia|].
  pose proof (pretty_N_go_length 4 n "" ltac:(lia) ltac:(simpl; lia)). simpl in *. lia.
Qed.

Lemma string_length_app (s1 s2 : string) :
  String.length (s1 ++ s2) = (String.length s1 + String.length s2)%nat.
Proof. induction s1 as [|c s1 IH]; [done|]. rewrite string_app_cons. cbn [String.length]. by rewrite IH. Qed.

Lemma test_username_length n :
  (n < 10000)%N -> (11 <= String.length (test_username n) <= 14)%nat.
Proof.
  intros Hn. unfold test_username. rewrite string_length_app.
  pose proof (pretty_N_length n Hn). simpl. lia.
Qed.

Lemma test_username_valid n : (n < 10000)%N -> validate_username (test_username n) = [].
Proof.
  intros Hn. pose proof (test_username_length n Hn). unfold validate_username, len_ok.
  by rewrite (proj2 (Nat.leb_le _ _)), (proj2 (Nat.leb_le _ _)) by lia.
Qed.

Lemma test_user_fields_nonblank n :
  Js.trim (test_username n) <> "" /\ Js.trim (test_email n) <> "".
Proof. split; apply trim_cons_nonblank; reflexivity. Qed.

Lemma backend_run {A} (m : St World Exn A) w a w' : m w = (inr a, w') -> backend m w = (inr a, w').
Proof. intros Hm. unfold backend. by rewrite Hm. Qed.

(** Every suffix [registerTestUser] can draw gives a username of
    11 to 14 characters, within the model's 3 to 30, and the test user
    passes [validateRegister] exactly when [isEmail] accepts the test
    email. *)
Theorem test_user_valid `{EmailCheck} n :
  (n < 10000)%N ->
  (11 <= String.length (test_username n) <= 14)%nat /\ validate_username (test_username n) = [] /\
  (validateRegister (test_user n) = [] <-> isEmail (test_email n) = true).
Proof.
  intros Hn. split; [by apply test_username_length|]. split; [by apply test_username_valid|]. split.
  - unfold validateRegister, test_user. cbn [b_email].
    intros (_ & (e & [= <-] & _ & Hi)%check_email_nil & _)%app_eq_nil_4. exact Hi.
  - intros Hi. destruct (test_user_fields_nonblank n). apply validateRegister_accepts; try done.
    + by apply test_username_valid.
    + unfold validate_email. by rewrite Hi.
Qed.

Section ClientProperties.
Context `{PasswordHasher} `{EmailCheck} `{Collation} `{Digest} `{Mac}.
Context (cfg : Config) (node_env : option string) (NEXT_PUBLIC_API_URL : option string).
Context (reaches : string -> bool) (fetch_error : string) (cors_timeout : bool).
(** Whether the page runs at another origin than [API_URL]. *)
Context (cross_origin : bool).

Lemma checkBackendStatus_online env w :
  reaches (api_url NEXT_PUBLIC_API_URL) = true ->
  checkBackendStatus cfg node_env NEXT_PUBLIC_API_URL reaches fetch_error env w =
    (inr (Online true 200 (RText "API funcionando correctamente")), w).
Proof. intros Hr. unfold checkBackendStatus, fetch. cbn -[api_url]. st_unfold. by rewrite Hr. Qed.

Lemma checkCORSConfiguration_run env1 env2 w :
  checkCORSConfiguration cfg node_env NEXT_PUBLIC_API_URL reaches fetch_error cors_timeout cross_origin env1 env2 w =
    (inr (if reaches (api_url NEXT_PUBLIC_API_URL) then
            if cors_timeout then CorsTimeout else CorsChecked (negb cross_origin) 200
          else CorsFailed fetch_error "API_URL is not defined"), w).
Proof.
  unfold checkCORSConfiguration, fetch. cbn -[api_url]. st_unfold.
  by destruct (reaches (api_url NEXT_PUBLIC_API_URL)), cors_timeout, cross_origin.
Qed.

(** The row [register] inserts for the test user. *)
Definition test_row (n : N) (t : Table) (env : Env) : User :=
  mkUser (next_id t) (test_username n) (test_email n) (bcrypt_hash (salt env) test_password)
    None None (now env) (now env).

Section Run.
Context (n : N) (t : Table) (ob : list Mail) (tok1 tok2 : string) (e3 e4 : Env).
Hypothesis Hreach : reaches (api_url NEXT_PUBLIC_API_URL) = true.
Hypothesis Hwf : table_wf t.
Hypothesis Hn : (n < 10000)%N.
Hypothesis Hmail : isEmail (test_email n) = true.
Hypothesis Hfresh : Forall (fun r => coll_eq (username r) (test_username n) = false /\
                                     coll_eq (email r) (test_email n) = false) (users t).
Hypothesis Hsign3 : Jwt.sign (next_id t) (test_username n) (JWT_SECRET cfg) (JWT_EXPIRE cfg) (now e3) = inr tok1.
Hypothesis Hsign4 : Jwt.sign (next_id t) (test_username n) (JWT_SECRET cfg) (JWT_EXPIRE cfg) (now e4) = inr tok2.

Let Hemail : validate_email (test_email n) = [].
Proof. unfold validate_email. by rewrite Hmail. Qed.

Lemma registerTestUser_fresh :
  registerTestUser cfg node_env NEXT_PUBLIC_API_URL reaches fetch_error e3 n (mkWorld t ob) =
    (inr (RegDone true 201 (RToken tok1 (next_id t) (test_username n) (test_email n)) (test_user n)),
     mkWorld (insert_row t (test_row n t e3)) ob).
Proof.
  destruct (test_user_fields_nonblank n) as [Htu Hte].
  assert (Happ : app cfg e3 node_env "" (mkRaw "POST" "/api/auth/register" None (Some (test_user n)))
                   (mkWorld t ob) =
                 (inr (mkResponse 201 (RToken tok1 (next_id t) (test_username n) (test_email n))),
                  mkWorld (insert_row t (test_row n t e3)) ob)).
  { rewrite app_server by discriminate. unfold test_user.
    rewrite server_register, validateRegister_accepts; try done; [|by apply test_username_valid].
    apply register_success; try done. by apply test_username_valid. }
  unfold registerTestUser, fetch, lookup_var. st_unfold. cbn -[api_url app test_user].
  rewrite Hreach. unfold backend. by rewrite Happ.
Qed.

Lemma testCredentials_registered :
  let w := mkWorld (insert_row t (test_row n t e3)) ob in
  testCredentials cfg node_env NEXT_PUBLIC_API_URL reaches fetch_error e4 (test_username n) test_password w =
    (inr (LoginDone true 200 (RToken tok2 (next_id t) (test_username n) (test_email n))), w).
Proof using Hreach Hwf Hn Hmail Hemail Hfresh Hsign4.
  intros w. destruct (test_user_fields_nonblank n) as [Htu _].
  assert (Happ : app cfg e4 node_env "" (mkRaw "POST" "/api/auth/login" None
                   (Some (mkBody (Some (test_username n)) None (Some test_password) None))) w =
                 (inr (mkResponse 200 (RToken tok2 (next_id t) (test_username n) (test_email n))), w)).
  { rewrite app_server, server_login by discriminate. unfold validateLogin. cbn [b_username b_password].
    rewrite (proj2 (blank_false _)) by eauto. rewrite falsy_some by discriminate. cbn [app guard].
    apply login_registered; try done. by apply test_username_valid. }
  unfold testCredentials, fetch, lookup_var. st_unfold. cbn -[api_url app test_username].
  rewrite Hreach. unfold backend. by rewrite Happ.
Qed.
End Run.

(** C34: The fallback request of [checkCORSConfiguration] never runs.
    When the [/test] request fails for another reason than the timeout,
    the outer [catch] evaluates [API_URL], a [const] of the [try] block
    it cannot see, and the [ReferenceError] lands in the inner [catch]:
    the result is never [alternativeCheck], and with the backend down it
    reports [alternativeError: "API_URL is not defined"].  No request
    writes. *)
Theorem checkCORSConfiguration_no_fallback env1 env2 w :
  exists c,
    checkCORSConfiguration cfg node_env NEXT_PUBLIC_API_URL reaches fetch_error cors_timeout cross_origin env1 env2 w =
      (inr c, w) /\
    (forall st e, c <> CorsAlternative st e) /\
    (reaches (api_url NEXT_PUBLIC_API_URL) = false ->
     c = CorsFailed fetch_error "API_URL is not defined").
Proof.
  eexists. split; [apply checkCORSConfiguration_run|].
  split; [|by intros ->]. intros st e. by destruct (reaches _), cors_timeout.
Qed.

(** C35: A full diagnostic against a running backend, with a suffix
    whose test user is free, registers [test_user_<n>] with the fixed
    password [Test123456], logs in with it, reports success, and leaves
    the account in the table: the row with the next id and the bcrypt
    hash of [Test123456] stays after the run.  Its CORS report says
    [isConfigured: false] whenever the page runs at another origin than
    the API, since the script cannot read [Access-Control-Allow-Origin]
    there. *)
Theorem runFullDiagnostic_leaves_test_account e0 e1 e2 e3 e4 n client_now t ob tok1 tok2 :
  reaches (api_url NEXT_PUBLIC_API_URL) = true -> table_wf t -> (n < 10000)%N ->
  isEmail (test_email n) = true ->
  Forall (fun r => coll_eq (username r) (test_username n) = false /\
                   coll_eq (email r) (test_email n) = false) (users t) ->
  Jwt.sign (next_id t) (test_username n) (JWT_SECRET cfg) (JWT_EXPIRE cfg) (now e3) = inr tok1 ->
  Jwt.sign (next_id t) (test_username n) (JWT_SECRET cfg) (JWT_EXPIRE cfg) (now e4) = inr tok2 ->
  runFullDiagnostic cfg node_env NEXT_PUBLIC_API_URL reaches fetch_error cors_timeout cross_origin
    e0 e1 e2 e3 e4 n client_now (mkWorld t ob) =
    (inr (DiagDone true (Online true 200 (RText "API funcionando correctamente"))
            (if cors_timeout then CorsTimeout else CorsChecked (negb cross_origin) 200)
            (RegDone true 201 (RToken tok1 (next_id t) (test_username n) (test_email n)) (test_user n))
            (LoginDone true 200 (RToken tok2 (next_id t) (test_username n) (test_email n)))
            client_now),
     mkWorld (insert_row t (test_row n t e3)) ob).
Proof.
  intros Hr Hwf Hn Hm Hf Hs3 Hs4. unfold runFullDiagnostic. st_unfold. cbv beta.
  rewrite checkBackendStatus_online by done. cbn [isOnline negb].
  rewrite checkCORSConfiguration_run, Hr.
  erewrite registerTestUser_fresh; [|eassumption..]. cbn [test_user b_username b_password default Datatypes.id].
  erewrite testCredentials_registered; [reflexivity|eassumption..].
Qed.
End ClientProperties.

End Diagnostics.
