(* ===== verification/Scenarios.v ===== *)
(** * Concrete runs of the handlers

    The scenario of the specification (section 8) and the runs that
    exhibit where the code departs from it, evaluated with the
    computable instances of [Crypto.Toy].  The database collation is the
    binary one unless a run names MySQL's case-insensitive one. *)

From S2P Require Import Prelude JsString Crypto Jwt UserModel Deployment AuthController.
From Stdlib Require Import Strings.String Strings.Byte.
Import ListNotations UserModel AuthController Crypto.Toy Collations.
Open Scope string_scope.

Definition cfg : Config := mkConfig (Some "s3cret") (Some "30d").
Definition env_at (t : N) : Env := mkEnv t "salt" (repeat x2a 20) true "http" "localhost:5000".
Definition w0 : World := mkWorld empty_table [].

Definition form (u e p : option string) : Body := mkBody u e p p.

Definition reset_token : string := Js.hex (repeat x2a 20).

(** The scenario of the specification, section 8. *)
Definition spec_scenario : list (Env * Action) :=
  [ (env_at 1000, ARegister (form (Some "alice") (Some "alice@x.com") (Some "secret1")));
    (env_at 2000, ARegister (form (Some "alice") (Some "other@x.com") (Some "secret2")));
    (env_at 3000, ALogin (form (Some "alice") None (Some "wrong1")));
    (env_at 4000, AForgotPassword (form None (Some "alice@x.com") None));
    (env_at 5000, AResetPassword reset_token (form None None (Some "secret3")));
    (env_at 6000, ALogin (form (Some "alice") None (Some "secret1")));
    (env_at 7000, ALogin (form (Some "alice") None (Some "secret3"))) ].

(** The scenario of the specification runs as it says: the first
    registration succeeds, the second is refused as a duplicate username,
    a wrong password is refused, the reset mail is sent, the reset with
    the mailed token succeeds, the old password is refused and the new
    one accepted. *)
Example spec_scenario_run :
  map summary (fst (run_actions cfg spec_scenario w0)) =
    [(201%N, "<token>"); (400%N, msg_username_taken); (401%N, msg_bad_credentials);
     (200%N, msg_email_sent); (200%N, "<token>"); (401%N, msg_bad_credentials);
     (200%N, "<token>")].
Proof. vm_compute. reflexivity. Qed.

(** Two users, bob (id 1) and carol (id 2). *)
Definition bob_and_carol : list (Env * Action) :=
  [ (env_at 1000, ARegister (form (Some "bob") (Some "bob@x.com") (Some "secret1")));
    (env_at 1001, ARegister (form (Some "carol") (Some "carol@x.com") (Some "secret2"))) ].

(** When the username of one user and the email of another are both
    taken, [register] reports the username when that user's row comes
    first: the email is not checked first, contrary to the specification
    ("email checked first in ties"). *)
Example register_both_taken_reports_username :
  map summary (fst (run_actions cfg
    (bob_and_carol ++ [(env_at 2000, ARegister (form (Some "bob") (Some "carol@x.com") (Some "secret3")))])
    w0)) =
    [(201%N, "<token>"); (201%N, "<token>"); (400%N, msg_username_taken)].
Proof. vm_compute. reflexivity. Qed.

(** In the default deployment ([db.js] with no [DB_DIALECT]: MySQL,
    whose tables compare strings without case), registering a new
    username with an email that differs from a registered one only in
    letter case is refused with "El nombre de usuario ya está en uso":
    the database matches the email, the code's exact [===] comparison
    does not, and the wrong field is blamed. *)
Example register_case_insensitive_run :
  map summary (fst (@run_actions _ _
    (Deployment.dialect_collation (Deployment.dbDialect (Deployment.db_config Deployment.no_db_env)))
    _ _ cfg
    [ (env_at 1000, ARegister (form (Some "bob") (Some "Alice@x.com") (Some "secret1")));
      (env_at 2000, ARegister (form (Some "carol") (Some "alice@x.com") (Some "secret2"))) ]
    w0)) =
    [(201%N, "<token>"); (400%N, msg_username_taken)].
Proof. vm_compute. reflexivity. Qed.

(** [getMe] answers with [createdAt] and [updatedAt] besides
    [{id, username, email}], where the specification says exactly the
    three public fields. *)
Example getMe_exposes_timestamps :
  fst (run_action cfg (env_at 2000) (AGetMe 1) (snd (run_actions cfg
        [(env_at 1000, ARegister (form (Some "alice") (Some "alice@x.com") (Some "secret1")))] w0))) =
    inr (mkResponse 200 (RData (Some (mkProfile 1 "alice" "alice@x.com" 1000 1000)))).
Proof. vm_compute. reflexivity. Qed.

(** A reset whose new password is the text of the stored hash is
    answered 200 but does not change the password: [beforeUpdate] asks
    [changed('password')], which compares the new plaintext with the
    stored hash.  The old password keeps working and the new one is
    refused. *)
Example reset_to_stored_hash_keeps_old_password :
  map summary (fst (run_actions cfg
    [ (env_at 1000, ARegister (form (Some "alice") (Some "alice@x.com") (Some "secret1")));
      (env_at 4000, AForgotPassword (form None (Some "alice@x.com") None));
      (env_at 5000, AResetPassword reset_token (form None None (Some (bcrypt_hash "salt" "secret1"))));
      (env_at 6000, ALogin (form (Some "alice") None (Some (bcrypt_hash "salt" "secret1"))));
      (env_at 7000, ALogin (form (Some "alice") None (Some "secret1"))) ] w0)) =
    [(201%N, "<token>"); (200%N, msg_email_sent); (200%N, "<token>");
     (401%N, msg_bad_credentials); (200%N, "<token>")].
Proof. vm_compute. reflexivity. Qed.
