(* ===== verification/Witnesses.v ===== *)
(** * Witnesses: the properties applied to concrete runs

    Each lemma applies one property of the development at a concrete
    input where its hypotheses hold, with the computable instances of
    [Crypto.Toy] for the primitives and the binary collation.  The
    hypotheses are discharged by evaluation. *)

From S2P Require Import Prelude JsString Crypto Jwt UserModel Deployment AuthController Validators AccountSpec Concurrency Routes Frontend Pages PageViews Diagnostics Scenarios.
From Stdlib Require Import Ascii Strings.String Strings.Byte.
Import ListNotations UserModel AuthController Crypto.Toy Collations.
Open Scope string_scope.

Definition alice_body : Body :=
  mkBody (Some "alice") (Some "alice@x.com") (Some "secret1") (Some "secret1").

Definition alice_row : User :=
  mkUser 1 "alice" "alice@x.com" (bcrypt_hash "salt" "secret1") None None 1000 1000.

(** The table after alice registers at time 1000. *)
Definition t_alice : Table := mkTable [alice_row] 2.

Lemma t_alice_create :
  create "alice" "alice@x.com" (Some "secret1") "salt" 1000 empty_table = (inr alice_row, t_alice).
Proof. vm_compute. reflexivity. Qed.

Lemma t_alice_wf : table_wf t_alice.
Proof. eapply create_wf; [apply empty_table_wf|apply t_alice_create]. Qed.

Lemma in_t_alice r : r ∈ users t_alice -> r = alice_row.
Proof. simpl. by intros ->%list_elem_of_singleton. Qed.

Lemma run_action_wf_witness :
  table_wf (table (mkWorld empty_table [])) /\
  table_wf (table (snd (run_action cfg (env_at 1000) (ARegister alice_body) (mkWorld empty_table [])))).
Proof.
  split; [apply empty_table_wf|].
  eapply (run_action_wf cfg (env_at 1000) (ARegister alice_body) (mkWorld empty_table []));
    [apply empty_table_wf|apply surjective_pairing].
Defined.

Lemma register_then_login_witness :
  exists tok1 tok2 w1,
    Jwt.sign 1 "alice" (JWT_SECRET cfg) (JWT_EXPIRE cfg) 1000 = inr tok1 /\
    Jwt.sign 1 "alice" (JWT_SECRET cfg) (JWT_EXPIRE cfg) 2000 = inr tok2 /\
    register cfg (env_at 1000) alice_body (mkWorld empty_table []) =
      (inr (mkResponse 201 (RToken tok1 1 "alice" "alice@x.com")), w1) /\
    login cfg (env_at 2000) (mkBody (Some "alice") None (Some "secret1") None) w1 =
      (inr (mkResponse 200 (RToken tok2 1 "alice" "alice@x.com")), w1).
Proof.
  apply (register_then_login cfg (env_at 1000) (env_at 2000) "alice" "alice@x.com" "secret1"
           (Some "secret1") empty_table []).
  - apply empty_table_wf.
  - reflexivity.
  - reflexivity.
  - reflexivity.
  - constructor.
  - vm_compute. discriminate.
  - reflexivity.
Defined.

Lemma forgot_reset_single_use_witness :
  exists w1 w2 jwt,
    forgotPassword (env_at 4000) (mkBody None (Some "alice@x.com") None None) (mkWorld t_alice []) =
      (inr (ok_msg 200 msg_email_sent), w1) /\
    outbox w1 = [mkMail "alice@x.com" reset_subject
                   (reset_message (reset_url (env_at 4000) (Js.hex (rand (env_at 4000)))))] /\
    resetPassword cfg (env_at 5000) (Js.hex (rand (env_at 4000)))
      (mkBody None None (Some "secret3") (Some "secret3")) w1 =
      (inr (mkResponse 200 (RToken jwt 1 "alice" "alice@x.com")), w2) /\
    resetPassword cfg (env_at 6000) (Js.hex (rand (env_at 4000))) (mkBody None None None None) w2 =
      (inr (fail_msg 400 msg_bad_token), w2) /\
    exists r, r ∈ users (table w2) /\ id r = 1%N /\ password r = bcrypt_hash "salt" "secret3" /\
      matchPassword r "secret3" = true /\ resetPasswordToken r = None /\ resetPasswordExpire r = None.
Proof.
  apply (forgot_reset_single_use cfg (env_at 4000) (env_at 5000) (env_at 6000) "alice@x.com"
           "secret3" (mkBody None None None None) t_alice [] alice_row).
  - apply t_alice_wf.
  - reflexivity.
  - intros r d Hr%in_t_alice Hd. subst r. discriminate.
  - reflexivity.
  - vm_compute. reflexivity.
  - reflexivity.
  - vm_compute. discriminate.
  - vm_compute. discriminate.
  - reflexivity.
Defined.

Lemma reset_refused_unchanged_witness :
  resetPassword cfg (env_at 5000) "deadbeef" (mkBody None None (Some "secret3") None) (mkWorld t_alice []) =
    (inr (fail_msg 400 msg_bad_token), mkWorld t_alice []).
Proof.
  apply reset_refused_unchanged.
  intros r d Hr%in_t_alice Hd. subst r. discriminate.
Defined.

Lemma login_failure_uniform_witness :
  login cfg (env_at 3000) (mkBody (Some "alice") None (Some "wrong1") None) (mkWorld t_alice []) =
    (inr (fail_msg 401 msg_bad_credentials), mkWorld t_alice []).
Proof.
  apply login_failure_uniform; [discriminate|discriminate|].
  right. exists alice_row. split; vm_compute; reflexivity.
Defined.

Lemma register_username_taken_witness :
  register cfg (env_at 2000) (mkBody (Some "alice") (Some "other@x.com") (Some "secret2") None)
    (mkWorld t_alice []) = (inr (fail_msg 400 msg_username_taken), mkWorld t_alice []).
Proof.
  apply (register_username_taken _ _ _ _ _ _ _ _ alice_row).
  - by apply list_elem_of_singleton.
  - reflexivity.
  - repeat constructor.
Defined.

Lemma register_email_taken_witness :
  register cfg (env_at 2000) (mkBody (Some "zoe") (Some "alice@x.com") (Some "secret2") None)
    (mkWorld t_alice []) = (inr (fail_msg 400 msg_email_taken), mkWorld t_alice []).
Proof.
  apply (register_email_taken _ _ _ _ _ _ _ _ alice_row).
  - apply t_alice_wf.
  - by apply list_elem_of_singleton.
  - reflexivity.
  - repeat constructor.
Defined.

Definition env_mail_down : Env := mkEnv 4000 "salt" (repeat x2a 20) false "http" "localhost:5000".

Lemma forgot_delivery_failure_witness :
  exists t',
    forgotPassword env_mail_down (mkBody None (Some "alice@x.com") None None) (mkWorld t_alice []) =
      (inr (fail_msg 500 msg_email_failed), mkWorld t' []) /\
    table_wf t' /\
    (forall now', find_where (by_reset_token (reset_digest env_mail_down) now') t' = None) /\
    exists y, y ∈ users t' /\ same_key y alice_row /\
      resetPasswordToken y = None /\ resetPasswordExpire y = None.
Proof.
  apply forgot_delivery_failure.
  - apply t_alice_wf.
  - reflexivity.
  - reflexivity.
  - intros r d Hr%in_t_alice Hd. subst r. discriminate.
Defined.

(** The row of alice while a reset is pending (issued at 4000). *)
Definition alice_pending : User := with_updated (issued_row (env_at 4000) alice_row) 4000.
Definition t_pending : Table := mkTable [alice_pending] 2.

Definition long_password : string := string_of_list_ascii (repeat "a"%char 101).

Lemma reset_invalid_password_500_witness :
  resetPassword cfg (env_at 5000) reset_token (mkBody None None (Some long_password) (Some long_password))
    (mkWorld t_pending []) = (inr (fail_msg 500 msg_server_error), mkWorld t_pending []).
Proof.
  apply (reset_invalid_password_500 _ _ _ _ _ _ _ _ _ alice_pending).
  - vm_compute. reflexivity.
  - vm_compute. discriminate.
  - vm_compute. discriminate.
Defined.

(** A 73-byte password and another one that differs only in its last byte. *)
Definition pw73 : string := string_of_list_ascii (repeat "a"%char 72 ++ ["1"%char]).
Definition pw73' : string := string_of_list_ascii (repeat "a"%char 72 ++ ["2"%char]).

Definition dave_row : User :=
  mkUser 1 "dave" "dave@x.com" (bcrypt_hash "salt" pw73) None None 1000 1000.
Definition t_dave : Table := mkTable [dave_row] 2.

Lemma t_dave_wf : table_wf t_dave.
Proof.
  apply (create_wf "dave" "dave@x.com" (Some pw73) "salt" 1000 empty_table dave_row);
    [apply empty_table_wf|vm_compute; reflexivity].
Qed.

Lemma login_bcrypt_truncation_witness :
  exists tok,
    Jwt.sign 1 "dave" (JWT_SECRET cfg) (JWT_EXPIRE cfg) 3000 = inr tok /\
    login cfg (env_at 3000) (mkBody (Some "dave") None (Some pw73') None) (mkWorld t_dave []) =
      (inr (mkResponse 200 (RToken tok 1 "dave" "dave@x.com")), mkWorld t_dave []).
Proof.
  eexists. split; [vm_compute; reflexivity|].
  apply (login_bcrypt_truncation cfg (env_at 3000) "dave" pw73' None None t_dave [] dave_row "salt" pw73).
  - apply t_dave_wf.
  - by apply list_elem_of_singleton.
  - reflexivity.
  - discriminate.
  - vm_compute. discriminate.
  - reflexivity.
  - vm_compute. reflexivity.
  - vm_compute. reflexivity.
Defined.


(** A deployment with [JWT_SECRET] set and [JWT_EXPIRE] unset. *)
Definition cfg_no_expire : Config := mkConfig (Some "s3cret") None.

Lemma register_token_failure_keeps_row_witness :
  register cfg_no_expire (env_at 1000) alice_body (mkWorld empty_table []) =
    (inr (fail_msg 500 msg_server_error), mkWorld t_alice []).
Proof.
  apply (register_token_failure_keeps_row cfg_no_expire (env_at 1000) "alice" "alice@x.com" "secret1"
           (Some "secret1") empty_table []).
  - reflexivity.
  - reflexivity.
  - reflexivity.
  - constructor.
  - eexists. reflexivity.
Defined.

(** The token [register] issues to alice at time 1000 under [cfg]. *)
Definition alice_token : string :=
  match Jwt.sign 1 "alice" (JWT_SECRET cfg) (JWT_EXPIRE cfg) 1000 with
  | inr t => t
  | inl _ => ""
  end.

Definition alice_claims : Jwt.Claims := Jwt.mkClaims 1 "alice" 1 (Some 2592001%N).

Definition get_me (tok : string) : Routes.Request :=
  Routes.mkRequest "GET" "/api/auth/me" (Some ("Bearer " ++ tok)) (mkBody None None None None).

Lemma me_route_issued_token_witness :
  Routes.server cfg (env_at 2000) (get_me alice_token) (mkWorld t_alice []) =
    (inr (if Jwt.expired alice_claims 2000 then fail_msg 401 Routes.msg_unauthorized
          else mkResponse 200 (RData (Some (profile_of alice_row)))), mkWorld t_alice []).
Proof.
  apply (Routes.me_route_issued_token cfg (env_at 2000) 1000 alice_row alice_token alice_claims).
  - apply t_alice_wf.
  - by apply list_elem_of_singleton.
  - vm_compute. reflexivity.
  - vm_compute. reflexivity.
Defined.

Lemma protect_sound_witness :
  mkWorld t_alice [] = mkWorld t_alice [] /\
  exists tok k p c u, Routes.bearer_token (Some ("Bearer " ++ alice_token)) = Some tok /\
    JWT_SECRET cfg = Some k /\
    tok = (Jwt.jwt_header ++ String Jwt.dot p) ++
            String Jwt.dot (Jwt.signature k (Jwt.jwt_header ++ String Jwt.dot p)) /\
    Jwt.decode_claims p = Some c /\ Jwt.expired c (now (env_at 2000)) = false /\
    u ∈ users (table (mkWorld t_alice [])) /\ id u = 1%N /\ Jwt.cl_id c = 1%N.
Proof.
  apply (Routes.protect_sound cfg (env_at 2000) (Some ("Bearer " ++ alice_token))
           (mkWorld t_alice []) 1 (mkWorld t_alice [])).
  vm_compute. reflexivity.
Defined.

Lemma protect_other_secret_witness :
  Routes.protect (mkConfig (Some "other") (Some "30d")) (env_at 2000) (Some ("Bearer " ++ alice_token))
    (mkWorld t_alice []) = (inr (inl (fail_msg 401 Routes.msg_unauthorized)), mkWorld t_alice []).
Proof.
  refine (Routes.protect_other_secret (mkConfig (Some "other") (Some "30d")) (env_at 2000)
           alice_row "s3cret" (Some "30d") 1000 alice_token (mkWorld t_alice []) _ "other" _ _ _).
  - vm_compute. reflexivity.
  - reflexivity.
  - discriminate.
  - discriminate.
Defined.

Lemma getSignedJwtToken_verify_witness :
  t_alice = t_alice /\ forall tok, @inr Exn _ alice_token = inr tok ->
    exists c, Jwt.sign_claims 1 "alice" (JWT_EXPIRE cfg) 1000 = inr c /\
      Jwt.cl_id c = 1%N /\ Jwt.cl_username c = "alice" /\
      Jwt.verify tok (JWT_SECRET cfg) 5000 =
        (if Jwt.expired c 5000 then inl Jwt.TokenExpired else inr c).
Proof.
  apply (getSignedJwtToken_verify alice_row (JWT_SECRET cfg) (JWT_EXPIRE cfg) 1000 5000 t_alice).
  vm_compute. reflexivity.
Defined.

Lemma protect_bearer_prefix_witness :
  Routes.protect cfg (env_at 2000) (Some ("Bearer" ++ "xx" ++ String Js.space alice_token)) (mkWorld t_alice []) =
    Routes.protect cfg (env_at 2000) (Some ("Bearer " ++ alice_token)) (mkWorld t_alice []).
Proof.
  apply Routes.protect_bearer_prefix.
  - reflexivity.
  - vm_compute. reflexivity.
Defined.

Lemma client_reset_always_rejected_witness :
  Frontend.ctx_resetPassword cfg (env_at 5000) true "" "secret3" (Js.hex (rand (env_at 4000)))
    (Frontend.mkClient None false None None "/reset-password") (mkWorld t_pending []) =
    (inr (false, Frontend.set_error (Frontend.mkClient None false None None "/reset-password")
                   (Some (if true then "Error al restablecer contraseña" else Frontend.msg_unreachable))),
     mkWorld t_pending []).
Proof.
  apply Frontend.client_reset_always_rejected.
  - vm_compute. discriminate.
  - vm_compute. reflexivity.
Defined.

Lemma getResetPasswordToken_spec_witness :
  let '(tok, x') := getResetPasswordToken alice_row (repeat x2a 20) 4000 in
  String.length tok = 40 /\ Js.unhex tok = Some (repeat x2a 20) /\
  resetPasswordToken x' = Some (sha256_hex tok) /\
  resetPasswordExpire x' = Some (4000 + 600000)%N /\
  password x' = password alice_row /\ same_key x' alice_row /\ reset_fields_ok x' /\
  (repeat x2b 20 <> repeat x2a 20 ->
   resetPasswordToken (snd (getResetPasswordToken alice_row (repeat x2b 20) 4000)) <>
     resetPasswordToken x').
Proof. apply (getResetPasswordToken_spec alice_row). reflexivity. Defined.

Lemma register_route_fresh_witness :
  Routes.server cfg (env_at 1000)
    (Routes.mkRequest "POST" "/api/auth/register" None
       (mkBody (Some "alice") (Some "alice@x.com") (Some "secret1") (Some "secret1")))
    (mkWorld empty_table []) =
    (inr (mkResponse 201 (RToken alice_token (next_id empty_table) "alice" "alice@x.com")),
     mkWorld (insert_row empty_table
                (mkUser (next_id empty_table) "alice" "alice@x.com"
                   (bcrypt_hash (salt (env_at 1000)) "secret1") None None
                   (now (env_at 1000)) (now (env_at 1000)))) []).
Proof.
  apply Routes.register_route_fresh.
  - reflexivity.
  - discriminate.
  - reflexivity.
  - discriminate.
  - reflexivity.
  - constructor.
  - vm_compute. reflexivity.
Defined.

Definition signed_out : Frontend.ClientState := Frontend.mkClient None false None None "/".

Definition reset_form : Pages.ResetPage := Pages.mkResetPage "secret3" "secret3" "" false false.

Lemma reset_page_silent_failure_witness :
  Pages.reset_submit cfg (env_at 5000) true "" (Some (Js.hex (rand (env_at 4000)))) reset_form signed_out
    (mkWorld t_pending []) =
    (inr (Pages.rp_with reset_form "" (Pages.rp_isSuccess reset_form),
          Frontend.set_error signed_out (Some (if true then "Error al restablecer contraseña"
                                               else Frontend.msg_unreachable))),
     mkWorld t_pending []).
Proof.
  apply Pages.reset_page_silent_failure.
  - reflexivity.
  - cbn. lia.
  - vm_compute. discriminate.
  - vm_compute. reflexivity.
Defined.

Definition forgot_form : Pages.LoginPage :=
  Pages.mkLoginPage "" "" false true "alice@x.com" "" false Pages.no_status.

Lemma forgot_page_error_witness :
  Pages.login_submit cfg (env_at 4000) true "" forgot_form signed_out (mkWorld t_alice []) =
    (inr (Pages.lp_set_status forgot_form (Pages.status_error Frontend.msg_not_json) false,
          Frontend.set_error signed_out (Some Frontend.msg_not_json)), mkWorld t_alice []).
Proof. apply Pages.forgot_page_error; [reflexivity|reflexivity|discriminate]. Defined.

Definition signup_form : Pages.LoginPage :=
  Pages.mkLoginPage "alice" "secret1" true false "alice@x.com" "secret1" false Pages.no_status.

Lemma signup_page_creates_account_witness :
  Pages.login_submit cfg (env_at 1000) true "" signup_form signed_out (mkWorld empty_table []) =
    (inr (Pages.lp_set_status signup_form Pages.no_status true,
          Frontend.signed_in signed_out
            (RToken alice_token (next_id empty_table) (Pages.lp_username signup_form)
               (Pages.lp_email signup_form))),
     mkWorld (insert_row empty_table (mkUser (next_id empty_table) (Pages.lp_username signup_form)
                (Pages.lp_email signup_form) (bcrypt_hash (salt (env_at 1000)) (Pages.lp_password signup_form))
                None None (now (env_at 1000)) (now (env_at 1000)))) []).
Proof.
  apply Pages.signup_page_creates_account.
  - reflexivity.
  - reflexivity.
  - reflexivity.
  - discriminate.
  - reflexivity.
  - discriminate.
  - reflexivity.
  - constructor.
  - vm_compute. reflexivity.
Defined.

Lemma run_actions_refine_witness :
  table_wf (table w0) /\
  exists ls, AccountSpec.steps ls (AccountSpec.abs (table w0))
               (AccountSpec.abs (table (snd (run_actions cfg spec_scenario w0)))) /\
    Forall (fun l => Exists (fun req => AccountSpec.allowed (snd req) l) spec_scenario) ls.
Proof. split; [apply empty_table_wf|]. apply AccountSpec.run_actions_refine, empty_table_wf. Defined.

Lemma run_actions_accounts_persist_witness :
  table_wf (table (mkWorld t_alice [])) /\ alice_row ∈ users (table (mkWorld t_alice [])) /\
  exists x', x' ∈ users (table (snd (run_actions cfg (List.skipn 1 spec_scenario) (mkWorld t_alice [])))) /\
    id x' = id alice_row /\ username x' = username alice_row /\ email x' = email alice_row.
Proof.
  split_and!; [apply t_alice_wf|by apply list_elem_of_singleton|].
  apply AccountSpec.run_actions_accounts_persist; [apply t_alice_wf|by apply list_elem_of_singleton].
Defined.


Lemma t_pending_wf : table_wf t_pending.
Proof.
  change t_pending with (table (snd (run_action cfg (env_at 4000)
    (AForgotPassword (mkBody None (Some "alice@x.com") None None)) (mkWorld t_alice [])))).
  eapply (run_action_hoare_aux cfg (env_at 4000) _ (mkWorld t_alice [])); [apply t_alice_wf|apply surjective_pairing].
Qed.



Lemma run_actions_keys_valid_witness :
  table_wf (table (mkWorld t_alice [])) /\
  Forall (fun r => (3 <= String.length (username r) <= 30)%nat /\ isEmail (email r) = true)
    (users (table (snd (run_actions cfg spec_scenario (mkWorld t_alice []))))).
Proof.
  split; [apply t_alice_wf|].
  apply AccountSpec.run_actions_keys_valid; [apply t_alice_wf|].
  repeat constructor.
Defined.

(** The token [jwt.sign] gives the test user of suffix 42, the row
    after alice's. *)
Definition diag_token (e : Env) : string :=
  match Jwt.sign 2 (Diagnostics.test_username 42) (JWT_SECRET cfg) (JWT_EXPIRE cfg) (now e) with
  | inr tok => tok
  | inl _ => ""
  end.

Lemma runFullDiagnostic_leaves_test_account_witness :
  Diagnostics.runFullDiagnostic cfg None None (fun _ => true) "Failed to fetch" false true
    (env_at 2000) (env_at 2001) (env_at 2002) (env_at 3000) (env_at 3001) 42 3002 (mkWorld t_alice []) =
    (inr (Diagnostics.DiagDone true
            (Diagnostics.Online true 200 (RText "API funcionando correctamente"))
            (if false then Diagnostics.CorsTimeout else Diagnostics.CorsChecked (negb true) 200)
            (Diagnostics.RegDone true 201
               (RToken (diag_token (env_at 3000)) (next_id t_alice) (Diagnostics.test_username 42)
                  (Diagnostics.test_email 42)) (Diagnostics.test_user 42))
            (Diagnostics.LoginDone true 200
               (RToken (diag_token (env_at 3001)) (next_id t_alice) (Diagnostics.test_username 42)
                  (Diagnostics.test_email 42)))
            3002),
     mkWorld (insert_row t_alice (Diagnostics.test_row 42 t_alice (env_at 3000))) []).
Proof.
  apply Diagnostics.runFullDiagnostic_leaves_test_account.
  - reflexivity.
  - apply t_alice_wf.
  - lia.
  - vm_compute. reflexivity.
  - repeat constructor.
  - vm_compute. reflexivity.
  - vm_compute. reflexivity.
Defined.

Lemma test_user_valid_witness :
  (42 < 10000)%N /\
  ((11 <= String.length (Diagnostics.test_username 42) <= 14)%nat /\
   validate_username (Diagnostics.test_username 42) = [] /\
   (Validators.Validators.validateRegister (Diagnostics.test_user 42) = [] <->
    isEmail (Diagnostics.test_email 42) = true)).
Proof. split; [lia|]. apply Diagnostics.test_user_valid. lia. Defined.

Definition stray_request : Routes.Request := Routes.mkRequest "GET" "/nope" None alice_body.

Definition preflight_request : Routes.Request := Routes.mkRequest "OPTIONS" "/api/auth/login" None alice_body.

Lemma server_answers_typed_witness :
  Routes.server cfg (env_at 1000) preflight_request (mkWorld t_alice []) =
    (inr (mkResponse 204 REmpty), mkWorld t_alice []) /\
  ((Routes.method preflight_request = "OPTIONS" /\ mkResponse 204 REmpty = mkResponse 204 REmpty) \/
   (api_status (status (mkResponse 204 REmpty)) = true /\
    (json_body (body (mkResponse 204 REmpty)) = false ->
     mkResponse 204 REmpty = mkResponse 200 (RText "API funcionando correctamente") \/
     mkResponse 204 REmpty = Routes.not_found preflight_request))).
Proof.
  split; [reflexivity|].
  apply (Routes.server_answers_typed cfg (env_at 1000) preflight_request (mkWorld t_alice [])
           (mkResponse 204 REmpty) (mkWorld t_alice [])).
  reflexivity.
Defined.

(** The page after the user chose "forgot password". *)
Definition forgot_mode_state : PageViews.LoginState :=
  (Pages.toggleForgotPassword PageViews.login_init, signed_out, mkWorld t_alice []).

Lemma forgot_mode_reachable : PageViews.login_reachable cfg true "" forgot_mode_state.
Proof.
  apply (PageViews.reach_step _ _ _ (env_at 1000) (PageViews.EvClick PageViews.LinkForgot)
           (PageViews.login_init, signed_out, mkWorld t_alice []));
    [apply PageViews.reach_init|reflexivity].
Qed.

Lemma login_form_matches_submit_witness :
  PageViews.login_reachable cfg true "" forgot_mode_state /\
  PageViews.login_view (Pages.toggleForgotPassword PageViews.login_init) signed_out =
    Some (PageViews.login_form (Pages.toggleForgotPassword PageViews.login_init)) /\
  (PageViews.modes_ok (Pages.toggleForgotPassword PageViews.login_init) /\
   map PageViews.in_id (PageViews.lv_inputs (PageViews.login_form (Pages.toggleForgotPassword PageViews.login_init))) =
     PageViews.submit_fields (Pages.toggleForgotPassword PageViews.login_init) /\
   (PageViews.can_submit (PageViews.login_form (Pages.toggleForgotPassword PageViews.login_init)) = true ->
    Forall (fun i => PageViews.field_value (Pages.toggleForgotPassword PageViews.login_init) i <> "")
      (PageViews.submit_fields (Pages.toggleForgotPassword PageViews.login_init)))).
Proof.
  split; [apply forgot_mode_reachable|]. split; [reflexivity|].
  apply (PageViews.login_form_matches_submit cfg true "" _ signed_out (mkWorld t_alice [])).
  - apply forgot_mode_reachable.
  - reflexivity.
Defined.

Lemma forgot_error_survives_back_to_login_witness :
  Frontend.user signed_out = None /\ "alice@x.com" <> "" /\
  exists ps v,
    PageViews.login_events cfg true ""
      [(env_at 4000, PageViews.EvClick PageViews.LinkForgot);
       (env_at 4000, PageViews.EvType PageViews.IResetEmail "alice@x.com");
       (env_at 4001, PageViews.EvSubmit); (env_at 4000, PageViews.EvClick PageViews.LinkBackToLogin)]
      (PageViews.login_init, signed_out, mkWorld t_alice []) =
      Some (ps, Frontend.set_error signed_out (Some Frontend.msg_not_json), mkWorld t_alice []) /\
    PageViews.login_view ps (Frontend.set_error signed_out (Some Frontend.msg_not_json)) = Some v /\
    PageViews.lv_title v = PageViews.msg_title_login /\
    PageViews.lv_status v = Some (Pages.status_error Frontend.msg_not_json) /\
    map PageViews.in_id (PageViews.lv_inputs v) = [PageViews.IUsername; PageViews.IPassword].
Proof.
  split; [reflexivity|]. split; [discriminate|].
  apply PageViews.forgot_error_survives_back_to_login; [reflexivity|discriminate].
Defined.

Lemma provider_mount_restores_session_witness :
  Frontend.provider_mount cfg (env_at 2000) true "" (Some alice_token) "/" (mkWorld t_alice []) =
    (inr (if Jwt.expired alice_claims 2000 then Frontend.mkClient None false None None "/"
          else Frontend.mkClient (Some (Frontend.mkPublicUser (id alice_row) (username alice_row)
                                          (email alice_row))) false None (Some alice_token) "/"),
     mkWorld t_alice []).
Proof.
  apply (Frontend.provider_mount_restores_session cfg (env_at 2000) "" "/" 1000 alice_row alice_token
           alice_claims).
  - apply t_alice_wf.
  - by apply list_elem_of_singleton.
  - vm_compute. reflexivity.
  - vm_compute. reflexivity.
Defined.

Lemma reset_race_reuses_token_witness :
  exists jwt1 jwt2,
    Jwt.sign 1 "alice" (JWT_SECRET cfg) (JWT_EXPIRE cfg) 5000 = inr jwt1 /\
    Jwt.sign 1 "alice" (JWT_SECRET cfg) (JWT_EXPIRE cfg) 5001 = inr jwt2 /\
    Concurrency.run_schedule cfg [0; 1; 0; 1]
      [Concurrency.Ready (Concurrency.RReset (env_at 5000) (Js.hex (rand (env_at 4000)))
                            (mkBody None None (Some "secret3") None));
       Concurrency.Ready (Concurrency.RReset (env_at 5001) (Js.hex (rand (env_at 4000)))
                            (mkBody None None (Some "secret4") None))] (mkWorld t_pending []) =
      ([Concurrency.Answered (mkResponse 200 (RToken jwt1 1 "alice" "alice@x.com"));
        Concurrency.Answered (mkResponse 200 (RToken jwt2 1 "alice" "alice@x.com"))],
       mkWorld (update_row 1 (apply_changes alice_pending (reset_row (env_at 5001) alice_pending "secret4") 5001)
                 (update_row 1 (apply_changes alice_pending (reset_row (env_at 5000) alice_pending "secret3") 5000)
                    t_pending)) []).
Proof.
  do 2 eexists. split; [reflexivity|]. split; [reflexivity|].
  apply (Concurrency.reset_race_reuses_token cfg _ (env_at 5000) (env_at 5001) _ _ "secret3" "secret4"
           alice_pending).
  all: try reflexivity.
  all: try (vm_compute; reflexivity).
  all: vm_compute; discriminate.
Defined.

Lemma register_race_server_error_witness :
  exists jwt,
    Jwt.sign 2 "bob" (JWT_SECRET cfg) (JWT_EXPIRE cfg) 2000 = inr jwt /\
    let ths := [Concurrency.Ready (Concurrency.RRegister (env_at 2000)
                                     (mkBody (Some "bob") (Some "bob@x.com") (Some "secret2") None));
                Concurrency.Ready (Concurrency.RRegister (env_at 2001)
                                     (mkBody (Some "bob") (Some "bob2@x.com") (Some "secret5") None))] in
    let w' := mkWorld (insert_row t_alice (mkUser 2 "bob" "bob@x.com" (bcrypt_hash "salt" "secret2")
                                            None None 2000 2000)) [] in
    Concurrency.run_schedule cfg (Concurrency.sequential 2) ths (mkWorld t_alice []) =
      ([Concurrency.Answered (mkResponse 201 (RToken jwt 2 "bob" "bob@x.com"));
        Concurrency.Answered (fail_msg 400 msg_username_taken)], w') /\
    Concurrency.run_schedule cfg [0; 1; 0; 1] ths (mkWorld t_alice []) =
      ([Concurrency.Answered (mkResponse 201 (RToken jwt 2 "bob" "bob@x.com"));
        Concurrency.Answered (fail_msg 500 msg_server_error)], w').
Proof.
  eexists. split; [reflexivity|].
  apply (Concurrency.register_race_server_error cfg (env_at 2000) (env_at 2001) "bob" "bob@x.com"
           "bob2@x.com" "secret2" "secret5" None None t_alice []).
  all: try reflexivity.
  - discriminate.
  - repeat constructor.
Defined.

Lemma reset_page_never_redirects_witness :
  exists s,
    PageViews.reset_events cfg true "" (Some "abc")
      [(env_at 5000, PageViews.RsType PageViews.RPassword "secret3");
       (env_at 5000, PageViews.RsType PageViews.RConfirm "secret3");
       (env_at 5001, PageViews.RsSubmit)] (PageViews.reset_init signed_out (mkWorld t_pending [])) = Some s /\
    Pages.rp_isSuccess (PageViews.rs_page s) = false /\ Pages.rp_isLoading (PageViews.rs_page s) = false /\
    PageViews.rs_timers s = [] /\ PageViews.rs_world s = mkWorld t_pending [].
Proof.
  eexists. split; [reflexivity|].
  apply (PageViews.reset_page_never_redirects cfg true "" "abc"); [discriminate|reflexivity|].
  eapply (PageViews.reset_events_reachable cfg true "" (Some "abc") _
            [(env_at 5000, PageViews.RsType PageViews.RPassword "secret3");
             (env_at 5000, PageViews.RsType PageViews.RConfirm "secret3");
             (env_at 5001, PageViews.RsSubmit)]
            (PageViews.reset_init signed_out (mkWorld t_pending [])));
    [apply PageViews.rreach_init|reflexivity].
Defined.

Definition env_other_link : Env := mkEnv 4001 "salt" (repeat x2b 20) true "http" "localhost:5000".

Lemma forgot_race_cancels_token_witness :
  exists t',
    Concurrency.run_schedule cfg [0; 1; 0; 1; 1; 0]
      [Concurrency.Ready (Concurrency.RForgot env_mail_down (mkBody None (Some "alice@x.com") None None));
       Concurrency.Ready (Concurrency.RForgot env_other_link (mkBody None (Some "alice@x.com") None None))]
      (mkWorld t_alice []) =
      ([Concurrency.Answered (fail_msg 500 msg_email_failed); Concurrency.Answered (ok_msg 200 msg_email_sent)],
       mkWorld t' [mkMail "alice@x.com" reset_subject
                     (reset_message (reset_url env_other_link (Js.hex (rand env_other_link))))]) /\
    forall envC b ob',
      resetPassword cfg envC (Js.hex (rand env_other_link)) b (mkWorld t' ob') =
        (inr (fail_msg 400 msg_bad_token), mkWorld t' ob').
Proof.
  apply (Concurrency.forgot_race_cancels_token cfg env_mail_down env_other_link "alice@x.com" t_alice []
           alice_row).
  - reflexivity.
  - intros r d Hr%in_t_alice Hd. subst r. discriminate.
  - intros r d Hr%in_t_alice Hd. subst r. discriminate.
  - reflexivity.
  - reflexivity.
Defined.

Definition env_same_ms : Env := mkEnv 4000 "salt" (repeat x2b 20) true "http" "localhost:5000".

Lemma forgot_race_breaks_invariant_witness :
  exists t',
    Concurrency.run_schedule cfg [0; 0; 1; 0; 1; 1]
      [Concurrency.Ready (Concurrency.RForgot env_mail_down (mkBody None (Some "alice@x.com") None None));
       Concurrency.Ready (Concurrency.RForgot env_same_ms (mkBody None (Some "alice@x.com") None None))]
      (mkWorld t_alice []) =
      ([Concurrency.Answered (fail_msg 500 msg_email_failed); Concurrency.Answered (ok_msg 200 msg_email_sent)],
       mkWorld t' [mkMail "alice@x.com" reset_subject
                     (reset_message (reset_url env_same_ms (Js.hex (rand env_same_ms))))]) /\
    (exists r, r ∈ users t' /\ id r = 1%N /\
       resetPasswordToken r = Some (reset_digest env_same_ms) /\ resetPasswordExpire r = None) /\
    ~ table_wf t'.
Proof.
  apply (Concurrency.forgot_race_breaks_invariant cfg env_mail_down env_same_ms "alice@x.com" t_alice []
           alice_row).
  - apply t_alice_wf.
  - reflexivity.
  - discriminate.
  - vm_compute. discriminate.
  - reflexivity.
  - reflexivity.
  - reflexivity.
Defined.

Lemma schedule_keeps_invariant_witness :
  table_wf (table (snd (Concurrency.run_schedule cfg [0; 1; 1; 0]
    (map Concurrency.Ready
       [Concurrency.RReset (env_at 5000) (Js.hex (rand (env_at 4000))) (mkBody None None (Some "secret3") None);
        Concurrency.RRegister (env_at 5001) (mkBody (Some "bob") (Some "bob@x.com") (Some "secret2") None)])
    (mkWorld t_pending [])))).
Proof.
  apply Concurrency.schedule_keeps_invariant; [repeat constructor|apply t_pending_wf].
Defined.

(** The collation of the default deployment: [db.js] with no
    [DB_DIALECT] is MySQL, which compares strings without case. *)
Definition mysql_coll : Collation :=
  Deployment.dialect_collation (Deployment.dbDialect (Deployment.db_config Deployment.no_db_env)).

Definition bob_upper_row : User :=
  mkUser 1 "bob" "Alice@x.com" (bcrypt_hash "salt" "secret1") None None 1000 1000.

Definition t_bob_upper : Table := mkTable [bob_upper_row] 2.

Lemma t_bob_upper_wf : table_wf (H1 := mysql_coll) t_bob_upper.
Proof.
  eapply (create_wf (H1 := mysql_coll) "bob" "Alice@x.com" (Some "secret1") "salt" 1000 empty_table);
    [apply empty_table_wf|vm_compute; reflexivity].
Qed.

Lemma register_case_insensitive_misreport_witness :
  register (H1 := mysql_coll) cfg (env_at 2000)
    (mkBody (Some "carol") (Some "alice@x.com") (Some "secret2") (Some "secret2")) (mkWorld t_bob_upper []) =
    (inr (fail_msg 400 msg_username_taken), mkWorld t_bob_upper []).
Proof.
  apply (register_case_insensitive_misreport (H1 := mysql_coll) cfg _ _ _ _ _ _ _ bob_upper_row).
  - apply t_bob_upper_wf.
  - by apply list_elem_of_singleton.
  - vm_compute. reflexivity.
  - discriminate.
  - constructor; [vm_compute; reflexivity|constructor].
Defined.
